(** * Order scheduling and execution engine of the Solana trading bot

    A shallow embedding of [src/services/trading_engine.py] together with the
    parts of [src/services/database.py] it calls, and the properties of the
    natural-language specification stated over it.

    Conventions of the embedding.
    - Amounts, prices and percentages are carried as the rational numbers
      they denote ([Q]), and compared exactly with [Qltb], [Qleb] and
      [Qeq_bool].  Where the source computes with them and the outcome of
      the computation decides what the engine does (the price change of a
      stop loss, the amount of a copied trade, the balance change of a
      parsed transaction) the computation is done in binary64, as Python
      does it: module [Binary64].  The arithmetic of the snipe allocation
      is exact.
    - A dictionary with optional keys is a record whose optional keys have
      type [option]; [d.get(k, v)] is [dflt v (field d)].
    - Timestamps are seconds ([Z]).
    - The database is a reliable in-memory store: every database function of
      the source catches its own exceptions, and the store here raises only
      where an index of the source refuses a write.
    - A monitor is one task: its rounds follow one another, and within a
      round the orders are checked one after the other.  The functions
      return the new state; the trace of the state records the calls made
      to the execution venue.  Module [Tasks] has the tasks of the event
      loop, suspended and resumed at their calls of the venue. *)

From Stdlib Require Import List String DecimalString ZArith QArith Bool Lia Lqa.
From Stdlib Require Import SpecFloat.
Import ListNotations.

Set Implicit Arguments.

(* ================================================================== *)
(** ** Numbers and Python idioms *)

Definition Qleb (x y : Q) : bool := Qle_bool x y.
Definition Qltb (x y : Q) : bool := negb (Qle_bool y x).

(** Python's [min(a, b)]: the first argument unless the second is smaller. *)
Definition py_min (a b : Q) : Q := if Qltb b a then b else a.

(** [d.get(k, v)] on an optional key. *)
Definition dflt {A : Type} (v : A) (o : option A) : A :=
  match o with Some a => a | None => v end.

(** Truthiness of an optional string: present and not empty. *)
Definition truthy_str (o : option string) : bool :=
  match o with
  | Some s => negb (String.eqb s EmptyString)
  | None => false
  end.

(* ================================================================== *)
(** ** Binary64 arithmetic *)

(** Python's [float] is the binary64 format of IEEE 754, and its
    operations round to nearest, ties to even: the operations of
    [SpecFloat] at precision 53 and maximal exponent 1024. *)
Module Binary64.

Definition prec : Z := 53.
Definition emax : Z := 1024.

Definition float : Type := spec_float.

(** [float(z)] of an integer. *)
Definition of_Z (z : Z) : float := binary_normalize prec emax z 0 false.

Definition add : float -> float -> float := SFadd prec emax.
Definition sub : float -> float -> float := SFsub prec emax.
Definition mul : float -> float -> float := SFmul prec emax.
Definition div : float -> float -> float := SFdiv prec emax.
Definition opp : float -> float := SFopp.
Definition abs : float -> float := SFabs.
Definition ltb : float -> float -> bool := SFltb.
Definition leb : float -> float -> bool := SFleb.

(** The binary64 number a rational stands for: the quotient of its
    numerator by its denominator, rounded once.  A binary64 number stands
    for itself, and a short decimal for the binary64 number Python reads
    it as. *)
Definition of_Q (q : Q) : float := div (of_Z (Qnum q)) (of_Z (Zpos (Qden q))).

(** [min(a, b)]: the first argument unless the second is smaller. *)
Definition py_min (a b : float) : float := if ltb b a then b else a.

(** The rational a finite binary64 number is; [None] for the infinities
    and for not-a-number. *)
Definition to_Q (x : float) : option Q :=
  match x with
  | S754_zero _ => Some 0
  | S754_finite s m e => Some (inject_Z (cond_Zopp s (Zpos m)) * Qpower 2 e)
  | S754_infinity _ | S754_nan => None
  end.


End Binary64.

(** Module constants of [config/settings.py]; each is read from the
    environment with the default given in [default_config]. *)
Record config : Type := mk_config {
  DEFAULT_SLIPPAGE : Q;
  MAX_TRADE_AMOUNT : Q;
  MIN_TRADE_AMOUNT : Q
}.

Definition default_config : config :=
  {| DEFAULT_SLIPPAGE := 5 # 10; MAX_TRADE_AMOUNT := 10; MIN_TRADE_AMOUNT := 1 # 100 |}.

(** The wrapped-SOL mint used as the SOL side of every swap. *)
Definition SOL_MINT : string := "So11111111111111111111111111111111111111112".

(* ================================================================== *)
(** ** Order kinds, states and the [TradeOrder] dataclass *)

Inductive TradeType : Type :=
| BUY | SELL | LIMIT_BUY | LIMIT_SELL | COPY_TRADE | SNIPE.

Inductive TradeStatus : Type :=
| PENDING | EXECUTING | COMPLETED | FAILED | CANCELLED.

Definition TradeType_eqb (a b : TradeType) : bool :=
  match a, b with
  | BUY, BUY | SELL, SELL | LIMIT_BUY, LIMIT_BUY | LIMIT_SELL, LIMIT_SELL
  | COPY_TRADE, COPY_TRADE | SNIPE, SNIPE => true
  | _, _ => false
  end.

(** [TradeStatus.X.value] *)
Definition status_value (s : TradeStatus) : string :=
  match s with
  | PENDING => "pending"
  | EXECUTING => "executing"
  | COMPLETED => "completed"
  | FAILED => "failed"
  | CANCELLED => "cancelled"
  end.

Record TradeOrder : Type := mk_TradeOrder {
  user_id : Z;
  trade_type : TradeType;
  input_token : string;
  output_token : string;
  amount : Q;
  price : option Q;
  slippage : Q;
  stop_loss : option Q;
  take_profit : option Q;
  expires_at : option Z;
  copy_wallet : option string;
  created_at : Z
}.

(** A document of the [users] collection, as far as the engine reads it. *)
Record user_doc : Type := mk_user {
  u_user_id : Z;
  u_subscription_tier : option string;        (* user.get('subscription_tier', 'free') *)
  u_max_trade_amount : option Q;              (* settings.max_trade_amount *)
  u_trading_max_amount : option Q             (* settings.trading.max_amount *)
}.

(* ================================================================== *)
(** ** Order validation ([_validate_order]) *)

Module Validator.

Inductive reason : Type :=
| UserNotFound
| CopyTradingRequiresPremium
| MinimumTradeAmount (m : Q)
| MaximumTradeAmount (m : Q)
| ExceedsUserLimit (user_max : Q)
| InvalidInputToken
| InvalidOutputToken
| SlippageOutOfRange
| SnipeRequiresPremium      (* only in the specification's list of checks *)
| OrderValidated.

Section Validate.

Variable cfg : config.
(** [db.get_user]: [None] when the user is unknown. *)
Variable get_user : Z -> option user_doc.
(** [solana.validate_address] *)
Variable validate_address : string -> bool.

Definition _validate_order (order : TradeOrder) : bool * reason :=
  match get_user (user_id order) with
  | None => (false, UserNotFound)
  | Some user =>
    let user_tier := dflt "free"%string (u_subscription_tier user) in
    if String.eqb user_tier "free" && TradeType_eqb (trade_type order) COPY_TRADE
    then (false, CopyTradingRequiresPremium)
    else if Qltb (amount order) (MIN_TRADE_AMOUNT cfg)
    then (false, MinimumTradeAmount (MIN_TRADE_AMOUNT cfg))
    else if Qltb (MAX_TRADE_AMOUNT cfg) (amount order)
    then (false, MaximumTradeAmount (MAX_TRADE_AMOUNT cfg))
    else
      let user_max := dflt (MAX_TRADE_AMOUNT cfg) (u_max_trade_amount user) in
      if Qltb user_max (amount order)
      then (false, ExceedsUserLimit user_max)
      else if negb (validate_address (input_token order))
      then (false, InvalidInputToken)
      else if negb (validate_address (output_token order))
      then (false, InvalidOutputToken)
      else if Qltb (slippage order) (1 # 10) || Qltb 50 (slippage order)
      then (false, SlippageOutOfRange)
      else (true, OrderValidated)
  end.

(** A validation is a list of checks, each with the reason reported when it
    fails; the outcome is the reason of the first check that fails. *)
Fixpoint first_failing (checks : list (bool * reason)) : bool * reason :=
  match checks with
  | [] => (true, OrderValidated)
  | (passes, r) :: rest => if passes then first_failing rest else (false, r)
  end.

(** The checks in the order the specification lists them: global bounds,
    personal maximum, both addresses, slippage, then feature gating for
    the copy-trade and snipe kinds. *)
Definition spec_checks (user : user_doc) (order : TradeOrder) : list (bool * reason) :=
  let user_max := dflt (MAX_TRADE_AMOUNT cfg) (u_max_trade_amount user) in
  let free := String.eqb (dflt "free"%string (u_subscription_tier user)) "free" in
  [ (negb (Qltb (amount order) (MIN_TRADE_AMOUNT cfg)), MinimumTradeAmount (MIN_TRADE_AMOUNT cfg));
    (negb (Qltb (MAX_TRADE_AMOUNT cfg) (amount order)), MaximumTradeAmount (MAX_TRADE_AMOUNT cfg));
    (negb (Qltb user_max (amount order)), ExceedsUserLimit user_max);
    (validate_address (input_token order), InvalidInputToken);
    (validate_address (output_token order), InvalidOutputToken);
    (negb (Qltb (slippage order) (1 # 10) || Qltb 50 (slippage order)), SlippageOutOfRange);
    (negb (free && TradeType_eqb (trade_type order) COPY_TRADE), CopyTradingRequiresPremium);
    (negb (free && TradeType_eqb (trade_type order) SNIPE), SnipeRequiresPremium) ].

(** The checks in the order the source performs them, for a known user. *)
Definition code_checks (user : user_doc) (order : TradeOrder) : list (bool * reason) :=
  let user_max := dflt (MAX_TRADE_AMOUNT cfg) (u_max_trade_amount user) in
  let free := String.eqb (dflt "free"%string (u_subscription_tier user)) "free" in
  [ (negb (free && TradeType_eqb (trade_type order) COPY_TRADE), CopyTradingRequiresPremium);
    (negb (Qltb (amount order) (MIN_TRADE_AMOUNT cfg)), MinimumTradeAmount (MIN_TRADE_AMOUNT cfg));
    (negb (Qltb (MAX_TRADE_AMOUNT cfg) (amount order)), MaximumTradeAmount (MAX_TRADE_AMOUNT cfg));
    (negb (Qltb user_max (amount order)), ExceedsUserLimit user_max);
    (validate_address (input_token order), InvalidInputToken);
    (validate_address (output_token order), InvalidOutputToken);
    (negb (Qltb (slippage order) (1 # 10) || Qltb 50 (slippage order)), SlippageOutOfRange) ].

End Validate.

End Validator.


(* ================================================================== *)
(** ** The document store *)

(** Values of the [_id] key.  MongoDB compares them by type and by value: a
    Python [str] never equals an [ObjectId], even one it is the hexadecimal
    rendering of.  [insert_one] on a document without [_id] generates an
    [ObjectId]; the source converts with [ObjectId(trade_id)] in
    [update_trade_status], [update_trade_stop_loss_triggered] and
    [update_snipe_order], and filters on the bare string in
    [update_order_status] and [cancel_user_order].  ([ObjectId(s)] raises on a
    malformed [s]; identifiers are taken well-formed here.) *)
Inductive bson_id : Type :=
| ObjectId (hex : string)
| BsonStr (s : string).

Definition bson_id_eqb (a b : bson_id) : bool :=
  match a, b with
  | ObjectId x, ObjectId y => String.eqb x y
  | BsonStr x, BsonStr y => String.eqb x y
  | _, _ => false
  end.

(** [str(order['_id'])] *)
Definition py_str (i : bson_id) : string :=
  match i with ObjectId h => h | BsonStr s => s end.

Definition opt_string_eqb (a b : option string) : bool :=
  match a, b with
  | Some x, Some y => String.eqb x y
  | None, None => true
  | _, _ => false
  end.

(** A document of the [trades] collection. *)
Record trade_doc : Type := mk_trade {
  t_id : bson_id;
  t_user_id : Z;
  t_trade_type : string;
  t_input_token : option string;
  t_output_token : option string;
  t_amount : option Q;               (* amount / amount_sol / amount_tokens *)
  t_output_amount : option Q;
  t_status : string;
  t_signature : option string;
  t_stop_loss : option Q;
  t_entry_price : option Q;
  t_stop_loss_triggered : bool;      (* a missing key reads as not triggered *)
  t_stop_loss_price : option Q;
  t_created_at : Z;
  t_updated_at : option Z;
  t_price : option Q;                (* the keys below are those of an order *)
  t_slippage : option Q;
  t_take_profit : option Q;
  t_expires_at : option Z;
  t_copy_wallet : option string
}.

(** A document of the [orders] collection (limit orders). *)
Record order_doc : Type := mk_order {
  o_id : bson_id;
  o_user_id : Z;
  o_trade_type : option string;
  o_input_token : option string;
  o_output_token : option string;
  o_amount_sol : option Q;
  o_amount_tokens : option Q;
  o_price : option Q;
  o_expires_at : option Z;
  o_status : string;
  o_created_at : Z;
  o_execution_price : option Q
}.

(** The origin of a call to [execute_market_buy] or [execute_market_sell]:
    which order, trade or observed transaction the caller was working on.
    It is bookkeeping of the model, written into the trace so that calls can
    be counted per order; the code does not pass it. *)
Inductive origin : Type :=
| Direct
| ActiveOrder (order_id : string)
| LimitOrder (order_id : string)
| StopLoss (trade_id : bson_id)
| CopyTrade (wallet signature : string) (subscriber : Z)
| SnipeOrder (snipe_id : bson_id).

Definition origin_eqb (a b : origin) : bool :=
  match a, b with
  | Direct, Direct => true
  | ActiveOrder x, ActiveOrder y => String.eqb x y
  | LimitOrder x, LimitOrder y => String.eqb x y
  | StopLoss x, StopLoss y => bson_id_eqb x y
  | CopyTrade w s u, CopyTrade w' s' u' => String.eqb w w' && String.eqb s s' && Z.eqb u u'
  | SnipeOrder x, SnipeOrder y => bson_id_eqb x y
  | _, _ => false
  end.

Inductive side : Type := Buy | Sell.

(** What the engine does that the outside can see. *)
Inductive event : Type :=
| ev_submit (o : origin) (s : side) (user : Z) (token : string) (amt : Q)
    (* execute_market_buy / execute_market_sell entered *)
| ev_swap (o : origin) (input_mint output_mint : string) (amt slip : Q) (ok : bool)
    (* solana.execute_swap called; [ok] is the venue's answer *)
| ev_alert (user : Z) (kind : string)
    (* an alert handed to the AlertManager *).

(** The answer of [solana.execute_swap]. *)
Record swap_result : Type := mk_swap_result {
  sr_success : bool;
  sr_signature : option string;
  sr_output_amount : option Q;
  sr_price_impact : option Q;
  sr_error : option string
}.

(** A parsed transaction of a watched wallet, as [solana.get_wallet_transactions]
    returns it; [tx_signature] is the source transaction reference. *)
Record tx_info : Type := mk_tx {
  tx_signature : string;
  tx_block_time : option Z;
  tx_type : option string;
  tx_amount : option Q;
  tx_amount_usd : option Q;
  tx_input_token : option string;
  tx_output_token : option string;
  tx_detected_trade_type : option string
}.

(** The outside world.  Every answer may change from one request to the next:
    the oracles take the clock of the world, which advances as requests are
    answered. *)
Record env : Type := mk_env {
  get_token_price : nat -> string -> Q;         (* price_data.get('price', 0); 0 = no price *)
  execute_swap : nat -> string -> string -> Q -> Q -> swap_result;
  new_object_id : nat -> string;                (* the driver's fresh ObjectId *)
  utcnow : nat -> Z;
  get_user : Z -> option user_doc;
  get_wallet_transactions : nat -> string -> list tx_info
}.

(** Per-subscriber settings of a copy-trading subscription. *)
Record copy_settings : Type := mk_copy_settings {
  cs_enabled : option bool;
  cs_copy_percentage : option Q;
  cs_max_copy_amount : option Q;
  cs_min_trade_amount : option Q;
  cs_copy_delay : option Q;
  cs_risk_level : option string
}.

(** A document of the [copy_trading_subscriptions] collection. *)
Record subscription_doc : Type := mk_subscription {
  sub_user_id : Z;
  sub_wallet_address : string;
  sub_copy_settings : option copy_settings;
  sub_created_at : Z;
  sub_is_active : bool
}.

Record world : Type := mk_world {
  w_trades : list trade_doc;
  w_orders : list order_doc;
  w_subs : list subscription_doc;
  w_trace : list event;
  w_clock : nat
}.

Definition set_trades (w : world) (ts : list trade_doc) : world :=
  {| w_trades := ts; w_orders := w_orders w; w_subs := w_subs w;
     w_trace := w_trace w; w_clock := w_clock w |}.

Definition set_orders (w : world) (os : list order_doc) : world :=
  {| w_trades := w_trades w; w_orders := os; w_subs := w_subs w;
     w_trace := w_trace w; w_clock := w_clock w |}.

Definition set_subs (w : world) (ss : list subscription_doc) : world :=
  {| w_trades := w_trades w; w_orders := w_orders w; w_subs := ss;
     w_trace := w_trace w; w_clock := w_clock w |}.

Definition emit (w : world) (e : event) : world :=
  {| w_trades := w_trades w; w_orders := w_orders w; w_subs := w_subs w;
     w_trace := w_trace w ++ [e]; w_clock := w_clock w |}.

(** One request to the outside has been answered. *)
Definition step (w : world) : world :=
  {| w_trades := w_trades w; w_orders := w_orders w; w_subs := w_subs w;
     w_trace := w_trace w; w_clock := S (w_clock w) |}.

(** [db.store_trade]: [insert_one] of a document without [_id].  The insert is
    refused (and [store_trade] returns [False]) on a duplicate [_id] or on a
    duplicate of the uniquely indexed [signature]. *)
Definition store_trade (e : env) (w : world) (doc : bson_id -> Z -> trade_doc)
  : world * bool :=
  let d := doc (ObjectId (new_object_id e (w_clock w))) (utcnow e (w_clock w)) in
  if existsb (fun x => bson_id_eqb (t_id x) (t_id d)
                       || opt_string_eqb (t_signature x) (t_signature d)) (w_trades w)
  then (step w, false)
  else (step (set_trades w (w_trades w ++ [d])), true).

(** [update_one({'_id': i}, {'$set': ...})] on [trades]. *)
Definition update_trade (i : bson_id) (f : trade_doc -> trade_doc) (ts : list trade_doc)
  : list trade_doc :=
  map (fun d => if bson_id_eqb (t_id d) i then f d else d) ts.

Definition update_order (i : bson_id) (f : order_doc -> order_doc) (os : list order_doc)
  : list order_doc :=
  map (fun d => if bson_id_eqb (o_id d) i then f d else d) os.

(** The keys of [result_data] that the engine reads back later. *)
Record result_data : Type := mk_result_data {
  rd_signature : option string;
  rd_output_amount : option Q
}.

Definition no_data : result_data :=
  {| rd_signature := None; rd_output_amount := None |}.

Definition over_key {A : Type} (old new : option A) : option A :=
  match new with Some _ => new | None => old end.

Definition set_trade_status (s : string) (rd : result_data) (now : Z) (d : trade_doc)
  : trade_doc :=
  {| t_id := t_id d; t_user_id := t_user_id d; t_trade_type := t_trade_type d;
     t_input_token := t_input_token d; t_output_token := t_output_token d;
     t_amount := t_amount d;
     t_output_amount := over_key (t_output_amount d) (rd_output_amount rd);
     t_status := s;
     t_signature := over_key (t_signature d) (rd_signature rd);
     t_stop_loss := t_stop_loss d;
     t_entry_price := t_entry_price d;
     t_stop_loss_triggered := t_stop_loss_triggered d;
     t_stop_loss_price := t_stop_loss_price d;
     t_created_at := t_created_at d; t_updated_at := Some now;
     t_price := t_price d; t_slippage := t_slippage d;
     t_take_profit := t_take_profit d; t_expires_at := t_expires_at d;
     t_copy_wallet := t_copy_wallet d |}.

(** The index on [signature] is unique: a write that would give the trade
    [i] a signature another trade carries is refused. *)
Definition signature_taken (i : bson_id) (sig : string) (ts : list trade_doc) : bool :=
  existsb (fun d => negb (bson_id_eqb (t_id d) i)
                    && opt_string_eqb (t_signature d) (Some sig)) ts.

(** [db.update_trade_status(trade_id, status, result_data)]: the filter is
    [{'_id': ObjectId(trade_id)}]; returns [modified_count > 0].  When the
    index refuses the write, [update_one] raises, nothing is written and the
    handler returns [False]. *)
Definition update_trade_status (e : env) (w : world) (trade_id : string) (s : string)
  (rd : result_data) : world * bool :=
  let i := ObjectId trade_id in
  let found := existsb (fun d => bson_id_eqb (t_id d) i) (w_trades w) in
  let refused :=
    match rd_signature rd with
    | Some sig => found && signature_taken i sig (w_trades w)
    | None => false
    end in
  if refused then (step w, false)
  else
    (step (set_trades w (update_trade i (set_trade_status s rd (utcnow e (w_clock w)))
                           (w_trades w))),
     found).

Definition set_order_status (s : string) (px : option Q) (d : order_doc) : order_doc :=
  {| o_id := o_id d; o_user_id := o_user_id d; o_trade_type := o_trade_type d;
     o_input_token := o_input_token d; o_output_token := o_output_token d;
     o_amount_sol := o_amount_sol d; o_amount_tokens := o_amount_tokens d;
     o_price := o_price d; o_expires_at := o_expires_at d;
     o_status := s; o_created_at := o_created_at d;
     o_execution_price := match px with Some p => Some p | None => o_execution_price d end |}.

(** [db.update_order_status(order_id, status, result_data)]: the filter is
    [{'_id': order_id}] with the string itself; always returns [True]. *)
Definition update_order_status (w : world) (order_id : string) (s : string) (px : option Q)
  : world * bool :=
  (step (set_orders w (update_order (BsonStr order_id) (set_order_status s px) (w_orders w))),
   true).

Definition set_stop_loss_triggered (px : Q) (d : trade_doc) : trade_doc :=
  {| t_id := t_id d; t_user_id := t_user_id d; t_trade_type := t_trade_type d;
     t_input_token := t_input_token d; t_output_token := t_output_token d;
     t_amount := t_amount d; t_output_amount := t_output_amount d;
     t_status := t_status d; t_signature := t_signature d; t_stop_loss := t_stop_loss d;
     t_entry_price := t_entry_price d;
     t_stop_loss_triggered := true;
     t_stop_loss_price := Some px;
     t_created_at := t_created_at d; t_updated_at := t_updated_at d;
     t_price := t_price d; t_slippage := t_slippage d;
     t_take_profit := t_take_profit d; t_expires_at := t_expires_at d;
     t_copy_wallet := t_copy_wallet d |}.

(** [db.update_trade_stop_loss_triggered(trade_id, data)]: the filter is
    [{'_id': ObjectId(trade_id)}]. *)
Definition update_trade_stop_loss_triggered (w : world) (trade_id : string) (px : Q)
  : world * bool :=
  let i := ObjectId trade_id in
  (step (set_trades w (update_trade i (set_stop_loss_triggered px) (w_trades w))),
   existsb (fun d => bson_id_eqb (t_id d) i) (w_trades w)).

(* ================================================================== *)
(** ** Market execution ([execute_market_buy], [execute_market_sell]) *)

(** The dictionary both functions return, as far as callers read it.  (The
    source formats the bounds into the two messages of a refused amount.) *)
Record exec_result : Type := mk_exec_result {
  r_success : bool;
  r_signature : option string;
  r_error : option string
}.

Definition failure (msg : string) : exec_result :=
  {| r_success := false; r_signature := None; r_error := Some msg |}.

(** [self.payment] is a payment service, not [None]. *)
Definition has_payment (payment : option string) : bool :=
  match payment with Some _ => true | None => false end.

Section Market.

Variable cfg : config.
(** [self.payment]: the payment service the engine was constructed with;
    [None] is Python's [None]. *)
Variable payment : option string.
Variable e : env.

(** The last steps of a market order whose swap was executed and stored:
    the fee deduction is a method call on [self.payment].  On [None] it
    raises [AttributeError], and the handler of the function answers with
    the failure; otherwise the outcome of the deduction is only logged. *)
Definition deduct_fee_and_answer (res : swap_result) (w : world) : world * exec_result :=
  match payment with
  | Some _ =>
    (step w, {| r_success := true; r_signature := sr_signature res; r_error := None |})
  | None =>
    (w, failure "'NoneType' object has no attribute 'process_automatic_fee_deduction'")
  end.

Definition execute_market_buy (o : origin) (user : Z) (token_address : string)
  (amount_sol : Q) (w : world) : world * exec_result :=
  let w := emit w (ev_submit o Buy user token_address amount_sol) in
  if Qltb amount_sol (MIN_TRADE_AMOUNT cfg) || Qltb (MAX_TRADE_AMOUNT cfg) amount_sol
  then (w, failure "Amount must be between the minimum and maximum trade amount")
  else
    let max_amount :=
      match get_user e user with
      | Some u => dflt (MAX_TRADE_AMOUNT cfg) (u_trading_max_amount u)
      | None => MAX_TRADE_AMOUNT cfg
      end in
    if Qltb max_amount amount_sol
    then (w, failure "Amount exceeds your maximum trade limit")
    else
      let res := execute_swap e (w_clock w) SOL_MINT token_address amount_sol
                   (DEFAULT_SLIPPAGE cfg) in
      let w := step (emit w (ev_swap o SOL_MINT token_address amount_sol
                               (DEFAULT_SLIPPAGE cfg) (sr_success res))) in
      if sr_success res then
        let '(w, _) := store_trade e w (fun i now =>
          {| t_id := i; t_user_id := user; t_trade_type := "market_buy";
             t_input_token := Some "SOL"%string; t_output_token := Some token_address;
             t_amount := Some amount_sol; t_output_amount := None;
             t_status := "completed"; t_signature := sr_signature res;
             t_stop_loss := None; t_entry_price := None;
             t_stop_loss_triggered := false; t_stop_loss_price := None;
             t_created_at := now; t_updated_at := None;
             t_price := None; t_slippage := None; t_take_profit := None;
             t_expires_at := None; t_copy_wallet := None |}) in
        deduct_fee_and_answer res w
      else
        (w, failure (dflt "Unknown error"%string (sr_error res))).

Definition execute_market_sell (o : origin) (user : Z) (token_address : string)
  (amount_tokens : Q) (w : world) : world * exec_result :=
  let w := emit w (ev_submit o Sell user token_address amount_tokens) in
  let res := execute_swap e (w_clock w) token_address SOL_MINT amount_tokens
               (DEFAULT_SLIPPAGE cfg) in
  let w := step (emit w (ev_swap o token_address SOL_MINT amount_tokens
                           (DEFAULT_SLIPPAGE cfg) (sr_success res))) in
  if sr_success res then
    let '(w, _) := store_trade e w (fun i now =>
      {| t_id := i; t_user_id := user; t_trade_type := "market_sell";
         t_input_token := Some token_address; t_output_token := Some "SOL"%string;
         t_amount := Some amount_tokens; t_output_amount := None;
         t_status := "completed"; t_signature := sr_signature res;
         t_stop_loss := None; t_entry_price := None;
         t_stop_loss_triggered := false; t_stop_loss_price := None;
         t_created_at := now; t_updated_at := None;
         t_price := None; t_slippage := None; t_take_profit := None;
         t_expires_at := None; t_copy_wallet := None |}) in
    deduct_fee_and_answer res w
  else
    (w, failure (dflt "Unknown error"%string (sr_error res))).

(** [self.active_orders]: a dictionary from order id to order. *)
Definition active_orders : Type := list (string * TradeOrder).

(** [if order_id in self.active_orders: del self.active_orders[order_id]] *)
Definition del (order_id : string) (a : active_orders) : active_orders :=
  filter (fun kv => negb (String.eqb (fst kv) order_id)) a.

(** [_execute_market_order]: the status is written as executing whatever it
    was, then the venue is called.  Reading a key the venue's answer lacks
    raises [KeyError]; the handler marks the order failed. *)
Definition _execute_market_order (order_id : string) (order : TradeOrder)
  (a : active_orders) (w : world) : world * active_orders :=
  let '(w, _) := update_trade_status e w order_id (status_value EXECUTING) no_data in
  let res := execute_swap e (w_clock w) (input_token order) (output_token order)
               (amount order) (slippage order) in
  let w := step (emit w (ev_swap (ActiveOrder order_id) (input_token order)
                           (output_token order) (amount order) (slippage order)
                           (sr_success res))) in
  let failed (w : world) :=
    fst (update_trade_status e w order_id (status_value FAILED) no_data) in
  if sr_success res then
    match sr_signature res, sr_output_amount res, sr_price_impact res with
    | Some sig, Some out, Some _ =>
      let '(w, _) :=
        update_trade_status e w order_id (status_value COMPLETED)
          {| rd_signature := Some sig; rd_output_amount := Some out |} in
      (emit w (ev_alert (user_id order) "trade_completed"), del order_id a)
    | _, _, _ => (failed w, del order_id a)
    end
  else
    match sr_error res with
    | Some _ => (emit (failed w) (ev_alert (user_id order) "trade_failed"), del order_id a)
    | None => (failed w, del order_id a)
    end.

End Market.

(* ================================================================== *)
(** ** Limit orders ([_monitor_limit_orders], [_check_limit_order]) *)

Module LimitMonitor.

Section Limit.

Variable cfg : config.
Variable payment : option string.
Variable e : env.

(** A missing key read with [order['k']] raises [KeyError]; the handler
    around the whole body logs it and returns, keeping what was done so
    far.  Those are the [None] branches below. *)
Definition _check_limit_order (order_id : string) (order : order_doc) (w : world)
  : world :=
  match o_output_token order with
  | None => w
  | Some out_token =>
    let current_price := get_token_price e (w_clock w) out_token in
    let w := step w in
    if Qeq_bool current_price 0 then w
    else
      let order_type := dflt "limit_buy"%string (o_trade_type order) in
      let limit_price := dflt 0 (o_price order) in
      let should_execute :=
        if String.eqb order_type "limit_buy" && Qltb 0 limit_price
        then Qleb current_price limit_price
        else if String.eqb order_type "limit_sell" && Qltb 0 limit_price
        then Qleb limit_price current_price
        else false in
      if should_execute then
        let attempt :=
          if String.eqb order_type "limit_buy" then
            match o_amount_sol order with
            | Some amount_sol =>
              Some (execute_market_buy cfg payment e (LimitOrder order_id)
                      (o_user_id order) out_token amount_sol w)
            | None => None
            end
          else
            match o_input_token order, o_amount_tokens order with
            | Some in_token, Some amount_tokens =>
              Some (execute_market_sell cfg payment e (LimitOrder order_id)
                      (o_user_id order) in_token amount_tokens w)
            | _, _ => None
            end in
        match attempt with
        | None => w
        | Some (w, result) =>
          if r_success result then
            let '(w, _) := update_order_status w order_id "completed" (Some current_price) in
            emit w (ev_alert (o_user_id order) "limit_order")
          else
            fst (update_order_status w order_id "failed" None)
        end
      else w
  end.

(** [sort('created_at', -1)]: newest first. *)
Fixpoint insert_desc (d : order_doc) (l : list order_doc) : list order_doc :=
  match l with
  | [] => [d]
  | x :: r => if Z.ltb (o_created_at x) (o_created_at d) then d :: l
              else x :: insert_desc d r
  end.

Definition sort_desc (l : list order_doc) : list order_doc :=
  fold_right insert_desc [] l.

(** [db.get_all_pending_orders(status='pending')]: at most 100 documents. *)
Definition get_all_pending_orders (w : world) : list order_doc :=
  firstn 100 (sort_desc (filter (fun d => String.eqb (o_status d) "pending") (w_orders w))).

(** One round of the [while] loop of [_monitor_limit_orders]: the pending
    orders are read once, then checked one after the other. *)
Definition _monitor_limit_orders (w : world) : world :=
  let limit_orders := get_all_pending_orders w in
  fold_left (fun w order => _check_limit_order (py_str (o_id order)) order w)
            limit_orders (step w).

End Limit.

(** Successive rounds, each against the outside world of its time. *)
Fixpoint run_rounds (cfg : config) (payment : option string) (es : list env) (w : world)
  : world :=
  match es with
  | [] => w
  | e :: rest => run_rounds cfg payment rest (_monitor_limit_orders cfg payment e w)
  end.

Definition with_expiry (d : order_doc) (expiry : option Z) : order_doc :=
  {| o_id := o_id d; o_user_id := o_user_id d; o_trade_type := o_trade_type d;
     o_input_token := o_input_token d; o_output_token := o_output_token d;
     o_amount_sol := o_amount_sol d; o_amount_tokens := o_amount_tokens d;
     o_price := o_price d; o_expires_at := expiry;
     o_status := o_status d; o_created_at := o_created_at d;
     o_execution_price := o_execution_price d |}.

(** Calls of the venue's swap made on behalf of an order. *)
Definition swaps_of (o : origin) (tr : list event) : nat :=
  List.length (filter (fun ev => match ev with
                                 | ev_swap o' _ _ _ _ _ => origin_eqb o o'
                                 | _ => false
                                 end) tr).

End LimitMonitor.

(* ================================================================== *)
(** ** Stop losses ([_monitor_stop_losses], [_check_stop_loss],
       [_execute_stop_loss]) *)

Module StopLossMonitor.

Section Stop.

Variable cfg : config.
Variable payment : option string.
Variable e : env.

(** [db.get_completed_trades_with_stop_loss]: completed, a stop loss that
    exists, is not null and is positive, and not flagged as triggered. *)
Definition has_stop_loss (d : trade_doc) : bool :=
  String.eqb (t_status d) "completed"
  && match t_stop_loss d with Some sl => Qltb 0 sl | None => false end.

Definition get_completed_trades_with_stop_loss (w : world) : list trade_doc :=
  filter (fun d => has_stop_loss d && negb (t_stop_loss_triggered d)) (w_trades w).

Definition _execute_stop_loss (trade : trade_doc) (current_price : Q) (w : world)
  : world :=
  let token_amount := dflt 0 (t_output_amount trade) in
  if Qleb token_amount 0 then w
  else
    match t_output_token trade with
    | None => w   (* not reached from [_check_stop_loss], which returns first *)
    | Some token_address =>
      let '(w, result) :=
        execute_market_sell cfg payment e (StopLoss (t_id trade)) (t_user_id trade)
          token_address token_amount w in
      if r_success result then
        let '(w, _) :=
          update_trade_stop_loss_triggered w (py_str (t_id trade)) current_price in
        emit w (ev_alert (t_user_id trade) "stop_loss")
      else w
    end.

(** The percentage the source computes, [((current - entry) / entry) * 100],
    in binary64. *)
Definition price_change_pct (current_price entry_price : Q) : Binary64.float :=
  Binary64.mul
    (Binary64.div
       (Binary64.sub (Binary64.of_Q current_price) (Binary64.of_Q entry_price))
       (Binary64.of_Q entry_price))
    (Binary64.of_Z 100).

Definition _check_stop_loss (trade : trade_doc) (w : world) : world :=
  if negb (truthy_str (t_output_token trade)) then w
  else
    let current_price :=
      get_token_price e (w_clock w) (dflt EmptyString (t_output_token trade)) in
    let w := step w in
    if Qeq_bool current_price 0 then w
    else
      let entry_price := dflt 0 (t_entry_price trade) in
      if Qeq_bool entry_price 0 then w
      else
        let stop_loss_pct := dflt 0 (t_stop_loss trade) in
        if Qeq_bool stop_loss_pct 0 then w
        else if Binary64.leb (price_change_pct current_price entry_price)
                             (Binary64.opp (Binary64.of_Q stop_loss_pct))
        then _execute_stop_loss trade current_price w
        else w.

(** One round of the [while] loop of [_monitor_stop_losses]. *)
Definition _monitor_stop_losses (w : world) : world :=
  let completed_trades := get_completed_trades_with_stop_loss w in
  fold_left (fun w trade => _check_stop_loss trade w) completed_trades (step w).

End Stop.

Fixpoint run_rounds (cfg : config) (payment : option string) (es : list env) (w : world)
  : world :=
  match es with
  | [] => w
  | e :: rest => run_rounds cfg payment rest (_monitor_stop_losses cfg payment e w)
  end.

(** The forced sells submitted for a trade, and those the venue executed. *)
Definition is_forced_sell (i : bson_id) (ev : event) : bool :=
  match ev with
  | ev_submit (StopLoss j) Sell _ _ _ => bson_id_eqb i j
  | _ => false
  end.

Definition is_executed_sell (i : bson_id) (ev : event) : bool :=
  match ev with
  | ev_swap (StopLoss j) _ _ _ _ true => bson_id_eqb i j
  | _ => false
  end.

Definition forced_sells (i : bson_id) (tr : list event) : nat :=
  List.length (filter (is_forced_sell i) tr).

Definition executed_sells (i : bson_id) (tr : list event) : nat :=
  List.length (filter (is_executed_sell i) tr).

(** The identifiers of the stored trades. *)
Definition ids (w : world) : list bson_id := map t_id (w_trades w).

(** The store is well formed when identifiers are unique and the trades that
    carry a stop loss have the [ObjectId] that [insert_one] gave them. *)
Definition well_formed (w : world) : Prop :=
  NoDup (ids w)
  /\ forall x, In x (w_trades w) -> has_stop_loss x = true ->
               exists h, t_id x = ObjectId h.

(** The executed sells of the trace are accounted for in the store: at most
    one per trade, only for trades of the store, and the trade is flagged. *)
Definition sells_accounted (w : world) : Prop :=
  (forall i, (executed_sells i (w_trace w) <= 1)%nat)
  /\ (forall i, (1 <= executed_sells i (w_trace w))%nat -> In i (ids w))
  /\ (forall x, In x (w_trades w) -> (1 <= executed_sells (t_id x) (w_trace w))%nat ->
                t_stop_loss_triggered x = true).

(** What checking the trade [d] may change between [w] and [w']; [ok] tells
    whether a forced sell of [d] was executed. *)
Definition effect (ok : bool) (d : trade_doc) (w w' : world) : Prop :=
  (forall i, executed_sells i (w_trace w') =
             (executed_sells i (w_trace w)
              + (if ok && bson_id_eqb i (t_id d) then 1 else 0))%nat)
  /\ (NoDup (ids w) -> NoDup (ids w'))
  /\ incl (ids w) (ids w')
  /\ (forall x, In x (w_trades w') -> has_stop_loss x = true ->
        exists x0, In x0 (w_trades w) /\ t_id x0 = t_id x /\ has_stop_loss x0 = true)
  /\ (ok = true -> forall x, In x (w_trades w') -> t_id x = t_id d ->
        t_stop_loss_triggered x = true)
  /\ (forall x, In x (w_trades w') -> In (t_id x) (ids w) ->
        exists x0, In x0 (w_trades w) /\ t_id x0 = t_id x
                   /\ (t_stop_loss_triggered x0 = true -> t_stop_loss_triggered x = true)).

(** The trades still to be checked in a round: distinct, in the store, with
    an [ObjectId], and without an executed sell so far. *)
Definition pending_checks (l : list trade_doc) (w : world) : Prop :=
  NoDup (map t_id l)
  /\ forall d, In d l ->
       executed_sells (t_id d) (w_trace w) = 0%nat
       /\ In (t_id d) (ids w)
       /\ exists h, t_id d = ObjectId h.

(** The drawdown of the specification, [(entry - current) / entry * 100],
    computed in binary64 as the source computes the price change. *)
Definition drawdown (entry_price current_price : Q) : Binary64.float :=
  Binary64.mul
    (Binary64.div
       (Binary64.sub (Binary64.of_Q entry_price) (Binary64.of_Q current_price))
       (Binary64.of_Q entry_price))
    (Binary64.of_Z 100).

End StopLossMonitor.

(* ================================================================== *)
(** ** Snipe allocations ([create_snipe_order], [execute_snipe_trade]) *)

Module Snipe.

Record executed_trade : Type := mk_executed {
  et_token_address : string;
  et_amount : Q;
  et_signature : option string;
  et_price_at_execution : Q
}.

(** The snipe-order dictionary.  [execute_snipe_trade] updates it in place;
    the model returns the updated dictionary. *)
Record snipe_order : Type := mk_snipe {
  so_id : bson_id;
  so_user_id : Z;
  so_max_amount : Q;
  so_slippage : Q;
  so_status : string;
  so_executed_trades : list executed_trade;
  so_total_spent : Q
}.

(** The configuration [create_snipe_order] receives; a missing required
    field is [None]. *)
Record snipe_config : Type := mk_snipe_config {
  sc_max_amount : option Q;
  sc_slippage : option Q;
  sc_take_profit : option Q;
  sc_stop_loss : option Q
}.

(** [create_snipe_order]: the document handed to [db.store_snipe_order], or
    the reason for refusing the configuration. *)
Definition create_snipe_order (new_id : bson_id) (user : Z) (c : snipe_config)
  : snipe_order + string :=
  match sc_max_amount c, sc_slippage c, sc_take_profit c, sc_stop_loss c with
  | Some max_amount, Some slip, Some _, Some _ =>
    if Qltb max_amount (1 # 100) || Qltb 10 max_amount
    then inr "Max amount must be between 0.01 and 10.0 SOL"%string
    else inl {| so_id := new_id; so_user_id := user; so_max_amount := max_amount;
                so_slippage := slip; so_status := "active";
                so_executed_trades := []; so_total_spent := 0 |}
  | None, _, _, _ => inr "Missing required field: max_amount"%string
  | _, None, _, _ => inr "Missing required field: slippage"%string
  | _, _, None, _ => inr "Missing required field: take_profit"%string
  | _, _, _, None => inr "Missing required field: stop_loss"%string
  end.

Section Snipe.

Variable cfg : config.
Variable payment : option string.
Variable e : env.

Definition execute_snipe_trade (so : snipe_order) (token_address : string) (w : world)
  : world * snipe_order * exec_result :=
  let max_amount := so_max_amount so in
  if Qleb max_amount (so_total_spent so)
  then (w, so, failure "Max amount already spent")
  else
    let remaining_amount := max_amount - so_total_spent so in
    let trade_amount := py_min remaining_amount (max_amount * (2 # 10)) in
    if Qltb trade_amount (1 # 100)
    then (w, so, failure "Insufficient remaining amount")
    else
      let '(w, result) :=
        execute_market_buy cfg payment e (SnipeOrder (so_id so)) (so_user_id so)
          token_address trade_amount w in
      if r_success result then
        let px := get_token_price e (w_clock w) token_address in
        let w := step w in
        let so' :=
          {| so_id := so_id so; so_user_id := so_user_id so;
             so_max_amount := so_max_amount so; so_slippage := so_slippage so;
             so_status := so_status so;
             so_executed_trades :=
               so_executed_trades so ++
               [ {| et_token_address := token_address; et_amount := trade_amount;
                    et_signature := r_signature result;
                    et_price_at_execution := px |} ];
             so_total_spent := so_total_spent so + trade_amount |} in
        (* db.update_snipe_order writes the two changed keys; then the alert *)
        let w := emit (step w) (ev_alert (so_user_id so) "snipe") in
        (w, so', {| r_success := true; r_signature := r_signature result;
                    r_error := None |})
      else (w, so, result).

End Snipe.

(** A sequence of calls on the same dictionary, each for its own token and
    against the outside world of its time. *)
Fixpoint run_snipes (cfg : config) (payment : option string)
  (calls : list (env * string)) (so : snipe_order) (w : world)
  : world * snipe_order :=
  match calls with
  | [] => (w, so)
  | (e, token) :: rest =>
    let '(w, so, _) := execute_snipe_trade cfg payment e so token w in
    run_snipes cfg payment rest so w
  end.

End Snipe.

(* ================================================================== *)
(** ** Wallet transactions ([solana_service.py]: [get_wallet_transactions],
       [_parse_transaction]) *)

Module Transactions.

(** What [_parse_transaction] reads of a transaction the RPC node returns. *)
Record tx_data : Type := mk_tx_data {
  td_signature : string;              (* transaction.signatures[0] *)
  td_block_time : option Z;
  td_balances : option (Z * Z);       (* the lamports of the wallet before and after,
                                         when the wallet is among the account keys *)
  td_token_change : bool              (* [_analyze_token_changes] found a balance
                                         of the wallet that changed *)
}.

(** [balance / 1e9] *)
Definition sol_of_lamports (balance : Z) : Binary64.float :=
  Binary64.div (Binary64.of_Z balance) (Binary64.of_Z 1000000000).

(** [_parse_transaction]: the dictionary has the keys [signature], [slot],
    [block_time], [success], [fee], [type], [amount], [token] and
    [counterparty], and no other. *)
Definition _parse_transaction (d : tx_data) : tx_info :=
  let '(ty, amt) :=
    match td_balances d with
    | Some (pre_balance, post_balance) =>
      let sol_change :=
        Binary64.sub (sol_of_lamports post_balance) (sol_of_lamports pre_balance) in
      (if Binary64.ltb (Binary64.of_Z 0) sol_change then "receive"%string
       else "send"%string,
       Binary64.to_Q (Binary64.abs sol_change))
    | None => ("unknown"%string, Some 0)
    end in
  {| tx_signature := td_signature d; tx_block_time := td_block_time d;
     tx_type := Some (if td_token_change d then "token_transfer"%string else ty);
     tx_amount := amt; tx_amount_usd := None;
     tx_input_token := None; tx_output_token := None;
     tx_detected_trade_type := None |}.


End Transactions.

(* ================================================================== *)
(** ** Copy trading ([_monitor_copy_trading], [_execute_copy_trades]) *)

Module CopyTrading.

(** [copy_amount] as computed for one subscriber, in binary64: the USD
    figure of the source trade is used when it is positive, the SOL amount
    otherwise. *)
Definition copy_amount (settings : copy_settings) (amount amount_usd : Q)
  : Binary64.float :=
  let copy_percentage :=
    Binary64.div (Binary64.of_Q (dflt 100 (cs_copy_percentage settings)))
                 (Binary64.of_Z 100) in
  let max_copy_amount := Binary64.of_Q (dflt 1 (cs_max_copy_amount settings)) in
  if Qltb 0 amount_usd
  then Binary64.div
         (Binary64.py_min (Binary64.mul (Binary64.of_Q amount_usd) copy_percentage)
                          (Binary64.mul max_copy_amount (Binary64.of_Z 100)))
         (Binary64.of_Z 100)
  else Binary64.py_min (Binary64.mul (Binary64.of_Q amount) copy_percentage)
                       max_copy_amount.

(** The amount of the child order: none when [copy_amount] is below 0.01.
    (Nor is there one, here, when [copy_amount] is not a finite number,
    which takes a source amount beyond the range of binary64.) *)
Definition child_amount (settings : copy_settings) (amount amount_usd : Q) : option Q :=
  let amt := copy_amount settings amount amount_usd in
  if Binary64.ltb amt (Binary64.of_Q (1 # 100)) then None else Binary64.to_Q amt.

Definition empty_settings : copy_settings :=
  {| cs_enabled := None; cs_copy_percentage := None; cs_max_copy_amount := None;
     cs_min_trade_amount := None; cs_copy_delay := None; cs_risk_level := None |}.

Section Copy.

Variable cfg : config.
Variable payment : option string.
Variable e : env.

(** [db.get_copy_trading_users] *)
Definition get_copy_trading_users (w : world) (wallet_address : string)
  : list subscription_doc :=
  filter (fun s => String.eqb (sub_wallet_address s) wallet_address && sub_is_active s)
         (w_subs w).

(** The body of the loop over the subscribers, for one of them. *)
Definition copy_for_user (wallet_address : string) (transaction : tx_info)
  (tx_type : string) (amount amount_usd : Q) (in_token out_token : string)
  (user_data : subscription_doc) (w : world) : world :=
  let user := sub_user_id user_data in
  let settings := dflt empty_settings (sub_copy_settings user_data) in
  if negb (dflt false (cs_enabled settings)) then w
  else
    match child_amount settings amount amount_usd with
    | None => w
    | Some amt =>
      let o := CopyTrade wallet_address (tx_signature transaction) user in
      let attempt :=
        if String.eqb tx_type "buy"
        then Some (execute_market_buy cfg payment e o user out_token amt w)
        else if String.eqb tx_type "sell"
        then Some (execute_market_sell cfg payment e o user in_token amt w)
        else if String.eqb tx_type "swap"
        then if String.eqb in_token SOL_MINT
             then Some (execute_market_buy cfg payment e o user out_token amt w)
             else Some (execute_market_sell cfg payment e o user in_token amt w)
        else None in
      match attempt with
      | None => w
      | Some (w, result) =>
        if r_success result
        then step (emit w (ev_alert user "copy_trade"))   (* alert, then the statistics *)
        else w
      end
    end.

Definition _execute_copy_trades (wallet_address : string) (transaction : tx_info)
  (w : world) : world :=
  let copy_users := get_copy_trading_users w wallet_address in
  let w := step w in
  match copy_users with
  | [] => w
  | _ =>
    let tx_type :=
      match tx_detected_trade_type transaction with
      | Some t => t
      | None => dflt "unknown"%string (tx_type transaction)
      end in
    let amount := dflt 0 (tx_amount transaction) in
    let amount_usd := dflt 0 (tx_amount_usd transaction) in
    if Qltb amount (1 # 10) && Qltb amount_usd 100 then w
    else
      if negb (truthy_str (tx_input_token transaction))
         || negb (truthy_str (tx_output_token transaction))
      then w
      else
        fold_left
          (fun w user_data =>
             copy_for_user wallet_address transaction tx_type amount amount_usd
               (dflt EmptyString (tx_input_token transaction))
               (dflt EmptyString (tx_output_token transaction)) user_data w)
          copy_users w
  end.

Definition set_detected (t : tx_info) (d : string) : tx_info :=
  {| tx_signature := tx_signature t; tx_block_time := tx_block_time t;
     tx_type := tx_type t; tx_amount := tx_amount t; tx_amount_usd := tx_amount_usd t;
     tx_input_token := tx_input_token t; tx_output_token := tx_output_token t;
     tx_detected_trade_type := Some d |}.

(** The body of the loop over the recent transactions of a wallet. *)
Definition check_transaction (wallet_address : string) (t : tx_info) (w : world)
  : world :=
  let too_old :=
    match tx_block_time t with
    | Some bt => negb (Z.eqb bt 0) && Z.ltb 300 (utcnow e (w_clock w) - bt)
    | None => false
    end in
  if too_old then w
  else
    let ty := dflt "unknown"%string (tx_type t) in
    let amount := dflt 0 (tx_amount t) in
    let amount_usd := dflt 0 (tx_amount_usd t) in
    let detected :=
      if String.eqb ty "receive" && Qltb (1 # 10) amount then Some "buy"%string
      else if String.eqb ty "send" && Qltb (1 # 10) amount then Some "sell"%string
      else if Qltb 100 amount_usd then Some "swap"%string
      else None in
    match detected with
    | Some d => _execute_copy_trades wallet_address (set_detected t d) w
    | None => w
    end.

(** A Python [set] of strings, as the list of its members. *)
Fixpoint set_of (l : list string) : list string :=
  match l with
  | [] => []
  | x :: r => if existsb (String.eqb x) r then set_of r else x :: set_of r
  end.

Definition check_wallet (w : world) (wallet_address : string) : world :=
  let recent_txs := get_wallet_transactions e (w_clock w) wallet_address in
  fold_left (fun w t => check_transaction wallet_address t w) recent_txs (step w).

(** One round of the [while] loop of [_monitor_copy_trading];
    [subscriptions] is [self.copy_trading_subscriptions]. *)
Definition _monitor_copy_trading (subscriptions : list (Z * list string)) (w : world)
  : world :=
  match subscriptions with
  | [] => w
  | _ =>
    let monitored_wallets := set_of (List.concat (map snd subscriptions)) in
    fold_left check_wallet monitored_wallets w
  end.

End Copy.

(** The kinds of source trade the relay mirrors. *)
Definition mirrored (ty : string) : bool :=
  String.eqb ty "buy" || String.eqb ty "sell" || String.eqb ty "swap".

(** Whether the relay submits a child order to a subscriber, given the kind
    and the sizes of the source trade. *)
Definition submits (ty : string) (amount amount_usd : Q) (user_data : subscription_doc)
  : bool :=
  let settings := dflt empty_settings (sub_copy_settings user_data) in
  dflt false (cs_enabled settings)
  && (match child_amount settings amount amount_usd with Some _ => true | None => false end)
  && mirrored ty.

(** Successive rounds of the monitor. *)
Fixpoint run_rounds (cfg : config) (payment : option string) (es : list env)
  (subscriptions : list (Z * list string)) (w : world) : world :=
  match es with
  | [] => w
  | e :: rest =>
    run_rounds cfg payment rest subscriptions (_monitor_copy_trading cfg payment e subscriptions w)
  end.

(** Child orders submitted to a subscriber for a source transaction seen on
    a wallet. *)
Definition is_relay (wallet signature : string) (user : Z) (ev : event) : bool :=
  match ev with
  | ev_submit o _ _ _ _ => origin_eqb (CopyTrade wallet signature user) o
  | _ => false
  end.

Definition relays (wallet signature : string) (user : Z) (tr : list event) : nat :=
  List.length (filter (is_relay wallet signature user) tr).

(** The amount of the child order submitted to a subscriber, if any. *)
Definition relayed_amounts (wallet signature : string) (user : Z) (tr : list event)
  : list Q :=
  flat_map (fun ev => match ev with
                      | ev_submit o _ _ _ a =>
                        if origin_eqb (CopyTrade wallet signature user) o then [a] else []
                      | _ => []
                      end) tr.

(** The trace of a market order submitted by the relay: the submission,
    then events that are not submissions. *)
Definition submission_then_calls (o : origin) (user : Z) (amt : Q) (tr tr' : list event)
  : Prop :=
  exists s tok rest,
    tr' = tr ++ ev_submit o s user tok amt :: rest
    /\ forall W S U, relays W S U rest = 0%nat /\ relayed_amounts W S U rest = [].

End CopyTrading.

(* ================================================================== *)
(** ** Cancellation ([cancel_user_order]) *)

Module Cancel.

(** [db.db.trades.find_one({'_id': order_id, 'user_id': user_id})] with the
    string [order_id]. *)
Definition find_one (w : world) (order_id : string) (user : Z) : option trade_doc :=
  find (fun d => bson_id_eqb (t_id d) (BsonStr order_id) && Z.eqb (t_user_id d) user)
       (w_trades w).

Definition cancel_user_order (e : env) (user : Z) (order_id : string)
  (a : active_orders) (w : world) : world * active_orders * (bool * string) :=
  match find_one w order_id user with
  | None => (step w, a, (false, "Order not found"%string))
  | Some _ =>
    let '(w, _) := update_trade_status e (step w) order_id "cancelled" no_data in
    (w, del order_id a, (true, "Order cancelled successfully"%string))
  end.

(** The state in which the specification lets an order be cancelled, as
    stored in [status]. *)
Definition is_pending (d : trade_doc) : Prop := t_status d = "pending"%string.

End Cancel.

(* ================================================================== *)
(** ** Subscribing to a wallet ([subscribe_copy_trading]) *)

Module Subscribe.

(** The attributes [TradingEngine.__init__] sets on the new object. *)
Definition init_attributes : list string :=
  ["solana"; "db"; "payment"; "active_orders"; "copy_trading_subscriptions";
   "is_running"; "price_monitors"]%string.

(** The methods of the class. *)
Definition class_attributes : list string :=
  ["__init__"; "start_monitoring"; "stop_monitoring"; "_load_active_orders";
   "_load_copy_trading_subscriptions"; "create_trade_order"; "_validate_order";
   "_process_orders"; "_execute_market_order"; "_monitor_limit_orders";
   "_check_limit_order"; "_send_limit_order_alert"; "_check_snipe_order";
   "_monitor_copy_trading"; "_execute_copy_trades"; "_send_copy_trade_alert";
   "subscribe_copy_trading"; "unsubscribe_copy_trading";
   "get_copy_trading_subscriptions"; "update_copy_trading_settings";
   "get_user_orders"; "cancel_user_order"; "execute_market_buy";
   "execute_market_sell"; "create_limit_order"; "get_user_trade_history";
   "get_user_portfolio"; "get_trading_statistics"; "get_market_analysis";
   "create_snipe_order"; "execute_snipe_trade"; "_send_snipe_alert";
   "get_user_snipe_orders"; "cancel_snipe_order"; "_get_token_price_at_time";
   "_monitor_stop_losses"; "_check_stop_loss"; "_execute_stop_loss";
   "_send_stop_loss_alert"]%string.

(** A [TradingEngine] object, as the set of attribute names it answers to.
    Nothing in the repository assigns another attribute to the engine. *)
Definition TradingEngine : list string := init_attributes ++ class_attributes.

(** [self.name]: [None] stands for [AttributeError]. *)
Definition getattr (self : list string) (name : string) : option string :=
  if existsb (String.eqb name) self then Some name else None.

Definition default_settings : copy_settings :=
  {| cs_enabled := Some true; cs_copy_percentage := Some 100;
     cs_max_copy_amount := Some 1; cs_min_trade_amount := Some (1 # 10);
     cs_copy_delay := Some 0; cs_risk_level := Some "medium"%string |}.

Definition over {A : Type} (d u : option A) : option A :=
  match u with Some _ => u | None => d end.

(** [{**default_settings, **(settings or {})}] *)
Definition merge_settings (settings : option copy_settings) : copy_settings :=
  match settings with
  | None => default_settings
  | Some s =>
    {| cs_enabled := over (cs_enabled default_settings) (cs_enabled s);
       cs_copy_percentage := over (cs_copy_percentage default_settings) (cs_copy_percentage s);
       cs_max_copy_amount := over (cs_max_copy_amount default_settings) (cs_max_copy_amount s);
       cs_min_trade_amount := over (cs_min_trade_amount default_settings) (cs_min_trade_amount s);
       cs_copy_delay := over (cs_copy_delay default_settings) (cs_copy_delay s);
       cs_risk_level := over (cs_risk_level default_settings) (cs_risk_level s) |}
  end.

(** [db.store_copy_trading_subscription]: [acknowledged] tells whether the
    store took the insert; a refused insert returns [False]. *)
Definition store_copy_trading_subscription (acknowledged : bool)
  (doc : subscription_doc) (w : world) : world * bool :=
  if acknowledged then (step (set_subs w (w_subs w ++ [doc])), true)
  else (step w, false).

Definition subscribe_copy_trading (self : list string) (e : env)
  (validate_address : string -> bool) (acknowledged : bool)
  (user : Z) (wallet_address : string) (settings : option copy_settings) (w : world)
  : world * (bool * string) :=
  if negb (validate_address wallet_address)
  then (w, (false, "Invalid wallet address"%string))
  else
    let subscription_data :=
      {| sub_user_id := user; sub_wallet_address := wallet_address;
         sub_copy_settings := Some (merge_settings settings);
         sub_created_at := utcnow e (w_clock w); sub_is_active := true |} in
    let '(w, success) := store_copy_trading_subscription acknowledged subscription_data w in
    if success then
      match getattr self "analyzer" with
      | Some _ =>
        (step w, (true, "Successfully subscribed to copy trading"%string))
      | None =>
        (w, (false, "Error: 'TradingEngine' object has no attribute 'analyzer'"%string))
      end
    else (w, (false, "Failed to store subscription"%string)).

End Subscribe.


(* ================================================================== *)
(** ** Concrete inputs used in the examples below *)

Module Examples.

(** An engine constructed with a payment service, and one without. *)
Definition wired : option string := Some "PaymentService"%string.

Definition unwired : option string := None.

Definition free_user : user_doc :=
  {| u_user_id := 7; u_subscription_tier := Some "free"%string;
     u_max_trade_amount := None; u_trading_max_amount := None |}.

Definition tiny_copy_order : TradeOrder :=
  {| user_id := 7; trade_type := COPY_TRADE;
     input_token := SOL_MINT; output_token := "TokenMint";
     amount := 1 # 1000; price := None; slippage := 1;
     stop_loss := None; take_profit := None; expires_at := None;
     copy_wallet := Some "Whale"%string; created_at := 0 |}.

Definition free_snipe_order : TradeOrder :=
  {| user_id := 7; trade_type := SNIPE;
     input_token := SOL_MINT; output_token := "TokenMint";
     amount := 1; price := None; slippage := 1;
     stop_loss := None; take_profit := None; expires_at := None;
     copy_wallet := None; created_at := 0 |}.

(** An outside world in which no price is known and every swap fails. *)
Definition quiet_env : env :=
  {| get_token_price := fun _ _ => 0;
     execute_swap := fun _ _ _ _ _ =>
       {| sr_success := false; sr_signature := None; sr_output_amount := None;
          sr_price_impact := None; sr_error := Some "No route found for swap"%string |};
     new_object_id := fun n =>
       ("5f00000000000000000000" ++ NilEmpty.string_of_uint (Nat.to_uint n))%string;
     utcnow := fun n => Z.of_nat n;
     get_user := fun _ => None;
     get_wallet_transactions := fun _ _ => [] |}.

(** An outside world in which every token costs [price] and every swap is
    executed; signatures and identifiers are numbered by the request. *)
Definition numbered (prefix : string) (n : nat) : string :=
  prefix ++ NilEmpty.string_of_uint (Nat.to_uint n).

Definition priced_env (price : Q) : env :=
  {| get_token_price := fun _ _ => price;
     execute_swap := fun n _ _ amt _ =>
       {| sr_success := true; sr_signature := Some (numbered "sig" n);
          sr_output_amount := Some amt; sr_price_impact := Some 0;
          sr_error := None |};
     new_object_id := numbered "5f00000000000000000000";
     utcnow := fun n => Z.of_nat n;
     get_user := fun _ => None;
     get_wallet_transactions := fun _ _ => [] |}.

Definition willing_env : env := priced_env 1.

Definition one_sol_config : Snipe.snipe_config :=
  {| Snipe.sc_max_amount := Some 1; Snipe.sc_slippage := Some 1;
     Snipe.sc_take_profit := Some 50; Snipe.sc_stop_loss := Some 10 |}.

Definition one_sol_snipe : Snipe.snipe_order :=
  {| Snipe.so_id := ObjectId "5f0000000000000000000001"; Snipe.so_user_id := 7;
     Snipe.so_max_amount := 1; Snipe.so_slippage := 1; Snipe.so_status := "active";
     Snipe.so_executed_trades := []; Snipe.so_total_spent := 0 |}.

(** As [priced_env], with a venue that refuses every swap. *)
Definition refusing_env (price : Q) : env :=
  {| get_token_price := fun _ _ => price;
     execute_swap := fun _ _ _ _ _ =>
       {| sr_success := false; sr_signature := None; sr_output_amount := None;
          sr_price_impact := None; sr_error := Some "No route found for swap"%string |};
     new_object_id := numbered "5f00000000000000000000";
     utcnow := fun n => Z.of_nat n;
     get_user := fun _ => None;
     get_wallet_transactions := fun _ _ => [] |}.

Definition empty_world : world :=
  {| w_trades := []; w_orders := []; w_subs := []; w_trace := []; w_clock := 0 |}.

(** A pending trade of user 42 under the [ObjectId] the driver gave it. *)
Definition pending_trade : trade_doc :=
  {| t_id := ObjectId "5f00000000000000000000c1"; t_user_id := 42; t_trade_type := "snipe";
     t_input_token := Some SOL_MINT; t_output_token := Some "TokenMint"%string;
     t_amount := Some 1; t_output_amount := None;
     t_status := "pending"; t_signature := None;
     t_stop_loss := None; t_entry_price := None;
     t_stop_loss_triggered := false; t_stop_loss_price := None;
     t_created_at := 0; t_updated_at := None;
     t_price := None; t_slippage := None; t_take_profit := None;
     t_expires_at := None; t_copy_wallet := None |}.

Definition pending_world : world := set_trades empty_world [pending_trade].

(** A completed buy of user 42: 5 tokens bought at 10, stop loss 20%. *)
Definition held_trade : trade_doc :=
  {| t_id := ObjectId "5f00000000000000000000a1"; t_user_id := 42;
     t_trade_type := "buy";
     t_input_token := Some SOL_MINT; t_output_token := Some "TokenMint"%string;
     t_amount := Some 50; t_output_amount := Some 5;
     t_status := "completed"; t_signature := Some "sig-a1"%string;
     t_stop_loss := Some 20; t_entry_price := Some 10;
     t_stop_loss_triggered := false; t_stop_loss_price := None;
     t_created_at := 0; t_updated_at := None;
     t_price := None; t_slippage := None; t_take_profit := None;
     t_expires_at := None; t_copy_wallet := None |}.

Definition held_world : world := set_trades empty_world [held_trade].

(** A subscriber of the wallet "Whale": 50%, at most 0.3 per copied trade,
    and the minimum of 0.1 that [subscribe_copy_trading] fills in. *)
Definition half_capped : copy_settings :=
  {| cs_enabled := Some true; cs_copy_percentage := Some 50;
     cs_max_copy_amount := Some (3 # 10); cs_min_trade_amount := Some (1 # 10);
     cs_copy_delay := Some 0; cs_risk_level := Some "medium"%string |}.

Definition half_capped_subscriber : subscription_doc :=
  {| sub_user_id := 42; sub_wallet_address := "Whale";
     sub_copy_settings := Some half_capped; sub_created_at := 0;
     sub_is_active := true |}.

Definition copy_world : world := set_subs empty_world [half_capped_subscriber].

(** Source trades of the wallet: buys of 0.15 and of 1.0 SOL, no USD figure. *)
Definition source_trade (signature : string) (amt : Q) (block_time : Z) : tx_info :=
  {| tx_signature := signature; tx_block_time := Some block_time;
     tx_type := Some "receive"%string; tx_amount := Some amt; tx_amount_usd := None;
     tx_input_token := Some SOL_MINT; tx_output_token := Some "TokenMint"%string;
     tx_detected_trade_type := Some "buy"%string |}.

Definition one_sol_source_trade : tx_info := source_trade "sig-one" 1 1.

(** The engine follows "Whale" for user 42, and the wallet's only recent
    transaction is the buy of 1.0 SOL. *)
Definition whale_followers : list (Z * list string) := [(42%Z, ["Whale"%string])].

Definition whale_env : env :=
  {| get_token_price := fun _ _ => 1;
     execute_swap := fun n _ _ amt _ =>
       {| sr_success := true; sr_signature := Some (numbered "sig" n);
          sr_output_amount := Some amt; sr_price_impact := Some 0;
          sr_error := None |};
     new_object_id := numbered "5f00000000000000000000";
     utcnow := fun n => Z.of_nat n;
     get_user := fun _ => None;
     get_wallet_transactions := fun _ wallet =>
       if String.eqb wallet "Whale" then [one_sol_source_trade] else [] |}.

(** A pending limit buy of user 42: 1 SOL of "TokenMint" at 10 or below,
    stored by [insert_one]. *)
Definition limit_buy_at_10 : order_doc :=
  {| o_id := ObjectId "5f00000000000000000000b1"; o_user_id := 42;
     o_trade_type := Some "limit_buy"%string;
     o_input_token := Some "SOL"%string; o_output_token := Some "TokenMint"%string;
     o_amount_sol := Some 1; o_amount_tokens := None;
     o_price := Some 10; o_expires_at := None;
     o_status := "pending"; o_created_at := 0; o_execution_price := None |}.

Definition limit_world : world := set_orders empty_world [limit_buy_at_10].

(** The transaction of "Whale" as the RPC node returns it: the balance of
    the wallet goes from 1 to 2 SOL. *)
Definition whale_tx_data : Transactions.tx_data :=
  {| Transactions.td_signature := "sig-one"; Transactions.td_block_time := Some 1%Z;
     Transactions.td_balances := Some (1000000000, 2000000000)%Z;
     Transactions.td_token_change := false |}.

(** As [whale_env], with the transactions of the wallet parsed by the
    service. *)
Definition parsed_whale_env : env :=
  {| get_token_price := fun _ _ => 1;
     execute_swap := fun n _ _ amt _ =>
       {| sr_success := true; sr_signature := Some (numbered "sig" n);
          sr_output_amount := Some amt; sr_price_impact := Some 0;
          sr_error := None |};
     new_object_id := numbered "5f00000000000000000000";
     utcnow := fun n => Z.of_nat n;
     get_user := fun _ => None;
     get_wallet_transactions := fun _ wallet =>
       if String.eqb wallet "Whale"
       then map Transactions._parse_transaction [whale_tx_data] else [] |}.

(** The settings a user asks for: 50%, at most 0.3 per copied trade. *)
Definition half_capped_request : copy_settings :=
  {| cs_enabled := None; cs_copy_percentage := Some 50;
     cs_max_copy_amount := Some (3 # 10); cs_min_trade_amount := None;
     cs_copy_delay := None; cs_risk_level := None |}.

(** A completed buy of user 42 entered at 100, with a stop loss of 29%. *)
Definition boundary_trade : trade_doc :=
  {| t_id := ObjectId "5f00000000000000000000a2"; t_user_id := 42;
     t_trade_type := "buy";
     t_input_token := Some SOL_MINT; t_output_token := Some "TokenMint"%string;
     t_amount := Some 50; t_output_amount := Some 5;
     t_status := "completed"; t_signature := Some "sig-a2"%string;
     t_stop_loss := Some 29; t_entry_price := Some 100;
     t_stop_loss_triggered := false; t_stop_loss_price := None;
     t_created_at := 0; t_updated_at := None;
     t_price := None; t_slippage := None; t_take_profit := None;
     t_expires_at := None; t_copy_wallet := None |}.

End Examples.


(* ================================================================== *)
(** * The rest of the engine *)

(** ** More of the store ([database.py]) *)

Module Store.

(** [db.get_trade_by_id]: [find_one({'_id': ObjectId(trade_id)})]. *)
Definition get_trade_by_id (w : world) (trade_id : string) : option trade_doc :=
  find (fun d => bson_id_eqb (t_id d) (ObjectId trade_id)) (w_trades w).

(** [db.create_limit_order]: [created_at] and [status] are overwritten, the
    document is inserted and the rendering of its new [_id] is returned;
    [None] when the insert raises (a duplicate [_id]). *)
Definition create_limit_order (e : env) (w : world) (order_data : order_doc)
  : world * option string :=
  let i := ObjectId (new_object_id e (w_clock w)) in
  let d :=
    {| o_id := i; o_user_id := o_user_id order_data;
       o_trade_type := o_trade_type order_data;
       o_input_token := o_input_token order_data;
       o_output_token := o_output_token order_data;
       o_amount_sol := o_amount_sol order_data;
       o_amount_tokens := o_amount_tokens order_data;
       o_price := o_price order_data; o_expires_at := o_expires_at order_data;
       o_status := "pending"; o_created_at := utcnow e (w_clock w);
       o_execution_price := o_execution_price order_data |} in
  if existsb (fun x => bson_id_eqb (o_id x) i) (w_orders w)
  then (step w, None)
  else (step (set_orders w (w_orders w ++ [d])), Some (py_str i)).

(** [update_one(filter, update)]: the first document that matches is
    updated, and only that one; the flag tells whether one matched. *)
Fixpoint update_first {A : Type} (p : A -> bool) (f : A -> A) (l : list A)
  : list A * bool :=
  match l with
  | [] => ([], false)
  | x :: r =>
    if p x then (f x :: r, true)
    else let '(r', found) := update_first p f r in (x :: r', found)
  end.

Definition subscription_of (user : Z) (wallet_address : string) (s : subscription_doc)
  : bool :=
  Z.eqb (sub_user_id s) user && String.eqb (sub_wallet_address s) wallet_address.

Definition deactivate (s : subscription_doc) : subscription_doc :=
  {| sub_user_id := sub_user_id s; sub_wallet_address := sub_wallet_address s;
     sub_copy_settings := sub_copy_settings s; sub_created_at := sub_created_at s;
     sub_is_active := false |}.

Definition with_settings (settings : copy_settings) (s : subscription_doc)
  : subscription_doc :=
  {| sub_user_id := sub_user_id s; sub_wallet_address := sub_wallet_address s;
     sub_copy_settings := Some settings; sub_created_at := sub_created_at s;
     sub_is_active := sub_is_active s |}.

(** [db.remove_copy_trading_subscription]: the filter is the user and the
    wallet, whether the subscription is active or not; the update also
    stamps [unsubscribed_at], so a matched document counts as modified. *)
Definition remove_copy_trading_subscription (w : world) (user : Z)
  (wallet_address : string) : world * bool :=
  let '(subs, found) :=
    update_first (subscription_of user wallet_address) deactivate (w_subs w) in
  (step (set_subs w subs), found).

(** [db.update_copy_trading_settings]: the whole [copy_settings] is replaced
    by the given dictionary. *)
Definition update_copy_trading_settings (w : world) (user : Z)
  (wallet_address : string) (settings : copy_settings) : world * bool :=
  let '(subs, found) :=
    update_first (subscription_of user wallet_address) (with_settings settings)
      (w_subs w) in
  (step (set_subs w subs), found).

(** [db.get_user_copy_trading_subscriptions] *)
Definition get_user_copy_trading_subscriptions (w : world) (user : Z)
  : list subscription_doc :=
  filter (fun s => Z.eqb (sub_user_id s) user && sub_is_active s) (w_subs w).

(** The [snipe_orders] collection. *)
Definition snipe_store : Type := list Snipe.snipe_order.

(** [db.get_active_snipe_orders] *)
Definition get_active_snipe_orders (s : snipe_store) : snipe_store :=
  filter (fun so => String.eqb (Snipe.so_status so) "active") s.

Definition set_snipe_status (status : string) (so : Snipe.snipe_order)
  : Snipe.snipe_order :=
  {| Snipe.so_id := Snipe.so_id so; Snipe.so_user_id := Snipe.so_user_id so;
     Snipe.so_max_amount := Snipe.so_max_amount so;
     Snipe.so_slippage := Snipe.so_slippage so; Snipe.so_status := status;
     Snipe.so_executed_trades := Snipe.so_executed_trades so;
     Snipe.so_total_spent := Snipe.so_total_spent so |}.

(** The filter [{'_id': ObjectId(order_id), 'user_id': user_id}]. *)
Definition snipe_order_of (user : Z) (order_id : string) (so : Snipe.snipe_order)
  : bool :=
  bson_id_eqb (Snipe.so_id so) (ObjectId order_id) && Z.eqb (Snipe.so_user_id so) user.

(** [db.cancel_snipe_order]: the status is not part of the filter, and the
    update stamps [cancelled_at], so a matched document counts as
    modified. *)
Definition cancel_snipe_order (s : snipe_store) (user : Z) (order_id : string)
  : snipe_store * bool :=
  update_first (snipe_order_of user order_id) (set_snipe_status "cancelled") s.

End Store.

(* ================================================================== *)
(** ** Intake ([create_trade_order], [create_limit_order],
       [unsubscribe_copy_trading], [update_copy_trading_settings],
       [cancel_snipe_order]) *)

Module Intake.

(** [TradeType.X.value] *)
Definition type_value (t : TradeType) : string :=
  match t with
  | BUY => "buy"
  | SELL => "sell"
  | LIMIT_BUY => "limit_buy"
  | LIMIT_SELL => "limit_sell"
  | COPY_TRADE => "copy_trade"
  | SNIPE => "snipe"
  end.

(** [self.active_orders[order_id] = order]: a key already present keeps its
    place. *)
Definition set_item (order_id : string) (order : TradeOrder) (a : active_orders)
  : active_orders :=
  if existsb (fun kv => String.eqb (fst kv) order_id) a
  then map (fun kv => if String.eqb (fst kv) order_id then (order_id, order) else kv) a
  else a ++ [(order_id, order)].

(** [trades.find({'user_id': user}).sort('created_at', -1).limit(1)]: the
    trade of the user with the latest stamp (among equal stamps, the first
    in the store). *)
Fixpoint latest_trade (user : Z) (ts : list trade_doc) : option trade_doc :=
  match ts with
  | [] => None
  | d :: r =>
    if Z.eqb (t_user_id d) user then
      match latest_trade user r with
      | Some x => if Z.ltb (t_created_at d) (t_created_at x) then Some x else Some d
      | None => Some d
      end
    else latest_trade user r
  end.

(** What [create_trade_order] answers: the reason of a refused validation,
    or one of its own messages. *)
Inductive answer : Type :=
| Refused (r : Validator.reason)
| Message (s : string).

(** What the dictionaries of [create_limit_order] carry. *)
Record order_result : Type := mk_order_result {
  or_success : bool;
  or_order_id : option string;
  or_error : option string
}.

Section Intake.

Variable cfg : config.
Variable e : env.
(** [solana.validate_address] *)
Variable validate_address : string -> bool.

(** [create_trade_order].  Besides the new state it returns the task it
    hands to [asyncio.create_task], if any: the call of
    [_execute_market_order] for a market order. *)
Definition create_trade_order (order : TradeOrder) (a : active_orders) (w : world)
  : world * active_orders * option (string * TradeOrder) * (bool * answer) :=
  let validation_result :=
    Validator._validate_order cfg (get_user e) validate_address order in
  if negb (fst validation_result)
  then (w, a, None, (false, Refused (snd validation_result)))
  else
    let '(w, result) := store_trade e w (fun i now =>
      {| t_id := i; t_user_id := user_id order;
         t_trade_type := type_value (trade_type order);
         t_input_token := Some (input_token order);
         t_output_token := Some (output_token order);
         t_amount := Some (amount order); t_output_amount := None;
         t_status := status_value PENDING; t_signature := None;
         t_stop_loss := stop_loss order; t_entry_price := None;
         t_stop_loss_triggered := false; t_stop_loss_price := None;
         t_created_at := now; t_updated_at := None;
         t_price := price order; t_slippage := Some (slippage order);
         t_take_profit := take_profit order; t_expires_at := expires_at order;
         t_copy_wallet := copy_wallet order |}) in
    if negb result
    then (w, a, None, (false, Message "Failed to store trade order"))
    else
      match latest_trade (user_id order) (w_trades w) with
      | Some trade_doc =>
        let order_id := py_str (t_id trade_doc) in
        let a := set_item order_id order a in
        let task :=
          if TradeType_eqb (trade_type order) BUY || TradeType_eqb (trade_type order) SELL
          then Some (order_id, order) else None in
        (step w, a, task,
         (true, Message ("Order created successfully. ID: " ++ order_id)))
      | None => (step w, a, None, (false, Message "Failed to retrieve order ID"))
      end.

(** [create_limit_order] of the engine: the order is a limit buy paid in
    SOL; no trigger price and no expiry are stored. *)
Definition create_limit_order (user : Z) (token_address : string) (amount_sol : Q)
  (w : world) : world * order_result :=
  if Qltb amount_sol (MIN_TRADE_AMOUNT cfg) || Qltb (MAX_TRADE_AMOUNT cfg) amount_sol
  then (w, {| or_success := false; or_order_id := None;
              or_error := Some "Amount must be between the minimum and maximum trade amount"%string |})
  else
    let '(w, order_id) := Store.create_limit_order e w
      {| o_id := ObjectId EmptyString (* no [_id] yet: the insert sets it *);
         o_user_id := user;
         o_trade_type := Some "limit_buy"%string;
         o_input_token := Some "SOL"%string; o_output_token := Some token_address;
         o_amount_sol := Some amount_sol; o_amount_tokens := None;
         o_price := None; o_expires_at := None;
         o_status := "pending"; o_created_at := utcnow e (w_clock w);
         o_execution_price := None |} in
    match order_id with
    | Some i =>
      if String.eqb i EmptyString
      then (w, {| or_success := false; or_order_id := None;
                  or_error := Some "Failed to create order"%string |})
      else (w, {| or_success := true; or_order_id := Some i; or_error := None |})
    | None => (w, {| or_success := false; or_order_id := None;
                     or_error := Some "Failed to create order"%string |})
    end.

(** [unsubscribe_copy_trading] *)
Definition unsubscribe_copy_trading (user : Z) (wallet_address : string) (w : world)
  : world * (bool * string) :=
  let '(w, success) := Store.remove_copy_trading_subscription w user wallet_address in
  if success then (w, (true, "Successfully unsubscribed from copy trading"%string))
  else (w, (false, "Failed to remove subscription"%string)).

(** [update_copy_trading_settings] *)
Definition update_copy_trading_settings (user : Z) (wallet_address : string)
  (settings : copy_settings) (w : world) : world * (bool * string) :=
  let '(w, success) :=
    Store.update_copy_trading_settings w user wallet_address settings in
  if success then (w, (true, "Copy trading settings updated successfully"%string))
  else (w, (false, "Failed to update settings"%string)).

(** [cancel_snipe_order] *)
Definition cancel_snipe_order (user : Z) (order_id : string) (s : Store.snipe_store)
  : Store.snipe_store * (bool * string) :=
  let '(s, success) := Store.cancel_snipe_order s user order_id in
  if success then (s, (true, "Snipe order cancelled successfully"%string))
  else (s, (false, "Failed to cancel snipe order"%string)).

End Intake.

End Intake.

(* ================================================================== *)
(** ** The order loop ([_process_orders], [_check_snipe_order]) *)

Module OrderLoop.

(** The outside world of one round: the answers of the venue and, from
    [solana.get_token_info], the symbol of a token ([None] when the answer
    has no symbol). *)
Record round_env : Type := mk_round_env {
  outside : env;
  get_token_symbol : nat -> string -> option string
}.

Section Loop.

Variable r : round_env.

(** [_check_snipe_order]: the order is executed unless the token is still
    unknown. *)
Definition _check_snipe_order (order_id : string) (order : TradeOrder)
  (a : active_orders) (w : world) : world * active_orders :=
  let symbol := get_token_symbol r (w_clock w) (output_token order) in
  let w := step w in
  if opt_string_eqb symbol (Some "UNKNOWN"%string) then (w, a)
  else _execute_market_order (outside r) order_id order a w.

(** The body of the loop over the orders.  Two of its branches raise, and
    the handler around the body logs the exception and goes on:
    - for an expired order the body reads [self._cancel_order], which the
      class does not define ([AttributeError]);
    - for a limit order it calls [_check_limit_order] with the dataclass,
      whose first step, [order['output_token']], raises [TypeError] inside
      that function's own handler. *)
Definition process_order (item : string * TradeOrder) (s : world * active_orders)
  : world * active_orders :=
  let '(order_id, order) := item in
  let '(w, a) := s in
  let expired :=
    match expires_at order with
    | Some t => Z.ltb t (utcnow (outside r) (w_clock w))
    | None => false
    end in
  if expired then (w, a)
  else if TradeType_eqb (trade_type order) LIMIT_BUY
          || TradeType_eqb (trade_type order) LIMIT_SELL
  then (w, a)
  else if TradeType_eqb (trade_type order) SNIPE
  then _check_snipe_order order_id order a w
  else (w, a).

(** One round of the [while] loop of [_process_orders]: the items of
    [self.active_orders] are listed once, then processed in turn. *)
Definition _process_orders (s : world * active_orders) : world * active_orders :=
  let order_items := snd s in
  fold_left (fun s item => process_order item s) order_items s.

End Loop.

Fixpoint run_rounds (rs : list round_env) (s : world * active_orders)
  : world * active_orders :=
  match rs with
  | [] => s
  | r :: rest => run_rounds rest (_process_orders r s)
  end.

(** The identifiers under which orders are active. *)
Definition keys (a : active_orders) : list string := map fst a.

End OrderLoop.

(* ================================================================== *)
(** ** Fee deduction ([payment_service.py]) *)

Module Fees.

(** Constants of [config/settings.py] read by the payment service. *)
Record fee_config : Type := mk_fee_config {
  TRANSACTION_FEE_PERCENTAGE : Q;
  SUBSCRIPTION_FEE_PERCENTAGE : Q;
  MIN_PAYMENT_AMOUNT : Q
}.

(** A [SolanaService] object, as the attribute names it answers to: those
    set by [__init__] and the methods of the class. *)
Definition SolanaService : list string :=
  ["rpc_client"; "ws_connection"; "keypair"; "price_cache"; "session";
   "__init__"; "connect"; "disconnect"; "validate_address"; "get_wallet_balance";
   "get_wallet_transactions"; "_parse_transaction"; "_analyze_token_changes";
   "get_token_info"; "_get_onchain_token_metadata"; "get_token_price";
   "get_sol_price"; "start_websocket_monitoring"; "execute_swap";
   "is_valid_address"; "get_token_price_data"; "get_token_market_data";
   "_get_real_liquidity_data"; "get_wallet_token_holdings";
   "get_transaction_details"; "get_network_stats"]%string.

(** The positional parameters, after [self], of
    [DatabaseManager.record_fee_payment(self, user_id, payment_data)]. *)
Definition record_fee_payment_parameters : nat := 2.

(** The outside world of a deduction. *)
Record fee_env : Type := mk_fee_env {
  primary_wallet : Z -> option string;       (* db.get_user_primary_wallet(...)['address'] *)
  sol_balance : string -> Q;                 (* get_wallet_balance(...).get('sol_balance', 0) *)
  admin_keypair : bool;                      (* self.admin_keypair is set *)
  transfer_succeeds : string -> Q -> bool    (* the answer of the transfer, if requested *)
}.

Record fee_payment : Type := mk_fee_payment {
  fp_user_id : Z;
  fp_amount : Q;
  fp_transaction_signature : string;
  fp_payment_type : string
}.

(** What a deduction leaves behind: the transfers it requested and the
    payments it recorded. *)
Record ledger : Type := mk_ledger {
  transfers : list (string * Q);
  payments : list fee_payment
}.

Section Deduction.

Variable fc : fee_config.
Variable fe : fee_env.
(** The attributes of the object in [self.solana]. *)
Variable solana : list string.

Definition fee_amount (transaction_amount : Q) (transaction_type : string) : Q :=
  let fee_percentage :=
    if String.eqb transaction_type "trade" then TRANSACTION_FEE_PERCENTAGE fc
    else if String.eqb transaction_type "subscription" then SUBSCRIPTION_FEE_PERCENTAGE fc
    else TRANSACTION_FEE_PERCENTAGE fc in
  let fee := transaction_amount * (fee_percentage / 100) in
  if Qltb fee (MIN_PAYMENT_AMOUNT fc) then MIN_PAYMENT_AMOUNT fc else fee.

(** [_transfer_fee_to_admin]: reading a method that [self.solana] lacks
    raises [AttributeError]; the handler returns [False]. *)
Definition _transfer_fee_to_admin (from_address : string) (amt : Q) (l : ledger)
  : ledger * bool :=
  if negb (admin_keypair fe) then (l, false)
  else
    match Subscribe.getattr solana "create_transfer_transaction" with
    | None => (l, false)
    | Some _ =>
      ({| transfers := transfers l ++ [(from_address, amt)]; payments := payments l |},
       transfer_succeeds fe from_address amt)
    end.

(** [db.record_fee_payment] called with [given] positional arguments: a call
    that does not supply every parameter raises [TypeError]. *)
Definition record_fee_payment (given : nat) (p : fee_payment) (l : ledger)
  : option ledger :=
  if Nat.eqb given record_fee_payment_parameters
  then Some {| transfers := transfers l; payments := payments l ++ [p] |}
  else None.

(** [process_automatic_fee_deduction].  After a transfer that succeeded it
    calls [self.db.record_fee_payment({...})], with the dictionary as only
    argument; an exception anywhere makes it return [False]. *)
Definition process_automatic_fee_deduction (user : Z) (transaction_amount : Q)
  (transaction_type transaction_signature : string) (l : ledger) : ledger * bool :=
  match primary_wallet fe user with
  | None => (l, false)
  | Some address =>
    let fee := fee_amount transaction_amount transaction_type in
    if Qltb (sol_balance fe address) fee then (l, false)
    else
      let '(l, success) := _transfer_fee_to_admin address fee l in
      if success then
        match record_fee_payment 1
                {| fp_user_id := user; fp_amount := fee;
                   fp_transaction_signature := transaction_signature;
                   fp_payment_type := transaction_type ++ "_fee" |} l with
        | Some l' => (l', true)
        | None => (l, false)
        end
      else (l, false)
  end.

End Deduction.

End Fees.

(* ================================================================== *)
(** ** The wiring of the services ([main.py], [main_testnet.py]) *)

Module Wiring.

(** The engine, as the three services [TradingEngine.__init__] stores;
    [None] is Python's [None]. *)
Record engine : Type := mk_engine {
  en_solana : option string;
  en_db : option string;
  en_payment : option string
}.

(** The fields of the bot that [setup] assigns; [__init__] sets all of
    them to [None]. *)
Record bot : Type := mk_bot {
  db_manager : option string;
  solana_service : option string;
  wallet_analyzer : option string;
  trading_engine : option engine;
  payment_service : option string
}.

Definition new_bot : bot :=
  {| db_manager := None; solana_service := None; wallet_analyzer := None;
     trading_engine := None; payment_service := None |}.

(** [TradingEngine(self.solana_service, self.db_manager, self.payment_service)],
    with the fields as they are when the constructor is called. *)
Definition make_engine (b : bot) : engine :=
  {| en_solana := solana_service b; en_db := db_manager b;
     en_payment := payment_service b |}.

(** [SolanaTradingBot.setup] of [main.py]: the engine is built before the
    payment service is. *)
Definition setup (b : bot) : bot :=
  let b := {| db_manager := Some "DatabaseManager"%string;
              solana_service := solana_service b; wallet_analyzer := wallet_analyzer b;
              trading_engine := trading_engine b; payment_service := payment_service b |} in
  let b := {| db_manager := db_manager b;
              solana_service := Some "SolanaService"%string;
              wallet_analyzer := wallet_analyzer b;
              trading_engine := trading_engine b; payment_service := payment_service b |} in
  let b := {| db_manager := db_manager b; solana_service := solana_service b;
              wallet_analyzer := Some "WalletAnalyzer"%string;
              trading_engine := trading_engine b; payment_service := payment_service b |} in
  let b := {| db_manager := db_manager b; solana_service := solana_service b;
              wallet_analyzer := wallet_analyzer b;
              trading_engine := Some (make_engine b);
              payment_service := payment_service b |} in
  {| db_manager := db_manager b; solana_service := solana_service b;
     wallet_analyzer := wallet_analyzer b; trading_engine := trading_engine b;
     payment_service := Some "PaymentService"%string |}.

(** [SolanaTradingBotTestnet.setup] of [main_testnet.py]: the payment
    service is built first. *)
Definition setup_testnet (b : bot) : bot :=
  let b := {| db_manager := Some "DatabaseManager"%string;
              solana_service := solana_service b; wallet_analyzer := wallet_analyzer b;
              trading_engine := trading_engine b; payment_service := payment_service b |} in
  let b := {| db_manager := db_manager b;
              solana_service := Some "SolanaService"%string;
              wallet_analyzer := wallet_analyzer b;
              trading_engine := trading_engine b; payment_service := payment_service b |} in
  let b := {| db_manager := db_manager b; solana_service := solana_service b;
              wallet_analyzer := Some "WalletAnalyzer"%string;
              trading_engine := trading_engine b; payment_service := payment_service b |} in
  let b := {| db_manager := db_manager b; solana_service := solana_service b;
              wallet_analyzer := wallet_analyzer b; trading_engine := trading_engine b;
              payment_service := Some "PaymentService"%string |} in
  {| db_manager := db_manager b; solana_service := solana_service b;
     wallet_analyzer := wallet_analyzer b;
     trading_engine := Some (make_engine b);
     payment_service := payment_service b |}.

(** [self.payment] of the engine a set-up leaves in the bot. *)
Definition payment_of (b : bot) : option string :=
  match trading_engine b with
  | Some en => en_payment en
  | None => None
  end.

End Wiring.

(* ================================================================== *)
(** ** What the copy-trading monitor reads ([_load_copy_trading_subscriptions]) *)

Module Startup.

(** [self.copy_trading_subscriptions]: from user to wallet addresses. *)
Definition subscriptions : Type := list (Z * list string).

(** [if user_id not in d: d[user_id] = []] and then
    [d[user_id].append(wallet_address)]. *)
Fixpoint append_wallet (user : Z) (wallet_address : string) (d : subscriptions)
  : subscriptions :=
  match d with
  | [] => [(user, [wallet_address])]
  | (u, wallets) :: r =>
    if Z.eqb u user then (u, wallets ++ [wallet_address]) :: r
    else (u, wallets) :: append_wallet user wallet_address r
  end.

(** [_load_copy_trading_subscriptions]: the active documents of the
    collection [copy_subscriptions] are read into the dictionary.  That
    collection is not the one [store_copy_trading_subscription] inserts
    into, [copy_trading_subscriptions] ([w_subs] of the world); the
    repository has no function that writes it. *)
Definition _load_copy_trading_subscriptions (copy_subscriptions : list subscription_doc)
  (d : subscriptions) : subscriptions :=
  fold_left (fun d sub => append_wallet (sub_user_id sub) (sub_wallet_address sub) d)
            (filter sub_is_active copy_subscriptions) d.

End Startup.

(* ================================================================== *)
(** ** The engine at work: requests served one after the other *)

Module Session.

(** What the engine is asked to do: the public operations and one round of
    each monitor.  [ExecuteMarketOrder] is the task [create_trade_order]
    spawns; it may run for any order. *)
Inductive request : Type :=
| CreateTradeOrder (validate_address : string -> bool) (order : TradeOrder)
| ExecuteMarketOrder (order_id : string) (order : TradeOrder)
| ProcessOrders (get_token_symbol : nat -> string -> option string)
| MarketBuy (user : Z) (token_address : string) (amount_sol : Q)
| MarketSell (user : Z) (token_address : string) (amount_tokens : Q)
| CreateLimitOrder (user : Z) (token_address : string) (amount_sol : Q)
| LimitRound
| CopyRound (subscriptions : list (Z * list string))
| SnipeTrade (so : Snipe.snipe_order) (token_address : string)
| StopLossRound
| CancelOrder (user : Z) (order_id : string)
| SubscribeCopyTrading (validate_address : string -> bool) (acknowledged : bool)
    (user : Z) (wallet_address : string) (settings : option copy_settings)
| UnsubscribeCopyTrading (user : Z) (wallet_address : string)
| UpdateCopyTradingSettings (user : Z) (wallet_address : string)
    (settings : copy_settings).

Section Serve.

Variable cfg : config.
(** [self.payment] of the engine. *)
Variable payment : option string.

(** One request, served against the outside world of its time. *)
Definition serve (e : env) (rq : request) (s : world * active_orders)
  : world * active_orders :=
  let '(w, a) := s in
  match rq with
  | CreateTradeOrder validate_address order =>
    let '(w, a, _, _) := Intake.create_trade_order cfg e validate_address order a w in
    (w, a)
  | ExecuteMarketOrder order_id order => _execute_market_order e order_id order a w
  | ProcessOrders symbols =>
    OrderLoop._process_orders
      {| OrderLoop.outside := e; OrderLoop.get_token_symbol := symbols |} (w, a)
  | MarketBuy user token_address amount_sol =>
    (fst (execute_market_buy cfg payment e Direct user token_address amount_sol w), a)
  | MarketSell user token_address amount_tokens =>
    (fst (execute_market_sell cfg payment e Direct user token_address amount_tokens w), a)
  | CreateLimitOrder user token_address amount_sol =>
    (fst (Intake.create_limit_order cfg e user token_address amount_sol w), a)
  | LimitRound => (LimitMonitor._monitor_limit_orders cfg payment e w, a)
  | CopyRound subscriptions =>
    (CopyTrading._monitor_copy_trading cfg payment e subscriptions w, a)
  | SnipeTrade so token_address =>
    (fst (fst (Snipe.execute_snipe_trade cfg payment e so token_address w)), a)
  | StopLossRound => (StopLossMonitor._monitor_stop_losses cfg payment e w, a)
  | CancelOrder user order_id =>
    let '(w, a, _) := Cancel.cancel_user_order e user order_id a w in (w, a)
  | SubscribeCopyTrading validate_address acknowledged user wallet_address settings =>
    (fst (Subscribe.subscribe_copy_trading Subscribe.TradingEngine e validate_address
            acknowledged user wallet_address settings w), a)
  | UnsubscribeCopyTrading user wallet_address =>
    (fst (Intake.unsubscribe_copy_trading user wallet_address w), a)
  | UpdateCopyTradingSettings user wallet_address settings =>
    (fst (Intake.update_copy_trading_settings user wallet_address settings w), a)
  end.

Fixpoint session (l : list (env * request)) (s : world * active_orders)
  : world * active_orders :=
  match l with
  | [] => s
  | (e, rq) :: rest => session rest (serve e rq s)
  end.

End Serve.

(** Every stored trade satisfies [T]. *)
Definition all_trades (T : trade_doc -> Prop) (w : world) : Prop :=
  forall d, In d (w_trades w) -> T d.

(** No stored trade records the price it was entered at. *)
Definition no_entry_price (w : world) : Prop :=
  all_trades (fun d => t_entry_price d = None) w.

(** Every stored trade has the kind of identifier [insert_one] gives. *)
Definition driver_ids (w : world) : Prop :=
  all_trades (fun d => exists h, t_id d = ObjectId h) w.

(** No stored limit order records a trigger price. *)
Definition no_trigger_price (w : world) : Prop :=
  forall d, In d (w_orders w) -> o_price d = None.

(** Events made on behalf of a limit order or of a stop loss. *)
Definition for_limit_order (o : origin) : bool :=
  match o with LimitOrder _ => true | _ => false end.

Definition for_stop_loss (o : origin) : bool :=
  match o with StopLoss _ => true | _ => false end.

Definition for_active_order (o : origin) : bool :=
  match o with ActiveOrder _ => true | _ => false end.

Definition origin_of (ev : event) : option origin :=
  match ev with
  | ev_submit o _ _ _ _ => Some o
  | ev_swap o _ _ _ _ _ => Some o
  | ev_alert _ _ => None
  end.

Definition made_for (p : origin -> bool) (tr : list event) : list event :=
  filter (fun ev => match origin_of ev with Some o => p o | None => false end) tr.

(** What is watched for: stop losses, on a store without entry prices,
    limit orders, on a store without trigger prices, and active orders,
    where none is executed. *)
Record watch : Type := mk_watch {
  entries : bool;
  triggers : bool;
  actives : bool
}.

Definition holds (T : trade_doc -> Prop) (k : watch) (w : world) : Prop :=
  all_trades T w /\ (triggers k = true -> no_trigger_price w).

Definition quiet (k : watch) (o : origin) : bool :=
  negb (entries k && for_stop_loss o) && negb (triggers k && for_limit_order o)
  && negb (actives k && for_active_order o).

Definition silent (k : watch) (ev : event) : bool :=
  match origin_of ev with Some o => quiet k o | None => true end.

(** The requests that execute active orders. *)
Definition runs_orders (rq : request) : bool :=
  match rq with
  | ExecuteMarketOrder _ _ | ProcessOrders _ => true
  | _ => false
  end.

(** From [w] to [w'] nothing watched for happened, the trades keep the
    property [T], the orders stay without trigger price if they were, and
    no identifier left the store. *)
Definition calm (T : trade_doc -> Prop) (k : watch) (w w' : world) : Prop :=
  (all_trades T w -> all_trades T w')
  /\ (no_trigger_price w -> no_trigger_price w')
  /\ (exists added, w_trace w' = w_trace w ++ added /\ forallb (silent k) added = true)
  /\ incl (map t_id (w_trades w)) (map t_id (w_trades w')).

End Session.

(* ================================================================== *)
(** ** The tasks of the event loop ([start_monitoring],
       [stop_monitoring], [_load_active_orders], [_process_orders]) *)

Module Tasks.

(** [TradeType(value)]: the member with that value, [ValueError] when
    there is none. *)
Definition type_of_value (s : string) : option TradeType :=
  find (fun t => String.eqb (Intake.type_value t) s)
       [BUY; SELL; LIMIT_BUY; LIMIT_SELL; COPY_TRADE; SNIPE].

(** The [TradeOrder] that [_load_active_orders] builds from a stored
    trade; [order['k']] raises [KeyError] on a missing key. *)
Definition order_of_trade (cfg : config) (d : trade_doc) : option TradeOrder :=
  match type_of_value (t_trade_type d), t_input_token d, t_output_token d, t_amount d with
  | Some ty, Some tin, Some tout, Some amt =>
    Some {| user_id := t_user_id d; trade_type := ty;
            input_token := tin; output_token := tout; amount := amt;
            price := t_price d;
            slippage := dflt (DEFAULT_SLIPPAGE cfg) (t_slippage d);
            stop_loss := t_stop_loss d; take_profit := t_take_profit d;
            expires_at := t_expires_at d; copy_wallet := t_copy_wallet d;
            created_at := t_created_at d |}
  | _, _, _, _ => None
  end.

(** [{'status': {'$in': ['pending', 'executing']}}] *)
Definition is_open (d : trade_doc) : bool :=
  String.eqb (t_status d) "pending" || String.eqb (t_status d) "executing".

(** The loop of [_load_active_orders]; one handler is around the whole
    loop, so the first exception ends the loading. *)
Fixpoint load (cfg : config) (orders : list trade_doc) (a : active_orders)
  : active_orders :=
  match orders with
  | [] => a
  | order :: rest =>
    match order_of_trade cfg order with
    | Some trade_order =>
      load cfg rest (Intake.set_item (py_str (t_id order)) trade_order a)
    | None => a
    end
  end.

(** [_load_active_orders] *)
Definition _load_active_orders (cfg : config) (a : active_orders) (w : world)
  : world * active_orders :=
  (step w, load cfg (filter is_open (w_trades w)) a).

(** [_execute_market_order] up to its call of the venue: the task is
    suspended in [await self.solana.execute_swap]; the answer is what the
    venue gives to the call. *)
Definition begin_market_order (e : env) (order_id : string) (order : TradeOrder)
  (w : world) : world * swap_result :=
  let '(w, _) := update_trade_status e w order_id (status_value EXECUTING) no_data in
  let res := execute_swap e (w_clock w) (input_token order) (output_token order)
               (amount order) (slippage order) in
  (emit w (ev_swap (ActiveOrder order_id) (input_token order) (output_token order)
             (amount order) (slippage order) (sr_success res)), res).

(** [_execute_market_order] from the answer of the venue on. *)
Definition finish_market_order (e : env) (order_id : string) (order : TradeOrder)
  (res : swap_result) (a : active_orders) (w : world) : world * active_orders :=
  let w := step w in
  let failed (w : world) :=
    fst (update_trade_status e w order_id (status_value FAILED) no_data) in
  if sr_success res then
    match sr_signature res, sr_output_amount res, sr_price_impact res with
    | Some sig, Some out, Some _ =>
      let '(w, _) :=
        update_trade_status e w order_id (status_value COMPLETED)
          {| rd_signature := Some sig; rd_output_amount := Some out |} in
      (emit w (ev_alert (user_id order) "trade_completed"), del order_id a)
    | _, _, _ => (failed w, del order_id a)
    end
  else
    match sr_error res with
    | Some _ => (emit (failed w) (ev_alert (user_id order) "trade_failed"), del order_id a)
    | None => (failed w, del order_id a)
    end.

(** A task of the event loop, where it is suspended:
    - [Loop]: a [_process_orders] task, created or asleep; next it tests
      [while self.is_running];
    - [LoopSwapping]: that task in the venue's swap for an order, with the
      items of its round still to process;
    - [Market]: the [_execute_market_order] task that [create_trade_order]
      has created for a market order, not yet run;
    - [MarketSwapping]: that task in the venue's swap;
    - [Finished]: a task that has returned. *)
Inductive task : Type :=
| Loop
| LoopSwapping (order_id : string) (order : TradeOrder) (res : swap_result)
    (rest : list (string * TradeOrder))
| Market (order_id : string) (order : TradeOrder)
| MarketSwapping (order_id : string) (order : TradeOrder) (res : swap_result)
| Finished.

(** The engine and its tasks. *)
Record process : Type := mk_process {
  p_world : world;
  p_active : active_orders;
  is_running : bool;
  p_tasks : list task
}.

(** [TradingEngine.__init__] over the store [w]. *)
Definition idle (w : world) : process :=
  {| p_world := w; p_active := []; is_running := false; p_tasks := [] |}.

(** The items of a round of [_process_orders] from [items] on, as in
    [OrderLoop.process_order], until the task is suspended in the venue's
    swap or the round is over ([await asyncio.sleep(2)]). *)
Fixpoint advance (r : OrderLoop.round_env) (items : list (string * TradeOrder))
  (w : world) : world * task :=
  match items with
  | [] => (w, Loop)
  | (order_id, order) :: rest =>
    let expired :=
      match expires_at order with
      | Some t => Z.ltb t (utcnow (OrderLoop.outside r) (w_clock w))
      | None => false
      end in
    if expired then advance r rest w
    else if TradeType_eqb (trade_type order) LIMIT_BUY
            || TradeType_eqb (trade_type order) LIMIT_SELL
    then advance r rest w
    else if TradeType_eqb (trade_type order) SNIPE
    then
      let symbol := OrderLoop.get_token_symbol r (w_clock w) (output_token order) in
      let w := step w in
      if opt_string_eqb symbol (Some "UNKNOWN"%string) then advance r rest w
      else
        let '(w, res) := begin_market_order (OrderLoop.outside r) order_id order w in
        (w, LoopSwapping order_id order res rest)
    else advance r rest w
  end.

(** The task goes on to its next suspension.  A [_process_orders] task
    that finds no active order sleeps and tests again. *)
Definition resume (r : OrderLoop.round_env) (t : task) (running : bool)
  (s : world * active_orders) : world * active_orders * task :=
  let '(w, a) := s in
  match t with
  | Loop =>
    if running
    then let '(w, t) := advance r a w in (w, a, t)
    else (w, a, Finished)
  | LoopSwapping order_id order res rest =>
    let '(w, a) := finish_market_order (OrderLoop.outside r) order_id order res a w in
    let '(w, t) := advance r rest w in
    (w, a, t)
  | Market order_id order =>
    let '(w, res) := begin_market_order (OrderLoop.outside r) order_id order w in
    (w, a, MarketSwapping order_id order res)
  | MarketSwapping order_id order res =>
    let '(w, a) := finish_market_order (OrderLoop.outside r) order_id order res a w in
    (w, a, Finished)
  | Finished => (w, a, Finished)
  end.

(** The task that runs alone goes from suspension to suspension to the end
    of its round. *)
Fixpoint settle (r : OrderLoop.round_env) (fuel : nat) (s : world * active_orders)
  (t : task) : world * active_orders * task :=
  match fuel, t with
  | S fuel, LoopSwapping _ _ _ _ =>
    let '(w, a, t) := resume r t true s in settle r fuel (w, a) t
  | _, _ => (s, t)
  end.

(** What the event loop does next: a call of the engine, or a suspended
    task going on.  The rounds of the three other monitors are calls
    here. *)
Inductive move : Type :=
| Start
| Stop
| Call (rq : Session.request)
| Resume (k : nat).

Fixpoint put (k : nat) (t : task) (ts : list task) : list task :=
  match ts, k with
  | [], _ => []
  | _ :: rest, O => t :: rest
  | x :: rest, S k => x :: put k t rest
  end.

Section Engine.

Variable cfg : config.
Variable payment : option string.

(** [start_monitoring]: the flag is the only guard; the orders are loaded
    and a new [_process_orders] task is created whatever tasks are alive. *)
Definition start_monitoring (p : process) : process :=
  if is_running p then p
  else
    let '(w, a) := _load_active_orders cfg (p_active p) (p_world p) in
    {| p_world := w; p_active := a; is_running := true;
       p_tasks := p_tasks p ++ [Loop] |}.

(** [stop_monitoring] *)
Definition stop_monitoring (p : process) : process :=
  {| p_world := p_world p; p_active := p_active p; is_running := false;
     p_tasks := p_tasks p |}.

(** A call of the engine; [create_trade_order] leaves its task to the
    event loop. *)
Definition call (e : env) (rq : Session.request) (p : process) : process :=
  match rq with
  | Session.CreateTradeOrder validate_address order =>
    let '(w, a, created, _) :=
      Intake.create_trade_order cfg e validate_address order (p_active p) (p_world p) in
    {| p_world := w; p_active := a; is_running := is_running p;
       p_tasks := p_tasks p ++ match created with
                               | Some (order_id, order) => [Market order_id order]
                               | None => []
                               end |}
  | _ =>
    let '(w, a) := Session.serve cfg payment e rq (p_world p, p_active p) in
    {| p_world := w; p_active := a; is_running := is_running p; p_tasks := p_tasks p |}
  end.

Definition go_on (r : OrderLoop.round_env) (k : nat) (p : process) : process :=
  match nth_error (p_tasks p) k with
  | Some t =>
    let '(w, a, t) := resume r t (is_running p) (p_world p, p_active p) in
    {| p_world := w; p_active := a; is_running := is_running p;
       p_tasks := put k t (p_tasks p) |}
  | None => p
  end.

Definition perform (r : OrderLoop.round_env) (m : move) (p : process) : process :=
  match m with
  | Start => start_monitoring p
  | Stop => stop_monitoring p
  | Call rq => call (OrderLoop.outside r) rq p
  | Resume k => go_on r k p
  end.

Fixpoint run (l : list (OrderLoop.round_env * move)) (p : process) : process :=
  match l with
  | [] => p
  | (r, m) :: rest => run rest (perform r m p)
  end.

(** The trades of the user that are stored carry stamps earlier than the
    present. *)
Definition stamps_earlier (e : env) (user : Z) (w : world) : bool :=
  forallb (fun d => negb (Z.eqb (t_user_id d) user)
                    || Z.ltb (t_created_at d) (utcnow e (w_clock w)))
          (w_trades w).

(** Every order of the run is created later than the stored trades of its
    user. *)
Fixpoint timely (l : list (OrderLoop.round_env * move)) (p : process) : bool :=
  match l with
  | [] => true
  | (r, m) :: rest =>
    match m with
    | Call (Session.CreateTradeOrder _ order) =>
      stamps_earlier (OrderLoop.outside r) (user_id order) (p_world p)
    | _ => true
    end && timely rest (perform r m p)
  end.

End Engine.

(** The monitoring is not started again, and active orders are executed by
    the tasks only. *)
Definition steady (m : move) : bool :=
  match m with
  | Start => false
  | Call rq => negb (Session.runs_orders rq)
  | _ => true
  end.


(** The swaps requested from the venue for an active order. *)
Definition exec (order_id : string) (w : world) : nat :=
  LimitMonitor.swaps_of (ActiveOrder order_id) (w_trace w).

Definition by_driver (d : trade_doc) : Prop := exists h, t_id d = ObjectId h.

Definition orders_watched : Session.watch :=
  {| Session.entries := false; Session.triggers := true; Session.actives := true |}.

(** Between [w] and [w'] no swap was requested for an order. *)
Definition still (w w' : world) : Prop := Session.calm by_driver orders_watched w w'.









End Tasks.

(* ================================================================== *)
(** ** What the statements below observe *)

Module Observe.

(** The personal maximum [execute_market_buy] reads:
    [settings.trading.max_amount], the global maximum by default. *)
Definition personal_max (cfg : config) (e : env) (user : Z) : Q :=
  match get_user e user with
  | Some u => dflt (MAX_TRADE_AMOUNT cfg) (u_trading_max_amount u)
  | None => MAX_TRADE_AMOUNT cfg
  end.

(** What a market order may add to the trades. *)
Definition appended (user : Z) (ts ts' : list trade_doc) : Prop :=
  ts' = ts
  \/ exists d, ts' = ts ++ [d]
               /\ t_status d = "completed"%string /\ t_user_id d = user
               /\ t_stop_loss d = None /\ t_entry_price d = None
               /\ (exists h, t_id d = ObjectId h)
               /\ ~ In (t_id d) (map t_id ts).

(** A list of orders runs from the newest to the oldest. *)
Fixpoint newest_first (l : list order_doc) : Prop :=
  match l with
  | [] => True
  | x :: r => (forall y, In y r -> (o_created_at y <= o_created_at x)%Z) /\ newest_first r
  end.

(** The venue executed the swap and its answer carries the three keys
    [_execute_market_order] reads. *)
Definition fully_answered (res : swap_result) : bool :=
  sr_success res
  && match sr_signature res, sr_output_amount res, sr_price_impact res with
     | Some _, Some _, Some _ => true
     | _, _, _ => false
     end.

(** The status [_execute_market_order] leaves a stored trade in: completed
    when the venue answered in full, unless the signature of the answer is
    one another trade of the store [w] holds (the index then refuses the
    write, and the status stays as written before the swap); failed
    otherwise. *)
Definition settled_status (w : world) (order_id : string) (res : swap_result) : string :=
  if fully_answered res then
    match sr_signature res with
    | Some sig =>
      if signature_taken (ObjectId order_id) sig (w_trades w)
      then "executing"%string else "completed"%string
    | None => "completed"%string
    end
  else "failed"%string.

(** An order the loop of [_process_orders] passes over in each of the
    rounds [rs]: it is not a snipe, or it is expired whenever looked at. *)
Definition passed_over (rs : list OrderLoop.round_env) (order : TradeOrder) : Prop :=
  trade_type order <> SNIPE
  \/ exists t, expires_at order = Some t
               /\ forall r n, In r rs -> (t < utcnow (OrderLoop.outside r) n)%Z.

(** Between [s] and [s'] the order [order_id] was not executed and is
    active as before, or it was executed once, having been active, and is
    active no more. *)
Definition ran_at_most_once (order_id : string) (s s' : world * active_orders) : Prop :=
  let swaps (x : world * active_orders) :=
    LimitMonitor.swaps_of (ActiveOrder order_id) (w_trace (fst x)) in
  (swaps s' = swaps s
   /\ (In order_id (OrderLoop.keys (snd s')) <-> In order_id (OrderLoop.keys (snd s))))
  \/ (swaps s' = S (swaps s)
      /\ In order_id (OrderLoop.keys (snd s))
      /\ ~ In order_id (OrderLoop.keys (snd s'))).

End Observe.

(* ================================================================== *)
(** ** More sample data *)

Module MoreExamples.
Import Examples.

Definition premium_user : user_doc :=
  {| u_user_id := 42; u_subscription_tier := Some "premium"%string;
     u_max_trade_amount := None; u_trading_max_amount := None |}.

(** As [priced_env], with every user known and on the premium tier. *)
Definition market_env (price : Q) : env :=
  {| get_token_price := fun _ _ => price;
     execute_swap := fun n _ _ amt _ =>
       {| sr_success := true; sr_signature := Some (numbered "sig" n);
          sr_output_amount := Some amt; sr_price_impact := Some 0;
          sr_error := None |};
     new_object_id := numbered "5f00000000000000000000";
     utcnow := fun n => Z.of_nat n;
     get_user := fun _ => Some premium_user;
     get_wallet_transactions := fun _ _ => [] |}.

(** As [market_env], with a venue that answers every swap with the same
    signature. *)
Definition repeating_env : env :=
  {| get_token_price := fun _ _ => 10;
     execute_swap := fun _ _ _ amt _ =>
       {| sr_success := true; sr_signature := Some "sig-7"%string;
          sr_output_amount := Some amt; sr_price_impact := Some 0;
          sr_error := None |};
     new_object_id := numbered "5f00000000000000000000";
     utcnow := fun n => Z.of_nat n;
     get_user := fun _ => Some premium_user;
     get_wallet_transactions := fun _ _ => [] |}.

(** A market buy of user 42 with a stop loss of 10%. *)
Definition guarded_buy : TradeOrder :=
  {| user_id := 42; trade_type := BUY;
     input_token := SOL_MINT; output_token := "TokenMint";
     amount := 1; price := None; slippage := 1;
     stop_loss := Some 10; take_profit := None; expires_at := None;
     copy_wallet := None; created_at := 0 |}.

(** A limit buy of user 42 among the active orders, and a snipe. *)
Definition active_limit_buy : TradeOrder :=
  {| user_id := 42; trade_type := LIMIT_BUY;
     input_token := SOL_MINT; output_token := "TokenMint";
     amount := 1; price := Some 10; slippage := 1;
     stop_loss := None; take_profit := None; expires_at := None;
     copy_wallet := None; created_at := 0 |}.

Definition live_snipe : TradeOrder :=
  {| user_id := 42; trade_type := SNIPE;
     input_token := SOL_MINT; output_token := "NewMint";
     amount := 1; price := None; slippage := 1;
     stop_loss := None; take_profit := None; expires_at := None;
     copy_wallet := None; created_at := 0 |}.

Definition some_active_orders : active_orders :=
  [("5f00000000000000000000d1"%string, active_limit_buy);
   ("5f00000000000000000000d2"%string, live_snipe)].

(** A round in which every token is known by its symbol. *)
Definition listed_round : OrderLoop.round_env :=
  {| OrderLoop.outside := market_env 10;
     OrderLoop.get_token_symbol := fun _ _ => Some "TKN"%string |}.

(** The order is created and executed at the price 10, a limit order is
    created, and then both monitors run with the price at 1. *)
Definition crash_session : list (env * Session.request) :=
  [ (market_env 10, Session.CreateTradeOrder (fun _ => true) guarded_buy);
    (market_env 10,
     Session.ExecuteMarketOrder (numbered "5f00000000000000000000" 0) guarded_buy);
    (market_env 10, Session.CreateLimitOrder 42 "TokenMint" 1);
    (market_env 1, Session.StopLossRound);
    (market_env 1, Session.LimitRound) ].


(** As [market_env], with a clock that stands still. *)
Definition frozen_env : env :=
  {| get_token_price := fun _ _ => 10;
     execute_swap := fun n _ _ amt _ =>
       {| sr_success := true; sr_signature := Some (numbered "sig" n);
          sr_output_amount := Some amt; sr_price_impact := Some 0;
          sr_error := None |};
     new_object_id := numbered "5f00000000000000000000";
     utcnow := fun _ => 0%Z;
     get_user := fun _ => Some premium_user;
     get_wallet_transactions := fun _ _ => [] |}.

Definition frozen_round : OrderLoop.round_env :=
  {| OrderLoop.outside := frozen_env;
     OrderLoop.get_token_symbol := fun _ _ => Some "TKN"%string |}.

(** A market buy is created and executed; a second one is created at the
    same instant and executed. *)
Definition same_instant_schedule : list (OrderLoop.round_env * Tasks.move) :=
  [ (frozen_round, Tasks.Call (Session.CreateTradeOrder (fun _ => true) guarded_buy));
    (frozen_round, Tasks.Resume 1);
    (frozen_round, Tasks.Resume 1);
    (frozen_round, Tasks.Call (Session.CreateTradeOrder (fun _ => true) guarded_buy));
    (frozen_round, Tasks.Resume 2);
    (frozen_round, Tasks.Resume 2) ].

(** After the one start of the monitoring: a snipe is created and the
    task requests its swap; the stop-loss monitor runs meanwhile; the task
    has its answer; a market buy is created, its task requests the swap,
    the task of the active orders runs a round, and the market task has
    its answer. *)
Definition busy_schedule : list (OrderLoop.round_env * Tasks.move) :=
  [ (listed_round, Tasks.Call (Session.CreateTradeOrder (fun _ => true) live_snipe));
    (listed_round, Tasks.Resume 0);
    (listed_round, Tasks.Call Session.StopLossRound);
    (listed_round, Tasks.Resume 0);
    (listed_round, Tasks.Call (Session.CreateTradeOrder (fun _ => true) guarded_buy));
    (listed_round, Tasks.Resume 1);
    (listed_round, Tasks.Resume 0);
    (listed_round, Tasks.Resume 1) ].

(** A completed market sell, as [execute_market_sell] stores it. *)
Definition sell_receipt (i : bson_id) (now : Z) : trade_doc :=
  {| t_id := i; t_user_id := 42; t_trade_type := "market_sell";
     t_input_token := Some "TokenMint"%string; t_output_token := Some "SOL"%string;
     t_amount := Some 5; t_output_amount := None;
     t_status := "completed"; t_signature := Some "sig-b2"%string;
     t_stop_loss := None; t_entry_price := None;
     t_stop_loss_triggered := false; t_stop_loss_price := None;
     t_created_at := now; t_updated_at := None;
     t_price := None; t_slippage := None; t_take_profit := None;
     t_expires_at := None; t_copy_wallet := None |}.

(** A pending limit sell of user 42: 5 "TokenMint" for "SOL" once the
    price read for the order is 12 or above. *)
Definition limit_sell_at_12 : order_doc :=
  {| o_id := ObjectId "5f00000000000000000000b2"; o_user_id := 42;
     o_trade_type := Some "limit_sell"%string;
     o_input_token := Some "TokenMint"%string; o_output_token := Some "SOL"%string;
     o_amount_sol := None; o_amount_tokens := Some 5;
     o_price := Some 12; o_expires_at := None;
     o_status := "pending"; o_created_at := 0; o_execution_price := None |}.

(** User 42 subscribes twice to "Whale" and unsubscribes in between. *)
Definition keen_settings : copy_settings :=
  {| cs_enabled := None; cs_copy_percentage := Some 50;
     cs_max_copy_amount := None; cs_min_trade_amount := None;
     cs_copy_delay := None; cs_risk_level := None |}.

(** Two allocations: one of user 7, one of user 8. *)
Definition two_snipes : Store.snipe_store :=
  [ one_sol_snipe;
    {| Snipe.so_id := ObjectId "5f0000000000000000000003"; Snipe.so_user_id := 8;
       Snipe.so_max_amount := 2; Snipe.so_slippage := 1; Snipe.so_status := "active";
       Snipe.so_executed_trades := []; Snipe.so_total_spent := 0 |} ].

End MoreExamples.
(* ================================================================== *)
(** * Properties *)

(** ** Numbers *)

Lemma Qleb_le (x y : Q) : Qleb x y = true <-> (x <= y)%Q.
Proof. unfold Qleb. apply Qle_bool_iff. Qed.

Lemma Qltb_lt (x y : Q) : Qltb x y = true <-> (x < y)%Q.
Proof.
  unfold Qltb. rewrite negb_true_iff.
  split; intro H.
  - apply Qnot_le_lt. intro Hle. apply Qle_bool_iff in Hle. congruence.
  - destruct (Qle_bool y x) eqn:E; [|reflexivity].
    apply Qle_bool_iff in E. exfalso. apply (Qlt_not_le _ _ H E).
Qed.

Lemma Qltb_ge (x y : Q) : Qltb x y = false <-> (y <= x)%Q.
Proof.
  unfold Qltb. rewrite negb_false_iff. apply Qle_bool_iff.
Qed.



Lemma py_min_le_l (a b : Q) : (py_min a b <= a)%Q.
Proof.
  unfold py_min. destruct (Qltb b a) eqn:E.
  - apply Qltb_lt in E. lra.
  - lra.
Qed.

Lemma py_min_le_r (a b : Q) : (py_min a b <= b)%Q.
Proof.
  unfold py_min. destruct (Qltb b a) eqn:E.
  - lra.
  - apply Qltb_ge in E. lra.
Qed.

(** ** The store and market execution *)

Module MarketFacts.

Lemma store_trade_trace e w doc :
  w_trace (fst (store_trade e w doc)) = w_trace w.
Proof. unfold store_trade. destruct (existsb _ _); reflexivity. Qed.

Lemma store_trade_orders e w doc :
  w_orders (fst (store_trade e w doc)) = w_orders w.
Proof. unfold store_trade. destruct (existsb _ _); reflexivity. Qed.

Lemma store_trade_subs e w doc :
  w_subs (fst (store_trade e w doc)) = w_subs w.
Proof. unfold store_trade. destruct (existsb _ _); reflexivity. Qed.

(** The fee deduction touches neither the store nor the trace; the answer
    is a success when the engine has a payment service. *)
Lemma deduct_fee_and_answer_world payment res w :
  let r := deduct_fee_and_answer payment res w in
  w_trace (fst r) = w_trace w /\ w_trades (fst r) = w_trades w
  /\ w_orders (fst r) = w_orders w /\ w_subs (fst r) = w_subs w
  /\ r_success (snd r) = has_payment payment.
Proof. unfold deduct_fee_and_answer. destruct payment; simpl; auto. Qed.

(** What a market sell leaves in the trace: the submission and the call of
    the venue.  It answers with a success when the venue executed the swap
    and the engine has a payment service. *)
Lemma execute_market_sell_trace cfg payment e o user token amt w :
  let ok := sr_success (execute_swap e (w_clock w) token SOL_MINT amt (DEFAULT_SLIPPAGE cfg)) in
  w_trace (fst (execute_market_sell cfg payment e o user token amt w)) =
    w_trace w ++ [ev_submit o Sell user token amt;
                  ev_swap o token SOL_MINT amt (DEFAULT_SLIPPAGE cfg) ok]
  /\ r_success (snd (execute_market_sell cfg payment e o user token amt w))
     = ok && has_payment payment.
Proof.
  unfold execute_market_sell. simpl.
  destruct (sr_success _) eqn:Hok.
  - match goal with |- context [store_trade ?e ?w ?d] =>
      pose proof (store_trade_trace e w d) as Ht;
      destruct (store_trade e w d) as [w1 b] end.
    simpl in Ht.
    match goal with |- context [deduct_fee_and_answer ?p ?r ?w] =>
      destruct (deduct_fee_and_answer_world p r w) as (Hd & _ & _ & _ & Hs) end.
    rewrite Hd, Hs, Ht. simpl. rewrite <- app_assoc. auto.
  - simpl. rewrite <- app_assoc. auto.
Qed.

(** A market buy submits, and calls the venue at most once. *)
Lemma execute_market_buy_trace cfg payment e o user token amt w :
  exists called : bool,
    w_trace (fst (execute_market_buy cfg payment e o user token amt w)) =
      w_trace w ++ ev_submit o Buy user token amt ::
        (if called
         then [ev_swap o SOL_MINT token amt (DEFAULT_SLIPPAGE cfg)
                 (sr_success (execute_swap e (w_clock w) SOL_MINT token amt
                                (DEFAULT_SLIPPAGE cfg)))]
         else []).
Proof.
  unfold execute_market_buy. simpl.
  destruct (_ || _); [exists false; reflexivity|].
  destruct (Qltb _ amt); [exists false; reflexivity|].
  exists true.
  destruct (sr_success _) eqn:Hok.
  - match goal with |- context [store_trade ?e ?w ?d] =>
      pose proof (store_trade_trace e w d) as Ht;
      destruct (store_trade e w d) as [w1 b] end.
    simpl in Ht.
    match goal with |- context [deduct_fee_and_answer ?p ?r ?w] =>
      destruct (deduct_fee_and_answer_world p r w) as (Hd & _) end.
    rewrite Hd, Ht. simpl. rewrite <- app_assoc. reflexivity.
  - simpl. rewrite <- app_assoc. reflexivity.
Qed.

Lemma execute_market_buy_subs cfg payment e o user token amt w :
  w_subs (fst (execute_market_buy cfg payment e o user token amt w)) = w_subs w.
Proof.
  unfold execute_market_buy. simpl.
  destruct (_ || _); [reflexivity|].
  destruct (Qltb _ amt); [reflexivity|].
  destruct (sr_success _); [|reflexivity].
  match goal with |- context [store_trade ?e ?w ?d] =>
    pose proof (store_trade_subs e w d) as Hs;
    destruct (store_trade e w d) as [w1 b] end.
  match goal with |- context [deduct_fee_and_answer ?p ?r ?w] =>
    destruct (deduct_fee_and_answer_world p r w) as (_ & _ & _ & Hd & _) end.
  rewrite Hd. exact Hs.
Qed.

Lemma execute_market_sell_subs cfg payment e o user token amt w :
  w_subs (fst (execute_market_sell cfg payment e o user token amt w)) = w_subs w.
Proof.
  unfold execute_market_sell. simpl.
  destruct (sr_success _); [|reflexivity].
  match goal with |- context [store_trade ?e ?w ?d] =>
    pose proof (store_trade_subs e w d) as Hs;
    destruct (store_trade e w d) as [w1 b] end.
  match goal with |- context [deduct_fee_and_answer ?p ?r ?w] =>
    destruct (deduct_fee_and_answer_world p r w) as (_ & _ & _ & Hd & _) end.
  rewrite Hd. exact Hs.
Qed.

End MarketFacts.

(** ** Order validation *)

Module ValidatorFacts.
Import Validator Examples.

(** C8, as stated, fails.  A free-tier user submits a copy-trade order whose
    amount is below the global minimum: in the order of the specification
    the amount check fails first, but the code reports the feature gate,
    which it checks before the amount.  And a free-tier snipe order, which
    the specification gates, is accepted. *)
Lemma validation_order_differs :
  let v := _validate_order default_config (fun _ => Some free_user) (fun _ => true) in
  let s := fun o => first_failing (spec_checks default_config (fun _ => true) free_user o) in
  v tiny_copy_order = (false, CopyTradingRequiresPremium)
  /\ s tiny_copy_order = (false, MinimumTradeAmount (1 # 100))
  /\ v tiny_copy_order <> s tiny_copy_order
  /\ v free_snipe_order = (true, OrderValidated)
  /\ s free_snipe_order = (false, SnipeRequiresPremium).
Proof.
  cbv zeta. repeat split; try reflexivity.
  vm_compute. discriminate.
Qed.

(** C8, amended: validation looks the user up, then checks in this order:
    the copy-trade gate for the free tier, the global minimum, the global
    maximum, the personal maximum, the input address, the output address,
    the slippage range; it returns the reason of the first check that
    fails, and there is no gate on snipe orders.  Validation is a function
    of the order, the user record and the address check: it changes no
    state. *)
Theorem validate_order_first_failing :
  forall cfg get_user validate_address order,
    _validate_order cfg get_user validate_address order =
    match get_user (user_id order) with
    | None => (false, UserNotFound)
    | Some user => first_failing (code_checks cfg validate_address user order)
    end.
Proof.
  intros cfg get_user validate_address order.
  unfold _validate_order, code_checks.
  destruct (get_user (user_id order)) as [user|]; [|reflexivity].
  cbv zeta. simpl first_failing.
  destruct (_ && _); [reflexivity|]. simpl negb. cbv iota.
  do 3 (destruct (Qltb _ _); [reflexivity|]; simpl negb; cbv iota).
  do 2 (destruct (validate_address _); simpl negb; cbv iota; [|reflexivity]).
  destruct (_ || _); reflexivity.
Qed.

End ValidatorFacts.

(** ** Subscribing to a wallet *)

Module SubscribeFacts.
Import Subscribe.

Lemma engine_has_no_analyzer : getattr TradingEngine "analyzer" = None.
Proof. reflexivity. Qed.

(** C10: on the engine that [__init__] builds, [subscribe_copy_trading] never
    returns success.  When the address is valid and the store takes the
    insert, the subscription is stored as active with the merged settings,
    and the caller is still told of a failure, because reading
    [self.analyzer] raises. *)
Theorem subscribe_never_succeeds :
  forall e validate_address acknowledged user wallet settings w,
    let r := subscribe_copy_trading TradingEngine e validate_address acknowledged
               user wallet settings w in
    fst (snd r) = false
    /\ (if validate_address wallet && acknowledged
        then w_subs (fst r) =
             w_subs w ++
             [ {| sub_user_id := user; sub_wallet_address := wallet;
                  sub_copy_settings := Some (merge_settings settings);
                  sub_created_at := utcnow e (w_clock w); sub_is_active := true |} ]
             /\ snd r = (false,
                  "Error: 'TradingEngine' object has no attribute 'analyzer'"%string)
        else w_subs (fst r) = w_subs w).
Proof.
  intros e validate_address acknowledged user wallet settings w.
  unfold subscribe_copy_trading, store_copy_trading_subscription.
  rewrite engine_has_no_analyzer.
  destruct (validate_address wallet); destruct acknowledged; simpl; auto.
Qed.

End SubscribeFacts.

(** ** Cancellation *)

Module CancelFacts.
Import Cancel Examples.

(** The lookup filters on the string: a trade stored under an [ObjectId]
    is not found by the rendering of its identifier, whatever its status. *)
Example cancel_pending_not_found :
  is_pending pending_trade
  /\ snd (cancel_user_order quiet_env 42 (py_str (t_id pending_trade)) [] pending_world)
     = (false, "Order not found"%string).
Proof. split; reflexivity. Qed.

(** C4, evaluated where the code fails it.  User 42 creates a snipe order:
    it is stored as pending under the [ObjectId] the driver gives it, and
    registered among the active orders.  The user then cancels it, by the
    identifier the engine answered with.  [cancel_user_order] looks the
    order up with the string as [_id], finds nothing, and answers "Order
    not found": the order stays pending and active.  ([update_trade_status],
    which it would call next, converts the string with [ObjectId(...)].) *)
Theorem pending_order_is_not_cancelled :
  let order_id := numbered "5f00000000000000000000" 0 in
  let created :=
    Intake.create_trade_order default_config (MoreExamples.market_env 10) (fun _ => true)
      MoreExamples.live_snipe [] empty_world in
  let w1 := fst (fst (fst created)) in
  let a1 := snd (fst (fst created)) in
  let cancelled := cancel_user_order (MoreExamples.market_env 10) 42 order_id a1 w1 in
  snd created
  = (true, Intake.Message ("Order created successfully. ID: " ++ order_id))
  /\ map (fun d => (t_id d, t_user_id d, t_status d)) (w_trades w1)
     = [(ObjectId order_id, 42%Z, "pending"%string)]
  /\ OrderLoop.keys a1 = [order_id]
  /\ snd cancelled = (false, "Order not found"%string)
  /\ map t_status (w_trades (fst (fst cancelled))) = ["pending"%string]
  /\ snd (fst cancelled) = a1.
Proof. vm_compute. repeat split; reflexivity. Qed.

End CancelFacts.

(** ** Snipe allocations *)

Module SnipeFacts.
Import Snipe Examples.

Section Invariant.

Variable cfg : config.
Variable payment : option string.

(** One call keeps the cap and keeps the spending within it. *)
Lemma execute_snipe_trade_keeps_budget e so token w :
  (so_total_spent so <= so_max_amount so)%Q ->
  let so' := snd (fst (execute_snipe_trade cfg payment e so token w)) in
  so_max_amount so' = so_max_amount so
  /\ (so_total_spent so <= so_total_spent so')%Q
  /\ (so_total_spent so' <= so_max_amount so')%Q.
Proof.
  intro Hinv. unfold execute_snipe_trade.
  destruct (Qleb (so_max_amount so) (so_total_spent so)) eqn:Hfull.
  { simpl. repeat split; lra. }
  destruct (Qltb _ (1 # 100)) eqn:Hsmall.
  { simpl. repeat split; lra. }
  destruct (execute_market_buy _ _ _ _ _ _ _ _) as [w1 result].
  destruct (r_success result).
  - simpl.
    assert (Hle := py_min_le_l (so_max_amount so - so_total_spent so)
                               (so_max_amount so * (2 # 10))).
    apply Qltb_ge in Hsmall.
    repeat split; lra.
  - simpl. repeat split; lra.
Qed.

(** The increment of a call: the smaller of what remains and a fifth of the
    cap, at least 0.01, added only when the child trade succeeded. *)
Lemma execute_snipe_trade_increment e so token w :
  let '(_, so', r) := execute_snipe_trade cfg payment e so token w in
  let inc := py_min (so_max_amount so - so_total_spent so) (so_max_amount so * (2 # 10)) in
  if r_success r
  then so_total_spent so' = (so_total_spent so + inc)%Q /\ (1 # 100 <= inc)%Q
       /\ List.length (so_executed_trades so') = S (List.length (so_executed_trades so))
  else so' = so.
Proof.
  unfold execute_snipe_trade.
  destruct (Qleb _ _); [reflexivity|].
  destruct (Qltb _ (1 # 100)) eqn:Hsmall; [reflexivity|].
  destruct (execute_market_buy _ _ _ _ _ _ _ _) as [w1 result].
  destruct (r_success result) eqn:Hok; simpl.
  - apply Qltb_ge in Hsmall. rewrite length_app. simpl. repeat split; [assumption|lia].
  - rewrite Hok. reflexivity.
Qed.

Lemma run_snipes_keeps_budget calls : forall so w,
  (so_total_spent so <= so_max_amount so)%Q ->
  let so' := snd (run_snipes cfg payment calls so w) in
  so_max_amount so' = so_max_amount so
  /\ (so_total_spent so' <= so_max_amount so')%Q.
Proof.
  induction calls as [|[e token] rest IH]; intros so w Hinv.
  - simpl. split; [reflexivity|assumption].
  - simpl.
    pose proof (execute_snipe_trade_keeps_budget e so token w Hinv) as Hstep.
    destruct (execute_snipe_trade cfg payment e so token w) as [[w1 so1] r1].
    simpl in Hstep. destruct Hstep as (Hmax & _ & Hle).
    specialize (IH so1 w1 Hle). simpl in IH.
    destruct IH as [IHmax IHle]. split; [congruence|assumption].
Qed.

End Invariant.

(** C2: for a snipe allocation as [create_snipe_order] creates it, after any
    sequence of [execute_snipe_trade] calls, whatever the venue answers,
    the cap is the one set at creation and [total_spent <= max_amount]. *)
Theorem snipe_spent_never_exceeds_max :
  forall cfg payment new_id user c so calls w,
    create_snipe_order new_id user c = inl so ->
    let so' := snd (run_snipes cfg payment calls so w) in
    so_max_amount so' = so_max_amount so
    /\ (so_total_spent so' <= so_max_amount so')%Q.
Proof.
  intros cfg payment new_id user c so calls w Hcreate.
  apply run_snipes_keeps_budget.
  unfold create_snipe_order in Hcreate.
  destruct (sc_max_amount c) as [m|]; [|discriminate].
  destruct (sc_slippage c); [|discriminate].
  destruct (sc_take_profit c); [|discriminate].
  destruct (sc_stop_loss c); [|discriminate].
  destruct (Qltb m (1 # 100)) eqn:Hlow; [discriminate|].
  simpl in Hcreate. destruct (Qltb 10 m); [discriminate|].
  inversion Hcreate; subst; simpl.
  apply Qltb_ge in Hlow. lra.
Qed.

Lemma snipe_spent_never_exceeds_max_witness :
  let so' := snd (run_snipes default_config wired
                    [(willing_env, "TokenMint"%string); (willing_env, "TokenMint"%string);
                     (quiet_env, "TokenMint"%string); (willing_env, "TokenMint"%string);
                     (willing_env, "TokenMint"%string); (willing_env, "TokenMint"%string);
                     (willing_env, "TokenMint"%string)]
                    one_sol_snipe empty_world) in
  so_max_amount so' = so_max_amount one_sol_snipe
  /\ (so_total_spent so' <= so_max_amount so')%Q.
Proof.
  apply (@snipe_spent_never_exceeds_max default_config wired (ObjectId "5f0000000000000000000001")
           7%Z one_sol_config one_sol_snipe).
  reflexivity.
Defined.

(** The scenario of the specification: with a cap of 1.0 the increments are
    0.2; five successful calls spend exactly the cap and a sixth call
    trades nothing. *)
Example snipe_five_increments :
  let '(w5, so5) := run_snipes default_config wired
                      (repeat (willing_env, "TokenMint"%string) 5) one_sol_snipe empty_world in
  let '(w6, so6) := run_snipes default_config wired
                      [(willing_env, "TokenMint"%string)] so5 w5 in
  (so_total_spent so5 == 1)%Q
  /\ List.length (so_executed_trades so5) = 5%nat
  /\ (so_total_spent so6 == 1)%Q
  /\ w_trace w6 = w_trace w5.
Proof. vm_compute. repeat split; reflexivity. Qed.

End SnipeFacts.

(** ** Limit orders *)

Module LimitFacts.
Import LimitMonitor MarketFacts Examples.

(** [update_order_status] filters on the string: it changes no order whose
    [_id] is an [ObjectId]. *)
Lemma update_order_status_skips_object_ids w order_id s px :
  (forall d, In d (w_orders w) -> exists h, o_id d = ObjectId h) ->
  w_orders (fst (update_order_status w order_id s px)) = w_orders w.
Proof.
  intro Hoid. unfold update_order_status, update_order. simpl.
  rewrite <- (map_id (w_orders w)) at 2.
  apply map_ext_in. intros d Hd.
  destruct (Hoid d Hd) as [h Hh]. rewrite Hh. reflexivity.
Qed.

Lemma execute_market_buy_orders cfg payment e o user token amt w :
  w_orders (fst (execute_market_buy cfg payment e o user token amt w)) = w_orders w.
Proof.
  unfold execute_market_buy. simpl.
  destruct (_ || _); [reflexivity|].
  destruct (Qltb _ amt); [reflexivity|].
  destruct (sr_success _); [|reflexivity].
  match goal with |- context [store_trade ?e ?w ?d] =>
    pose proof (store_trade_orders e w d) as Hs;
    destruct (store_trade e w d) as [w1 b] end.
  match goal with |- context [deduct_fee_and_answer ?p ?r ?w] =>
    destruct (deduct_fee_and_answer_world p r w) as (_ & _ & Hd & _) end.
  rewrite Hd. exact Hs.
Qed.

Lemma execute_market_sell_orders cfg payment e o user token amt w :
  w_orders (fst (execute_market_sell cfg payment e o user token amt w)) = w_orders w.
Proof.
  unfold execute_market_sell. simpl.
  destruct (sr_success _); [|reflexivity].
  match goal with |- context [store_trade ?e ?w ?d] =>
    pose proof (store_trade_orders e w d) as Hs;
    destruct (store_trade e w d) as [w1 b] end.
  match goal with |- context [deduct_fee_and_answer ?p ?r ?w] =>
    destruct (deduct_fee_and_answer_world p r w) as (_ & _ & Hd & _) end.
  rewrite Hd. exact Hs.
Qed.

(** A check leaves the orders inserted by the driver as they are, whatever
    the outcome of the execution. *)
Lemma check_limit_order_keeps_orders cfg payment e order_id order w :
  (forall d, In d (w_orders w) -> exists h, o_id d = ObjectId h) ->
  w_orders (_check_limit_order cfg payment e order_id order w) = w_orders w.
Proof.
  intro Hoid. unfold _check_limit_order.
  destruct (o_output_token order) as [tok|]; [|reflexivity].
  destruct (Qeq_bool _ 0); [reflexivity|].
  match goal with
  | |- w_orders (if ?c then _ else _) = _ => destruct c; [|reflexivity]
  end.
  assert (Hdone : forall w1 result,
            w_orders w1 = w_orders w ->
            w_orders (if r_success result
                      then let '(w2, _) := update_order_status w1 order_id "completed"
                                             (Some (get_token_price e (w_clock w) tok)) in
                           emit w2 (ev_alert (o_user_id order) "limit_order")
                      else fst (update_order_status w1 order_id "failed" None))
            = w_orders w).
  { intros w1 result Hw1.
    assert (Hoid1 : forall d, In d (w_orders w1) -> exists h, o_id d = ObjectId h)
      by (rewrite Hw1; exact Hoid).
    destruct (r_success result).
    - pose proof (update_order_status_skips_object_ids w1 order_id "completed"
                    (Some (get_token_price e (w_clock w) tok)) Hoid1) as Hu.
      destruct (update_order_status w1 order_id "completed" _) as [w2 b].
      simpl in *. congruence.
    - rewrite (update_order_status_skips_object_ids w1 order_id "failed" None Hoid1).
      exact Hw1. }
  destruct (String.eqb _ "limit_buy").
  - destruct (o_amount_sol order) as [a|]; [|reflexivity].
    pose proof (execute_market_buy_orders cfg payment e (LimitOrder order_id) (o_user_id order)
                  tok a (step w)) as Hb.
    destruct (execute_market_buy _ _ _ _ _ _ _ _) as [w1 result].
    apply Hdone. exact Hb.
  - destruct (o_input_token order) as [tin|]; [|reflexivity].
    destruct (o_amount_tokens order) as [a|]; [|reflexivity].
    pose proof (execute_market_sell_orders cfg payment e (LimitOrder order_id) (o_user_id order)
                  tin a (step w)) as Hb.
    destruct (execute_market_sell _ _ _ _ _ _ _ _) as [w1 result].
    apply Hdone. exact Hb.
Qed.

(** No round of the monitor changes the status of an order the driver
    inserted: a pending limit order stays pending after it was executed. *)
Lemma limit_round_keeps_orders cfg payment e w :
  (forall d, In d (w_orders w) -> exists h, o_id d = ObjectId h) ->
  w_orders (_monitor_limit_orders cfg payment e w) = w_orders w.
Proof.
  intro Hoid. unfold _monitor_limit_orders.
  generalize (get_all_pending_orders w). intro l.
  assert (Hfold : forall w0,
            (forall d, In d (w_orders w0) -> exists h, o_id d = ObjectId h) ->
            w_orders (fold_left
                        (fun w1 order =>
                           _check_limit_order cfg payment e (py_str (o_id order)) order w1)
                        l w0) = w_orders w0).
  { induction l as [|order l IH]; intros w0 Hoid0; simpl; [reflexivity|].
    pose proof (check_limit_order_keeps_orders cfg payment e (py_str (o_id order)) order w0 Hoid0)
      as Hc.
    rewrite IH; [exact Hc|]. rewrite Hc. exact Hoid0. }
  apply (Hfold (step w)). exact Hoid.
Qed.

(** The check never reads the expiry of the order. *)
Lemma check_limit_order_ignores_expiry cfg payment e order_id order expiry w :
  _check_limit_order cfg payment e order_id (with_expiry order expiry) w
  = _check_limit_order cfg payment e order_id order w.
Proof. reflexivity. Qed.

(** A check of a limit buy with trigger [P > 0], at an available price
    [C]: the market buy is submitted when [C <= P], and nothing is done
    otherwise.  The expiry of the order and the clock play no part. *)
Lemma limit_buy_triggers_iff cfg payment e order_id order w tok P a :
  let C := get_token_price e (w_clock w) tok in
  let w' := _check_limit_order cfg payment e order_id order w in
  o_output_token order = Some tok ->
  o_trade_type order = Some "limit_buy"%string ->
  o_price order = Some P -> (0 < P)%Q ->
  o_amount_sol order = Some a ->
  ~ (C == 0)%Q ->
  ((C <= P)%Q ->
     exists rest,
       w_trace w' = w_trace w ++ ev_submit (LimitOrder order_id) Buy (o_user_id order) tok a
                                 :: rest)
  /\ (~ (C <= P)%Q -> w_trace w' = w_trace w).
Proof.
  intros C w' Htok Hty Hpx HP Ha HC.
  unfold w', _check_limit_order. rewrite Htok, Hty, Hpx, Ha. simpl dflt.
  fold C.
  destruct (Qeq_bool C 0) eqn:HC0; [apply Qeq_bool_iff in HC0; contradiction|].
  change (String.eqb "limit_buy" "limit_buy") with true. simpl andb.
  apply Qltb_lt in HP. rewrite HP.
  split.
  - intro Hle. apply Qleb_le in Hle. rewrite Hle.
    destruct (execute_market_buy_trace cfg payment e (LimitOrder order_id) (o_user_id order)
                tok a (step w)) as [called Htr].
    destruct (execute_market_buy _ _ _ _ _ _ _ _) as [w1 result].
    simpl in Htr. destruct (r_success result); simpl.
    + eexists. rewrite Htr, <- app_assoc. simpl. reflexivity.
    + eexists. rewrite Htr. reflexivity.
  - intro Hgt. destruct (Qleb C P) eqn:Hle; [apply Qleb_le in Hle; contradiction|].
    reflexivity.
Qed.

Lemma swaps_of_app o tr1 tr2 :
  swaps_of o (tr1 ++ tr2) = (swaps_of o tr1 + swaps_of o tr2)%nat.
Proof. unfold swaps_of. rewrite filter_app, length_app. reflexivity. Qed.

(** An update writes the status over the trade, or, refused by the index,
    writes nothing. *)
Lemma update_trade_status_cases e w trade_id st rd :
  fst (update_trade_status e w trade_id st rd) = step w
  \/ fst (update_trade_status e w trade_id st rd)
     = step (set_trades w (update_trade (ObjectId trade_id)
                             (set_trade_status st rd (utcnow e (w_clock w)))
                             (w_trades w))).
Proof.
  unfold update_trade_status. cbv zeta.
  match goal with |- context [if ?c then _ else _] => destruct c end; auto.
Qed.

Lemma update_trade_status_trace e w trade_id st rd :
  w_trace (fst (update_trade_status e w trade_id st rd)) = w_trace w.
Proof.
  unfold update_trade_status. cbv zeta.
  match goal with |- context [if ?c then _ else _] => destruct c end; reflexivity.
Qed.

(** What [_execute_market_order] leaves in the trace: the call of the
    venue, then at most an alert. *)
Lemma execute_market_order_trace e order_id order a w :
  exists ok tail,
    w_trace (fst (_execute_market_order e order_id order a w))
    = w_trace w ++ ev_swap (ActiveOrder order_id) (input_token order)
                     (output_token order) (amount order) (slippage order) ok :: tail
    /\ (tail = [] \/ exists kind, tail = [ev_alert (user_id order) kind]).
Proof.
  unfold _execute_market_order.
  pose proof (update_trade_status_trace e w order_id (status_value EXECUTING) no_data) as H1.
  destruct (update_trade_status e w order_id (status_value EXECUTING) no_data) as [w1 b1].
  simpl in H1.
  match goal with |- context [sr_success ?r] => set (res := r) end.
  set (w2 := step (emit w1 _)).
  assert (H2 : w_trace w2 = w_trace w ++ [ev_swap (ActiveOrder order_id) (input_token order)
                 (output_token order) (amount order) (slippage order) (sr_success res)])
    by (unfold w2; simpl; rewrite H1; reflexivity).
  assert (Hfail : w_trace (fst (update_trade_status e w2 order_id (status_value FAILED) no_data))
                  = w_trace w2) by apply update_trade_status_trace.
  exists (sr_success res).
  destruct (sr_success res).
  - destruct (sr_signature res) as [sig|];
      [destruct (sr_output_amount res) as [out|];
       [destruct (sr_price_impact res) as [imp|]|]|];
      try (exists []; cbn [fst]; rewrite Hfail; split; [exact H2|left; reflexivity]).
    match goal with |- context [update_trade_status e w2 order_id ?st ?rd] =>
      pose proof (update_trade_status_trace e w2 order_id st rd) as H3;
      destruct (update_trade_status e w2 order_id st rd) as [w3 b3] end.
    cbn [fst] in H3. eexists. cbn [fst emit w_trace]. rewrite H3, H2, <- app_assoc.
    split; [reflexivity|right; eexists; reflexivity].
  - destruct (sr_error res) as [err|]; cbn [fst emit w_trace].
    + eexists. rewrite Hfail, H2, <- app_assoc.
      split; [reflexivity|right; eexists; reflexivity].
    + exists []. rewrite Hfail. split; [exact H2|left; reflexivity].
Qed.

Lemma swaps_of_alerts o tail user :
  tail = [] \/ (exists kind, tail = [ev_alert user kind]) -> swaps_of o tail = 0%nat.
Proof. intros [H|[kind H]]; subst tail; reflexivity. Qed.

(** [_execute_market_order] has no gate: whatever the stored status of the
    order, every call of it calls the venue's swap. *)
Lemma execute_market_order_has_no_gate e order_id order a w :
  swaps_of (ActiveOrder order_id) (w_trace (fst (_execute_market_order e order_id order a w)))
  = S (swaps_of (ActiveOrder order_id) (w_trace w)).
Proof.
  destruct (execute_market_order_trace e order_id order a w) as (ok & tail & Htr & Htail).
  rewrite Htr, swaps_of_app.
  change (ev_swap (ActiveOrder order_id) (input_token order) (output_token order)
            (amount order) (slippage order) ok :: tail)
    with ([ev_swap (ActiveOrder order_id) (input_token order) (output_token order)
             (amount order) (slippage order) ok] ++ tail).
  rewrite swaps_of_app, (swaps_of_alerts _ Htail).
  unfold swaps_of at 2. simpl. rewrite String.eqb_refl. simpl. lia.
Qed.

(** C5, evaluated where the code fails it.  User 42 places a limit buy at
    10 through [create_trade_order]: it is admitted, stored as pending and
    registered among the active orders.  The order loop then runs three
    rounds while the price is 5 and the venue executes every swap.  The
    loop hands the order to [_check_limit_order], which reads it as a
    dictionary and raises: the venue is never called, and the order stays
    pending and active.  Nor does a limit order placed through
    [create_limit_order] fare better: it is stored without a trigger
    price, and the rounds of the limit monitor never execute it. *)
Theorem admitted_limit_buy_is_never_executed :
  let order_id := numbered "5f00000000000000000000" 0 in
  let e := MoreExamples.market_env 5 in
  let round :=
    {| OrderLoop.outside := e; OrderLoop.get_token_symbol := fun _ _ => Some "TKN"%string |} in
  let created :=
    Intake.create_trade_order default_config e (fun _ => true)
      MoreExamples.active_limit_buy [] empty_world in
  let s1 := (fst (fst (fst created)), snd (fst (fst created))) in
  let s2 := OrderLoop.run_rounds [round; round; round] s1 in
  let placed := fst (Intake.create_limit_order default_config e 42 "TokenMint" 1 empty_world) in
  let watched := run_rounds default_config wired [e; e; e] placed in
  (price MoreExamples.active_limit_buy = Some 10
   /\ Qleb (get_token_price e 0 "TokenMint") 10 = true)
  /\ fst (snd created) = true
  /\ OrderLoop.keys (snd s1) = [order_id]
  /\ (w_trace (fst s2) = []
      /\ map t_status (w_trades (fst s2)) = ["pending"%string]
      /\ OrderLoop.keys (snd s2) = [order_id])
  /\ (map o_price (w_orders placed) = [None]
      /\ w_trace watched = []
      /\ map o_status (w_orders watched) = ["pending"%string]).
Proof. vm_compute. repeat split; reflexivity. Qed.

End LimitFacts.

(** ** Binary64 *)

Module Binary64Facts.
Import Binary64.















End Binary64Facts.

(** ** Stop losses *)

Module StopLossFacts.
Import StopLossMonitor MarketFacts Examples.

Lemma bson_id_eqb_refl i : bson_id_eqb i i = true.
Proof. destruct i; simpl; apply String.eqb_refl. Qed.

Lemma bson_id_eqb_eq i j : bson_id_eqb i j = true <-> i = j.
Proof.
  destruct i, j; simpl; try (split; intro; discriminate).
  - rewrite String.eqb_eq. split; congruence.
  - rewrite String.eqb_eq. split; congruence.
Qed.


Lemma executed_sells_app i tr1 tr2 :
  executed_sells i (tr1 ++ tr2) = (executed_sells i tr1 + executed_sells i tr2)%nat.
Proof. unfold executed_sells. rewrite filter_app, length_app. reflexivity. Qed.




(** The drawdown is the one binary64 gives.  Entered at 100 with a stop
    loss of 29%, the trade is at an exact drawdown of 29% when the price is
    71; the source computes a price change of -28.999999999999996, and
    does not sell.  At 70 it sells. *)
Example stop_loss_at_the_threshold :
  Binary64.to_Q (price_change_pct 71 100) = Some (- (8162774324609023 # 281474976710656))
  /\ Binary64.leb (Binary64.of_Q 29) (drawdown 100 71) = false
  /\ w_trace (_check_stop_loss default_config wired (priced_env 71) boundary_trade
                (set_trades empty_world [boundary_trade])) = []
  /\ w_trace (_check_stop_loss default_config wired (priced_env 70) boundary_trade
                (set_trades empty_world [boundary_trade]))
     = [ev_submit (StopLoss (t_id boundary_trade)) Sell 42 "TokenMint" 5;
        ev_swap (StopLoss (t_id boundary_trade)) "TokenMint" SOL_MINT 5 (5 # 10) true;
        ev_alert 42 "stop_loss"].
Proof. vm_compute. repeat split; reflexivity. Qed.

(** *** The flag and the sells across rounds *)

Lemma effect_none d w w' :
  w_trace w' = w_trace w -> w_trades w' = w_trades w -> effect false d w w'.
Proof.
  intros Htr Hts. unfold effect, ids. rewrite Htr, Hts.
  split; [|split; [|split; [|split; [|split]]]].
  - intro i. simpl. lia.
  - auto.
  - apply incl_refl.
  - intros x Hx Hsl. exists x. auto.
  - discriminate.
  - intros x Hx _. exists x. auto.
Qed.

Lemma existsb_id_false i (l : list trade_doc) (p : trade_doc -> bool) :
  existsb (fun x => bson_id_eqb (t_id x) i || p x) l = false ->
  ~ In i (map t_id l).
Proof.
  induction l as [|x l IH]; simpl; intros H Hin; [assumption|].
  apply orb_false_iff in H. destruct H as [Hx Hl].
  apply orb_false_iff in Hx. destruct Hx as [Hx _].
  destruct Hin as [Heq|Hin].
  - subst i. rewrite bson_id_eqb_refl in Hx. discriminate.
  - exact (IH Hl Hin).
Qed.

(** A market sell adds at most one trade: a completed sell without stop
    loss, under an identifier that was not in use. *)
Lemma execute_market_sell_trades cfg payment e o user token amt w :
  let w1 := fst (execute_market_sell cfg payment e o user token amt w) in
  w_trades w1 = w_trades w
  \/ exists x, w_trades w1 = w_trades w ++ [x]
               /\ has_stop_loss x = false
               /\ ~ In (t_id x) (map t_id (w_trades w)).
Proof.
  unfold execute_market_sell. simpl.
  destruct (sr_success _); [|left; reflexivity].
  match goal with |- context [store_trade ?e ?w ?d] =>
    destruct (store_trade e w d) as [w1 b] eqn:Hst end.
  match goal with |- context [deduct_fee_and_answer ?p ?r ?w] =>
    destruct (deduct_fee_and_answer_world p r w) as (_ & Hd & _) end.
  rewrite Hd. clear Hd.
  unfold store_trade in Hst. simpl in Hst.
  match type of Hst with context [existsb ?f ?l] => destruct (existsb f l) eqn:Hex end;
    inversion Hst; subst w1 b; clear Hst.
  - left. reflexivity.
  - right. eexists. split; [reflexivity|]. split.
    + reflexivity.
    + simpl. eapply existsb_id_false. exact Hex.
Qed.

Lemma update_trade_ids i px (ts : list trade_doc) :
  map t_id (update_trade i (set_stop_loss_triggered px) ts) = map t_id ts.
Proof.
  unfold update_trade. rewrite map_map. apply map_ext.
  intro x. destruct (bson_id_eqb _ _); reflexivity.
Qed.

Lemma in_update_trade i px x (ts : list trade_doc) :
  In x (update_trade i (set_stop_loss_triggered px) ts) ->
  exists x0, In x0 ts /\ t_id x0 = t_id x /\ has_stop_loss x0 = has_stop_loss x
             /\ (t_stop_loss_triggered x0 = true -> t_stop_loss_triggered x = true)
             /\ (t_id x = i -> t_stop_loss_triggered x = true).
Proof.
  unfold update_trade. rewrite in_map_iff. intros (x0 & Hx & Hin).
  exists x0. split; [assumption|].
  destruct (bson_id_eqb (t_id x0) i) eqn:Heq; subst x.
  - repeat split; auto.
  - repeat split; auto. intro Hi. rewrite Hi, bson_id_eqb_refl in Heq. discriminate.
Qed.

Lemma executed_sells_swap i j (a b : string) (amt slip : Q) (ok : bool) user tok amt' :
  executed_sells i [ev_submit (StopLoss j) Sell user tok amt';
                    ev_swap (StopLoss j) a b amt slip ok] =
  if ok && bson_id_eqb i j then 1%nat else 0%nat.
Proof.
  unfold executed_sells. simpl. destruct ok; simpl; [|reflexivity].
  destruct (bson_id_eqb i j); reflexivity.
Qed.

(** The branches that return without selling change nothing. *)
Ltac nothing_done := exists false; apply effect_none; reflexivity.

Lemma execute_stop_loss_effect cfg p e d px w :
  (exists h, t_id d = ObjectId h) ->
  exists ok, effect ok d w (_execute_stop_loss cfg (Some p) e d px w).
Proof.
  intros [h Hid]. unfold _execute_stop_loss.
  destruct (Qleb _ 0); [nothing_done|].
  destruct (t_output_token d) as [tok|]; [|nothing_done].
  pose proof (execute_market_sell_trace cfg (Some p) e (StopLoss (t_id d)) (t_user_id d) tok
                (dflt 0 (t_output_amount d)) w) as [Htr Hok].
  pose proof (execute_market_sell_trades cfg (Some p) e (StopLoss (t_id d)) (t_user_id d) tok
                (dflt 0 (t_output_amount d)) w) as Hts.
  destruct (execute_market_sell _ _ _ _ _ _ _ _) as [w1 result].
  simpl in Htr, Hok, Hts.
  set (ok := sr_success _) in *.
  assert (Hgrow : incl (w_trades w) (w_trades w1)
                  /\ (NoDup (map t_id (w_trades w)) -> NoDup (map t_id (w_trades w1)))
                  /\ (forall x, In x (w_trades w1) -> has_stop_loss x = true -> In x (w_trades w))
                  /\ (forall x, In x (w_trades w1) -> In (t_id x) (map t_id (w_trades w)) ->
                        In x (w_trades w))).
  { destruct Hts as [Hts|(x & Hts & Hsl & Hfresh)]; rewrite Hts.
    - repeat split; auto. apply incl_refl.
    - repeat split.
      + apply incl_appl, incl_refl.
      + intro Hnd. rewrite map_app. simpl.
        apply NoDup_app; [assumption|constructor; [intros []|constructor]|].
        intros a Ha [Hb|[]]. subst a. contradiction.
      + intros y Hy Hysl. apply in_app_or in Hy. destruct Hy as [Hy|[Hy|[]]]; auto.
        subst y. congruence.
      + intros y Hy Hyin. apply in_app_or in Hy. destruct Hy as [Hy|[Hy|[]]]; auto.
        subst y. contradiction. }
  destruct Hgrow as (Hincl & Hnd & Hslold & Hidold).
  exists ok. rewrite Hok. simpl has_payment. rewrite andb_true_r.
  destruct ok eqn:Hokv.
  - (* executed: the flag is written under [ObjectId (py_str (t_id d))] *)
    unfold update_trade_stop_loss_triggered. simpl.
    assert (Hoid : ObjectId (py_str (t_id d)) = t_id d) by (rewrite Hid; reflexivity).
    rewrite Hoid.
    unfold effect, ids. simpl.
    rewrite update_trade_ids.
    split; [|split; [|split; [|split; [|split]]]].
    + intro i. rewrite Htr, !executed_sells_app, executed_sells_swap.
      change (executed_sells i [ev_alert (t_user_id d) "stop_loss"]) with 0%nat.
      simpl. lia.
    + exact Hnd.
    + apply incl_map. exact Hincl.
    + intros x Hx Hsl. apply in_update_trade in Hx.
      destruct Hx as (x0 & Hin0 & Hid0 & Hsl0 & _).
      exists x0. rewrite Hsl0. repeat split; auto.
      apply Hslold; [assumption|congruence].
    + intros _ x Hx Hxd. apply in_update_trade in Hx.
      destruct Hx as (x0 & _ & _ & _ & _ & Hflag). auto.
    + intros x Hx Hxin. apply in_update_trade in Hx.
      destruct Hx as (x0 & Hin0 & Hid0 & _ & Hkeep & _).
      exists x0. repeat split; auto.
      apply Hidold; [assumption|]. rewrite Hid0. assumption.
  - unfold effect, ids.
    split; [|split; [|split; [|split; [|split]]]].
    + intro i. rewrite Htr, executed_sells_app, executed_sells_swap. reflexivity.
    + exact Hnd.
    + apply incl_map. exact Hincl.
    + intros x Hx Hsl. exists x. auto.
    + discriminate.
    + intros x Hx Hxin. exists x. auto.
Qed.

Lemma check_stop_loss_effect cfg p e d w :
  (exists h, t_id d = ObjectId h) ->
  exists ok, effect ok d w (_check_stop_loss cfg (Some p) e d w).
Proof.
  intro Hid. unfold _check_stop_loss.
  destruct (negb _); [nothing_done|].
  do 3 (destruct (Qeq_bool _ 0); [nothing_done|]).
  destruct (Binary64.leb _ _); [|nothing_done].
  destruct (execute_stop_loss_effect cfg p e d
              (get_token_price e (w_clock w) (dflt EmptyString (t_output_token d)))
              (step w) Hid) as [ok Hok].
  exists ok. exact Hok.
Qed.

(** The trades a scan selects have distinct identifiers when the store has. *)
Lemma scan_ids_distinct (selected : trade_doc -> bool) (ts : list trade_doc) :
  NoDup (map t_id ts) -> NoDup (map t_id (filter selected ts)).
Proof.
  intro Hnd. induction ts as [|x ts IH]; simpl; [constructor|].
  inversion Hnd as [|? ? Hnin Hnd']; subst.
  destruct (selected x); simpl; [|auto].
  constructor; [|auto].
  intro Hin. apply Hnin. apply in_map_iff in Hin. destruct Hin as (y & Hy & Hin).
  apply filter_In in Hin. apply in_map_iff. exists y. tauto.
Qed.

Lemma check_keeps_accounts cfg p e d l w :
  well_formed w -> sells_accounted w -> pending_checks (d :: l) w ->
  let w' := _check_stop_loss cfg (Some p) e d w in
  well_formed w' /\ sells_accounted w' /\ pending_checks l w'.
Proof.
  intros [Hnd Hoid] (Hle & Hin & Hflag) [Hndl Hl].
  destruct (Hl d (or_introl eq_refl)) as (Hd0 & Hdin & Hdoid).
  destruct (check_stop_loss_effect cfg p e d w Hdoid)
    as (ok & Hcount & Hnd' & Hincl & Hsl & Hset & Hold).
  inversion Hndl as [|? ? Hdnot Hndl']; subst.
  assert (Hother : forall i, i <> t_id d ->
            executed_sells i (w_trace (_check_stop_loss cfg (Some p) e d w))
            = executed_sells i (w_trace w)).
  { intros i Hi. rewrite Hcount.
    destruct (bson_id_eqb i (t_id d)) eqn:Heq.
    - apply bson_id_eqb_eq in Heq. contradiction.
    - rewrite andb_false_r. lia. }
  assert (Hself : executed_sells (t_id d) (w_trace (_check_stop_loss cfg (Some p) e d w))
                  = if ok then 1%nat else 0%nat).
  { rewrite Hcount, Hd0, bson_id_eqb_refl, andb_true_r. reflexivity. }
  cbv zeta. split; [|split].
  - split; [auto|].
    intros x Hx Hxsl. destruct (Hsl x Hx Hxsl) as (x0 & Hx0 & Hid0 & Hsl0).
    rewrite <- Hid0. apply Hoid; assumption.
  - split; [|split].
    + intro i. destruct (bson_id_eqb i (t_id d)) eqn:Heq.
      * apply bson_id_eqb_eq in Heq. subst i. rewrite Hself. destruct ok; lia.
      * rewrite Hother; [apply Hle|]. intro Hi. subst i.
        rewrite bson_id_eqb_refl in Heq. discriminate.
    + intros i Hi. destruct (bson_id_eqb i (t_id d)) eqn:Heq.
      * apply bson_id_eqb_eq in Heq. subst i. apply Hincl. assumption.
      * rewrite Hother in Hi; [apply Hincl, Hin, Hi|].
        intro Hid. subst i. rewrite bson_id_eqb_refl in Heq. discriminate.
    + intros x Hx Hx1. destruct (bson_id_eqb (t_id x) (t_id d)) eqn:Heq.
      * apply bson_id_eqb_eq in Heq. rewrite Heq, Hself in Hx1.
        destruct ok; [|lia]. apply Hset; auto.
      * rewrite Hother in Hx1
          by (intro Hid; rewrite Hid, bson_id_eqb_refl in Heq; discriminate).
        destruct (Hold x Hx (Hin _ Hx1)) as (x0 & Hx0 & Hid0 & Hkeep).
        apply Hkeep. apply Hflag; [assumption|]. rewrite Hid0. assumption.
  - split; [assumption|].
    intros d' Hd'. destruct (Hl d' (or_intror Hd')) as (Hd'0 & Hd'in & Hd'oid).
    split; [|split; [apply Hincl; assumption|assumption]].
    rewrite Hother; [assumption|].
    intro Heq. apply Hdnot. rewrite <- Heq. apply in_map. assumption.
Qed.

Lemma checks_keep_accounts cfg p e l : forall w,
  well_formed w -> sells_accounted w -> pending_checks l w ->
  let w' := fold_left (fun w trade => _check_stop_loss cfg (Some p) e trade w) l w in
  well_formed w' /\ sells_accounted w'.
Proof.
  induction l as [|d l IH]; intros w Hwf Hacc Hpend; simpl.
  - split; assumption.
  - destruct (check_keeps_accounts cfg p e Hwf Hacc Hpend) as (Hwf' & Hacc' & Hpend').
    apply IH; assumption.
Qed.

Lemma round_keeps_accounts cfg p e w :
  well_formed w -> sells_accounted w ->
  well_formed (_monitor_stop_losses cfg (Some p) e w)
  /\ sells_accounted (_monitor_stop_losses cfg (Some p) e w).
Proof.
  intros Hwf Hacc. unfold _monitor_stop_losses.
  apply checks_keep_accounts.
  - exact Hwf.
  - exact Hacc.
  - destruct Hwf as [Hnd Hoid]. destruct Hacc as (Hle & Hin & Hflag).
    unfold get_completed_trades_with_stop_loss. split.
    + apply scan_ids_distinct. exact Hnd.
    + intros d Hd. apply filter_In in Hd. destruct Hd as [Hd Hsel].
      apply andb_true_iff in Hsel. destruct Hsel as [Hsl Hnot].
      change (w_trace (step w)) with (w_trace w).
      split; [|split].
      * destruct (executed_sells (t_id d) (w_trace w)) eqn:Hn; [reflexivity|].
        assert (Ht : t_stop_loss_triggered d = true)
          by (apply Hflag; [assumption|lia]).
        rewrite Ht in Hnot. discriminate.
      * apply in_map. exact Hd.
      * apply Hoid; assumption.
Qed.

Lemma rounds_keep_accounts cfg p es : forall w,
  well_formed w -> sells_accounted w ->
  sells_accounted (run_rounds cfg (Some p) es w).
Proof.
  induction es as [|e es IH]; intros w Hwf Hacc; simpl.
  - exact Hacc.
  - destruct (round_keeps_accounts cfg p e Hwf Hacc) as [Hwf' Hacc'].
    apply IH; assumption.
Qed.

End StopLossFacts.

(** ** Copy trading *)

Module CopyFacts.
Import CopyTrading MarketFacts Examples.

Lemma relays_app W S U tr1 tr2 :
  relays W S U (tr1 ++ tr2) = (relays W S U tr1 + relays W S U tr2)%nat.
Proof. unfold relays. rewrite filter_app, length_app. reflexivity. Qed.

Lemma relayed_amounts_app W S U tr1 tr2 :
  relayed_amounts W S U (tr1 ++ tr2) = relayed_amounts W S U tr1 ++ relayed_amounts W S U tr2.
Proof. unfold relayed_amounts. apply flat_map_app. Qed.

Lemma relayed_amounts_submit W S U o s user tok a rest :
  relayed_amounts W S U (ev_submit o s user tok a :: rest) =
  (if origin_eqb (CopyTrade W S U) o then [a] else []) ++ relayed_amounts W S U rest.
Proof. reflexivity. Qed.

Lemma relays_submit W S U o s user tok a rest :
  relays W S U (ev_submit o s user tok a :: rest) =
  ((if origin_eqb (CopyTrade W S U) o then 1 else 0) + relays W S U rest)%nat.
Proof.
  unfold relays. cbn [filter]. unfold is_relay at 1.
  destruct (origin_eqb (CopyTrade W S U) o); reflexivity.
Qed.

Lemma buy_submission cfg payment e o user token amt w :
  submission_then_calls o user amt (w_trace w)
    (w_trace (fst (execute_market_buy cfg payment e o user token amt w))).
Proof.
  destruct (execute_market_buy_trace cfg payment e o user token amt w) as [called Htr].
  exists Buy, token. eexists. split; [exact Htr|].
  intros W S U. destruct called; split; reflexivity.
Qed.

Lemma sell_submission cfg payment e o user token amt w :
  submission_then_calls o user amt (w_trace w)
    (w_trace (fst (execute_market_sell cfg payment e o user token amt w))).
Proof.
  destruct (execute_market_sell_trace cfg payment e o user token amt w) as [Htr _].
  exists Sell, token. eexists. split; [exact Htr|].
  intros W S U. split; reflexivity.
Qed.

(** The market order a subscriber's copy leads to, if the kind of the source
    trade is one the relay mirrors. *)
Lemma copy_attempt cfg payment e o user ty in_token out_token amt w :
  let attempt :=
    if String.eqb ty "buy"
    then Some (execute_market_buy cfg payment e o user out_token amt w)
    else if String.eqb ty "sell"
    then Some (execute_market_sell cfg payment e o user in_token amt w)
    else if String.eqb ty "swap"
    then if String.eqb in_token SOL_MINT
         then Some (execute_market_buy cfg payment e o user out_token amt w)
         else Some (execute_market_sell cfg payment e o user in_token amt w)
    else None in
  match attempt with
  | Some (w1, _) =>
    In ty ["buy"; "sell"; "swap"]%string
    /\ submission_then_calls o user amt (w_trace w) (w_trace w1)
    /\ w_subs w1 = w_subs w
  | None => ~ In ty ["buy"; "sell"; "swap"]%string
  end.
Proof.
  cbv zeta.
  destruct (String.eqb ty "buy") eqn:Hb.
  { apply String.eqb_eq in Hb. subst ty.
    pose proof (buy_submission cfg payment e o user out_token amt w) as H.
    pose proof (execute_market_buy_subs cfg payment e o user out_token amt w) as Hs.
    destruct (execute_market_buy _ _ _ _ _ _ _ _). simpl in *. tauto. }
  destruct (String.eqb ty "sell") eqn:Hs.
  { apply String.eqb_eq in Hs. subst ty.
    pose proof (sell_submission cfg payment e o user in_token amt w) as H.
    pose proof (execute_market_sell_subs cfg payment e o user in_token amt w) as Hsub.
    destruct (execute_market_sell _ _ _ _ _ _ _ _). simpl in *. tauto. }
  destruct (String.eqb ty "swap") eqn:Hw.
  { apply String.eqb_eq in Hw. subst ty.
    destruct (String.eqb in_token SOL_MINT).
    - pose proof (buy_submission cfg payment e o user out_token amt w) as H.
      pose proof (execute_market_buy_subs cfg payment e o user out_token amt w) as Hsub.
      destruct (execute_market_buy _ _ _ _ _ _ _ _). simpl in *. tauto.
    - pose proof (sell_submission cfg payment e o user in_token amt w) as H.
      pose proof (execute_market_sell_subs cfg payment e o user in_token amt w) as Hsub.
      destruct (execute_market_sell _ _ _ _ _ _ _ _). simpl in *. tauto. }
  apply String.eqb_neq in Hb, Hs, Hw.
  simpl. intros [H|[H|[H|[]]]]; congruence.
Qed.

Lemma mirrored_In ty : mirrored ty = true <-> In ty ["buy"; "sell"; "swap"]%string.
Proof.
  unfold mirrored. rewrite !orb_true_iff, !String.eqb_eq. simpl.
  split; intro H; intuition congruence.
Qed.

Lemma origin_eqb_refl o : origin_eqb o o = true.
Proof.
  destruct o as [|s|s|i|w s u|i]; simpl; auto using String.eqb_refl.
  - destruct i; simpl; apply String.eqb_refl.
  - rewrite !String.eqb_refl, Z.eqb_refl. reflexivity.
  - destruct i; simpl; apply String.eqb_refl.
Qed.

(** What the loop body does for one subscriber. *)
Lemma copy_for_user_trace cfg payment e wallet t ty amount usd in_token out_token sub w :
  let settings := dflt empty_settings (sub_copy_settings sub) in
  let o := CopyTrade wallet (tx_signature t) (sub_user_id sub) in
  let w' := copy_for_user cfg payment e wallet t ty amount usd in_token out_token sub w in
  w_subs w' = w_subs w
  /\ if submits ty amount usd sub
     then exists amt,
            child_amount settings amount usd = Some amt
            /\ submission_then_calls o (sub_user_id sub) amt (w_trace w) (w_trace w')
     else w_trace w' = w_trace w.
Proof.
  cbv zeta. unfold copy_for_user, submits.
  destruct (dflt false (cs_enabled _)); simpl; [|auto].
  destruct (child_amount _ amount usd) as [amt|]; simpl; [|auto].
  pose proof (copy_attempt cfg payment e (CopyTrade wallet (tx_signature t) (sub_user_id sub))
                (sub_user_id sub) ty in_token out_token amt w)
    as Hatt.
  cbv zeta in Hatt.
  match type of Hatt with match ?a with _ => _ end => destruct a as [[w1 result]|] end.
  - destruct Hatt as (Hty & (s & tok & rest & Htr & Hrest) & Hsubs).
    apply mirrored_In in Hty. rewrite Hty.
    destruct (r_success result); simpl.
    + split; [assumption|]. exists amt. split; [reflexivity|].
      exists s, tok, (rest ++ [ev_alert (sub_user_id sub) "copy_trade"]).
      split; [rewrite Htr, <- app_assoc; reflexivity|].
      intros W S U. destruct (Hrest W S U) as [Hr Ha].
      rewrite relays_app, relayed_amounts_app, Hr, Ha. split; reflexivity.
    + split; [assumption|]. exists amt. split; [reflexivity|].
      exists s, tok, rest. auto.
  - destruct (mirrored ty) eqn:Hm; [apply mirrored_In in Hm; contradiction|].
    auto.
Qed.

Lemma set_of_In x l : In x (set_of l) -> In x l.
Proof.
  induction l as [|y l IH]; simpl; [auto|].
  destruct (existsb (String.eqb y) l); simpl; intuition.
Qed.

(** *** Transactions as the service parses them *)









(** C9, evaluated where the code fails it.  User 42 subscribes to "Whale"
    with 50% and at most 0.3 per trade; the subscription is stored with
    these settings.  The wallet then receives 1.0 SOL, and the monitor runs
    two rounds.  For a source trade of 1.0 the amount computed from the
    settings is 0.3; but no child order is submitted, neither by the
    monitor as it is started (it watches the wallets it loaded from
    [copy_subscriptions], which are none) nor by a monitor that watches the
    wallet: the parsed transaction names no token, and
    [_execute_copy_trades] returns.  And the minimum the subscription
    records, 0.1, is not what the computation uses: for a source trade of
    0.15 it yields a child amount of 0.075. *)
Theorem copy_scenario_submits_nothing :
  let subscribed :=
    Subscribe.subscribe_copy_trading Subscribe.TradingEngine parsed_whale_env
      (fun _ => true) true 42 "Whale" (Some half_capped_request) empty_world in
  let w1 := fst subscribed in
  let loaded := Startup._load_copy_trading_subscriptions [] [] in
  let rounds := run_rounds default_config wired [parsed_whale_env; parsed_whale_env] in
  let observed := get_wallet_transactions parsed_whale_env 0 "Whale" in
  (map sub_copy_settings (w_subs w1) = [Some half_capped]
   /\ map sub_is_active (w_subs w1) = [true])
  /\ (map tx_type observed = [Some "receive"%string]
      /\ map (fun t => Qeq_bool (dflt 0 (tx_amount t)) 1) observed = [true])
  /\ copy_amount half_capped 1 0 = Binary64.of_Q (3 # 10)
  /\ w_trace (rounds loaded w1) = []
  /\ w_trace (rounds whale_followers w1) = []
  /\ (cs_min_trade_amount half_capped = Some (1 # 10)
      /\ copy_amount half_capped (15 # 100) 0 = Binary64.of_Q (75 # 1000)
      /\ match child_amount half_capped (15 # 100) 0 with
         | Some a => Qltb a (1 # 10)
         | None => false
         end = true).
Proof. vm_compute. repeat split; reflexivity. Qed.

End CopyFacts.

(* ================================================================== *)
(** * Further properties of the engine *)

(** ** What an accepted order satisfies *)

Module ValidatorMore.
Import Validator.

(** X1: [_validate_order] accepts an order exactly when the user is
    known, the order is not a copy trade of a free-tier user, the amount
    lies between the global minimum and maximum and within the user's own
    maximum, both token addresses are valid and the slippage lies in
    [0.1, 50]. *)
Theorem validate_order_accepts_iff :
  forall cfg get_user validate_address order,
    fst (_validate_order cfg get_user validate_address order) = true
    <->
    exists user,
      get_user (user_id order) = Some user
      /\ ~ (dflt "free"%string (u_subscription_tier user) = "free"%string
            /\ trade_type order = COPY_TRADE)
      /\ (MIN_TRADE_AMOUNT cfg <= amount order)%Q
      /\ (amount order <= MAX_TRADE_AMOUNT cfg)%Q
      /\ (amount order <= dflt (MAX_TRADE_AMOUNT cfg) (u_max_trade_amount user))%Q
      /\ validate_address (input_token order) = true
      /\ validate_address (output_token order) = true
      /\ (1 # 10 <= slippage order)%Q /\ (slippage order <= 50)%Q.
Proof.
  intros cfg get_user validate_address order.
  unfold _validate_order.
  destruct (get_user (user_id order)) as [user|].
  2:{ simpl. split; [discriminate|]. intros (u & Hu & _). discriminate. }
  cbv zeta.
  assert (Hgate : String.eqb (dflt "free"%string (u_subscription_tier user)) "free"
                  && TradeType_eqb (trade_type order) COPY_TRADE = true
                  <-> (dflt "free"%string (u_subscription_tier user) = "free"%string
                       /\ trade_type order = COPY_TRADE)).
  { rewrite andb_true_iff, String.eqb_eq.
    destruct (trade_type order); simpl; split; intros [H1 H2];
      split; auto; discriminate. }
  destruct (String.eqb _ "free" && _) eqn:Hg.
  { simpl. split; [discriminate|]. intros (u & Hu & Hn & _).
    inversion Hu; subst u. exfalso. apply Hn. apply Hgate. reflexivity. }
  destruct (Qltb (amount order) (MIN_TRADE_AMOUNT cfg)) eqn:Hmin.
  { simpl. split; [discriminate|]. intros (u & _ & _ & Hm & _).
    apply Qltb_lt in Hmin. lra. }
  destruct (Qltb (MAX_TRADE_AMOUNT cfg) (amount order)) eqn:Hmax.
  { simpl. split; [discriminate|]. intros (u & _ & _ & _ & Hm & _).
    apply Qltb_lt in Hmax. lra. }
  destruct (Qltb (dflt (MAX_TRADE_AMOUNT cfg) (u_max_trade_amount user)) (amount order))
    eqn:Huser.
  { simpl. split; [discriminate|]. intros (u & Hu & _ & _ & _ & Hm & _).
    inversion Hu; subst u. apply Qltb_lt in Huser. lra. }
  destruct (validate_address (input_token order)) eqn:Hin; simpl.
  2:{ split; [discriminate|]. intros (u & _ & _ & _ & _ & _ & Hv & _). discriminate. }
  destruct (validate_address (output_token order)) eqn:Hout; simpl.
  2:{ split; [discriminate|]. intros (u & _ & _ & _ & _ & _ & _ & Hv & _). discriminate. }
  destruct (Qltb (slippage order) (1 # 10)) eqn:Hlo; simpl.
  { split; [discriminate|]. intros (u & _ & _ & _ & _ & _ & _ & _ & Hs & _).
    apply Qltb_lt in Hlo. lra. }
  destruct (Qltb 50 (slippage order)) eqn:Hhi; simpl.
  { split; [discriminate|]. intros (u & _ & _ & _ & _ & _ & _ & _ & _ & Hs).
    apply Qltb_lt in Hhi. lra. }
  split; [intros _|reflexivity].
  exists user. apply Qltb_ge in Hmin, Hmax, Huser, Hlo, Hhi.
  repeat split; auto.
  intro Hfree. apply Hgate in Hfree. congruence.
Qed.

End ValidatorMore.

(** ** Market execution and the store *)

Module MarketMore.
Import MarketFacts StopLossMonitor Observe.

(** X2: [execute_market_buy] calls the venue exactly when the amount lies
    between the global minimum and maximum and within the user's own
    maximum; it then calls it once.  It answers with a success when the
    venue executed the swap and the engine has a payment service: on an
    engine without one the fee deduction raises, and the order the venue
    executed is answered as failed.  When the amount is out of bounds it
    answers with a failure, requests no swap and stores nothing. *)
Theorem market_buy_bounds :
  forall cfg payment e o user token amt w,
    let within :=
      (MIN_TRADE_AMOUNT cfg <= amt)%Q /\ (amt <= MAX_TRADE_AMOUNT cfg)%Q
      /\ (amt <= personal_max cfg e user)%Q in
    let res := execute_swap e (w_clock w) SOL_MINT token amt (DEFAULT_SLIPPAGE cfg) in
    let w' := fst (execute_market_buy cfg payment e o user token amt w) in
    let r := snd (execute_market_buy cfg payment e o user token amt w) in
    (within ->
       w_trace w' = w_trace w ++
         [ev_submit o Buy user token amt;
          ev_swap o SOL_MINT token amt (DEFAULT_SLIPPAGE cfg) (sr_success res)]
       /\ r_success r = sr_success res && has_payment payment)
    /\ (~ within ->
       w_trace w' = w_trace w ++ [ev_submit o Buy user token amt]
       /\ r_success r = false
       /\ w_trades w' = w_trades w).
Proof.
  intros cfg payment e o user token amt w within res w' r.
  unfold w', r, within, personal_max, execute_market_buy. simpl.
  destruct (Qltb amt (MIN_TRADE_AMOUNT cfg)) eqn:Hmin; simpl.
  { apply Qltb_lt in Hmin. split; [intros (H & _); lra|auto]. }
  destruct (Qltb (MAX_TRADE_AMOUNT cfg) amt) eqn:Hmax; simpl.
  { apply Qltb_lt in Hmax. split; [intros (_ & H & _); lra|auto]. }
  match goal with |- context [Qltb ?m amt] => destruct (Qltb m amt) eqn:Huser end.
  { apply Qltb_lt in Huser. split; [intros (_ & _ & H); lra|auto]. }
  apply Qltb_ge in Hmin, Hmax, Huser.
  split; [intros _|intro Hn; exfalso; apply Hn; auto].
  fold res. destruct (sr_success res) eqn:Hok.
  - match goal with |- context [store_trade ?e ?w ?d] =>
      pose proof (store_trade_trace e w d) as Ht;
      destruct (store_trade e w d) as [w1 b] end.
    match goal with |- context [deduct_fee_and_answer ?p ?r ?w] =>
      destruct (deduct_fee_and_answer_world p r w) as (Hd & _ & _ & _ & Hs) end.
    simpl in Ht. rewrite Hd, Hs, Ht, <- app_assoc. auto.
  - simpl. rewrite <- app_assoc. auto.
Qed.

Lemma store_trade_appends e w doc :
  let d := doc (ObjectId (new_object_id e (w_clock w))) (utcnow e (w_clock w)) in
  (snd (store_trade e w doc) = true
   /\ w_trades (fst (store_trade e w doc)) = w_trades w ++ [d]
   /\ ~ In (t_id d) (map t_id (w_trades w)))
  \/ (snd (store_trade e w doc) = false
      /\ w_trades (fst (store_trade e w doc)) = w_trades w).
Proof.
  unfold store_trade. cbv zeta.
  match goal with |- context [existsb ?f ?l] => destruct (existsb f l) eqn:Hex end.
  - right. auto.
  - left. repeat split. simpl. eapply StopLossFacts.existsb_id_false. exact Hex.
Qed.

Lemma NoDup_ids_snoc (ts : list trade_doc) (d : trade_doc) :
  NoDup (map t_id ts) -> ~ In (t_id d) (map t_id ts) -> NoDup (map t_id (ts ++ [d])).
Proof.
  intros Hnd Hfresh. rewrite map_app. simpl.
  apply NoDup_app; [assumption|constructor; [intros []|constructor]|].
  intros a Ha [Hb|[]]. subst a. contradiction.
Qed.

Lemma execute_market_buy_appends cfg payment e o user token amt w :
  appended user (w_trades w) (w_trades (fst (execute_market_buy cfg payment e o user token amt w))).
Proof.
  unfold execute_market_buy. simpl.
  destruct (_ || _); [left; reflexivity|].
  destruct (Qltb _ amt); [left; reflexivity|].
  destruct (sr_success _); [|left; reflexivity].
  match goal with |- context [store_trade ?e ?w ?d] =>
    destruct (store_trade_appends e w d) as [(_ & Hts & Hfresh)|(_ & Hts)];
    destruct (store_trade e w d) as [w1 b] end;
    match goal with |- context [deduct_fee_and_answer ?p ?r ?w] =>
      destruct (deduct_fee_and_answer_world p r w) as (_ & Hd & _) end;
    rewrite Hd; simpl in *.
  - right. eexists. split; [exact Hts|]. repeat split; [eexists; reflexivity|exact Hfresh].
  - left. exact Hts.
Qed.

Lemma execute_market_sell_appends cfg payment e o user token amt w :
  appended user (w_trades w)
    (w_trades (fst (execute_market_sell cfg payment e o user token amt w))).
Proof.
  unfold execute_market_sell. simpl.
  destruct (sr_success _); [|left; reflexivity].
  match goal with |- context [store_trade ?e ?w ?d] =>
    destruct (store_trade_appends e w d) as [(_ & Hts & Hfresh)|(_ & Hts)];
    destruct (store_trade e w d) as [w1 b] end;
    match goal with |- context [deduct_fee_and_answer ?p ?r ?w] =>
      destruct (deduct_fee_and_answer_world p r w) as (_ & Hd & _) end;
    rewrite Hd; simpl in *.
  - right. eexists. split; [exact Hts|]. repeat split; [eexists; reflexivity|exact Hfresh].
  - left. exact Hts.
Qed.

Lemma appended_scan user w w' :
  appended user (w_trades w) (w_trades w') ->
  get_completed_trades_with_stop_loss w' = get_completed_trades_with_stop_loss w.
Proof.
  unfold get_completed_trades_with_stop_loss.
  intros [Heq|(d & Heq & _ & _ & Hsl & _ & _ & _)]; rewrite Heq; [reflexivity|].
  rewrite filter_app. simpl. unfold has_stop_loss. rewrite Hsl.
  rewrite andb_false_r. simpl. apply app_nil_r.
Qed.

(** X3: a market order, bought or sold, never changes a stored
    trade: it adds at most one, a completed trade of the user under an
    [ObjectId] that was not in use, without stop loss and without entry
    price.  So identifiers
    stay unique, and the stop-loss scan selects the same trades after it as
    before: a position opened by a market order is never watched. *)
Theorem market_order_only_appends :
  forall cfg payment e o user token amt w (buy : bool),
    let w' := fst (if buy then execute_market_buy cfg payment e o user token amt w
                   else execute_market_sell cfg payment e o user token amt w) in
    appended user (w_trades w) (w_trades w')
    /\ (NoDup (map t_id (w_trades w)) -> NoDup (map t_id (w_trades w')))
    /\ get_completed_trades_with_stop_loss w' = get_completed_trades_with_stop_loss w.
Proof.
  intros cfg payment e o user token amt w buy w'.
  assert (Happ : appended user (w_trades w) (w_trades w')).
  { unfold w'. destruct buy;
      [apply execute_market_buy_appends|apply execute_market_sell_appends]. }
  split; [exact Happ|]. split; [|eapply appended_scan; exact Happ].
  intro Hnd. destruct Happ as [Heq|(d & Heq & _ & _ & _ & _ & _ & Hfresh)]; rewrite Heq.
  - exact Hnd.
  - apply NoDup_ids_snoc; assumption.
Qed.

(** X4: [execute_market_sell] checks no bound: whatever the amount, zero
    and negative amounts included, it requests the swap once.  It answers
    with a success when the venue executed the swap and the engine has a
    payment service; on an engine without one it answers every sell with
    a failure, executed or not. *)
Theorem market_sell_is_unchecked :
  forall cfg payment e o user token amt w,
    let res := execute_swap e (w_clock w) token SOL_MINT amt (DEFAULT_SLIPPAGE cfg) in
    LimitMonitor.swaps_of o (w_trace (fst (execute_market_sell cfg payment e o user token amt w)))
    = S (LimitMonitor.swaps_of o (w_trace w))
    /\ r_success (snd (execute_market_sell cfg payment e o user token amt w))
       = sr_success res && has_payment payment.
Proof.
  intros cfg payment e o user token amt w res.
  destruct (execute_market_sell_trace cfg payment e o user token amt w) as [Htr Hok].
  split; [|exact Hok].
  rewrite Htr, LimitFacts.swaps_of_app.
  unfold LimitMonitor.swaps_of at 2. simpl.
  rewrite CopyFacts.origin_eqb_refl. simpl. lia.
Qed.

End MarketMore.

(** ** Reading back what was stored *)

Module StoreMore.
Import Store LimitMonitor Observe.

Lemma find_update_same i f (ts : list trade_doc) :
  (forall d, t_id (f d) = t_id d) ->
  find (fun d => bson_id_eqb (t_id d) i) (update_trade i f ts)
  = option_map f (find (fun d => bson_id_eqb (t_id d) i) ts).
Proof.
  intro Hid. induction ts as [|x r IH]; [reflexivity|].
  unfold update_trade in *. simpl.
  destruct (bson_id_eqb (t_id x) i) eqn:Hx.
  - simpl. rewrite Hid, Hx. reflexivity.
  - simpl. rewrite Hx. exact IH.
Qed.

Lemma find_update_other i j f (ts : list trade_doc) :
  (forall d, t_id (f d) = t_id d) -> bson_id_eqb i j = false ->
  find (fun d => bson_id_eqb (t_id d) j) (update_trade i f ts)
  = find (fun d => bson_id_eqb (t_id d) j) ts.
Proof.
  intros Hid Hij. induction ts as [|x r IH]; [reflexivity|].
  unfold update_trade in *. simpl.
  destruct (bson_id_eqb (t_id x) i) eqn:Hx.
  - rewrite Hid.
    apply StopLossFacts.bson_id_eqb_eq in Hx. rewrite Hx, Hij. exact IH.
  - destruct (bson_id_eqb (t_id x) j); [reflexivity|exact IH].
Qed.

Lemma existsb_find i (ts : list trade_doc) :
  existsb (fun d => bson_id_eqb (t_id d) i) ts
  = match find (fun d => bson_id_eqb (t_id d) i) ts with Some _ => true | None => false end.
Proof.
  induction ts as [|x r IH]; [reflexivity|]. simpl.
  destruct (bson_id_eqb (t_id x) i); [reflexivity|exact IH].
Qed.

(** X5: [update_trade_status] followed by [get_trade_by_id]
    under the same identifier reads the new status back, with the keys of
    the result data written over the stored ones and every other key as
    it was, and the update reports a modification: this when the trade
    exists and the update carries no signature that another trade holds.
    When it carries one, the unique index refuses the write: nothing is
    stored and no modification is reported.  When the trade does not
    exist, none is reported either.  The trade under any other identifier
    reads as before. *)
Theorem update_trade_status_then_get :
  forall e w trade_id s rd,
    let w' := fst (update_trade_status e w trade_id s rd) in
    let modified := snd (update_trade_status e w trade_id s rd) in
    let refused :=
      match rd_signature rd with
      | Some sig => signature_taken (ObjectId trade_id) sig (w_trades w)
      | None => false
      end in
    match get_trade_by_id w trade_id with
    | Some d =>
      if refused then modified = false /\ w_trades w' = w_trades w
      else
        modified = true
        /\ exists d', get_trade_by_id w' trade_id = Some d'
             /\ t_status d' = s
             /\ t_signature d' = over_key (t_signature d) (rd_signature rd)
             /\ t_output_amount d' = over_key (t_output_amount d) (rd_output_amount rd)
             /\ t_user_id d' = t_user_id d /\ t_stop_loss d' = t_stop_loss d
             /\ t_entry_price d' = t_entry_price d /\ t_created_at d' = t_created_at d
    | None => modified = false /\ get_trade_by_id w' trade_id = None
    end
    /\ forall other, other <> trade_id ->
         get_trade_by_id w' other = get_trade_by_id w other.
Proof.
  intros e w trade_id s rd w' modified refused.
  unfold w', modified, update_trade_status, get_trade_by_id. cbv zeta.
  rewrite existsb_find. fold refused.
  destruct (find (fun d => bson_id_eqb (t_id d) (ObjectId trade_id)) (w_trades w))
    as [d|] eqn:Hfind.
  - assert (Hcond : match rd_signature rd with
                    | Some sig => true && signature_taken (ObjectId trade_id) sig (w_trades w)
                    | None => false
                    end = refused)
      by (unfold refused; destruct (rd_signature rd); reflexivity).
    rewrite Hcond. destruct refused; simpl.
    + split; [split; reflexivity|]. intros other Hne. reflexivity.
    + rewrite find_update_same by reflexivity. rewrite Hfind. simpl.
      split.
      * split; [reflexivity|]. eexists. split; [reflexivity|]. repeat split.
      * intros other Hne. apply find_update_other; [reflexivity|].
        simpl. apply String.eqb_neq. congruence.
  - assert (Hcond : match rd_signature rd with
                    | Some sig => false && signature_taken (ObjectId trade_id) sig (w_trades w)
                    | None => false
                    end = false)
      by (destruct (rd_signature rd); reflexivity).
    rewrite Hcond. simpl.
    rewrite find_update_same by reflexivity. rewrite Hfind. simpl.
    split; [split; reflexivity|].
    intros other Hne. apply find_update_other; [reflexivity|].
    simpl. apply String.eqb_neq. congruence.
Qed.

Lemma find_absent i (ts : list trade_doc) :
  ~ In i (map t_id ts) -> find (fun d => bson_id_eqb (t_id d) i) ts = None.
Proof.
  induction ts as [|x r IH]; [reflexivity|]. simpl. intro Hn.
  destruct (bson_id_eqb (t_id x) i) eqn:Hx.
  - apply StopLossFacts.bson_id_eqb_eq in Hx. exfalso. apply Hn. left. exact Hx.
  - apply IH. intro Hin. apply Hn. right. exact Hin.
Qed.

Lemma find_snoc i (ts : list trade_doc) (d : trade_doc) :
  find (fun x => bson_id_eqb (t_id x) i) (ts ++ [d])
  = match find (fun x => bson_id_eqb (t_id x) i) ts with
    | Some x => Some x
    | None => if bson_id_eqb (t_id d) i then Some d else None
    end.
Proof.
  induction ts as [|x r IH]; simpl.
  - reflexivity.
  - destruct (bson_id_eqb (t_id x) i); [reflexivity|exact IH].
Qed.

(** X6: when [store_trade] accepts a document, the trade
    reads back with [get_trade_by_id] under the identifier the insert gave
    it, an identifier under which nothing was stored before, and every
    other identifier reads as before; when it refuses, the trades are
    unchanged.  (The insert sets [_id]: the document is given with its
    identifier as parameter.) *)
Theorem store_trade_then_get :
  forall e w doc,
    (forall i now, t_id (doc i now) = i) ->
    let i := new_object_id e (w_clock w) in
    let w' := fst (store_trade e w doc) in
    if snd (store_trade e w doc)
    then get_trade_by_id w' i = Some (doc (ObjectId i) (utcnow e (w_clock w)))
         /\ get_trade_by_id w i = None
         /\ forall other, other <> i -> get_trade_by_id w' other = get_trade_by_id w other
    else w_trades w' = w_trades w.
Proof.
  intros e w doc Hid i w'. unfold w'.
  destruct (MarketMore.store_trade_appends e w doc) as [(Hok & Hts & Hfresh)|(Hok & Hts)];
    rewrite Hok; [|exact Hts].
  unfold get_trade_by_id. rewrite Hts. fold i in Hts, Hfresh |- *.
  rewrite Hid in Hfresh.
  assert (Hnone : find (fun d => bson_id_eqb (t_id d) (ObjectId i)) (w_trades w) = None)
    by (apply find_absent; exact Hfresh).
  split; [|split].
  - rewrite find_snoc, Hnone, Hid, StopLossFacts.bson_id_eqb_refl. reflexivity.
  - exact Hnone.
  - intros other Hne. rewrite find_snoc. clear Hnone.
    destruct (find _ (w_trades w)); [reflexivity|].
    rewrite Hid. simpl.
    destruct (String.eqb i other) eqn:Heq; [|reflexivity].
    apply String.eqb_eq in Heq. congruence.
Qed.

Lemma store_trade_then_get_witness :
  let i := new_object_id Examples.willing_env (w_clock Examples.held_world) in
  let w' := fst (store_trade Examples.willing_env Examples.held_world
                   MoreExamples.sell_receipt) in
  if snd (store_trade Examples.willing_env Examples.held_world MoreExamples.sell_receipt)
  then get_trade_by_id w' i
       = Some (MoreExamples.sell_receipt (ObjectId i)
                 (utcnow Examples.willing_env (w_clock Examples.held_world)))
       /\ get_trade_by_id Examples.held_world i = None
       /\ forall other, other <> i ->
            get_trade_by_id w' other = get_trade_by_id Examples.held_world other
  else w_trades w' = w_trades Examples.held_world.
Proof.
  apply (@store_trade_then_get Examples.willing_env Examples.held_world
           MoreExamples.sell_receipt).
  reflexivity.
Defined.

(** The unique index on [signature]: no two stored trades share a
    signature, a missing one included. *)
Lemma store_trade_refuses_signature e w doc x :
  In x (w_trades w) ->
  t_signature x = t_signature (doc (ObjectId (new_object_id e (w_clock w)))
                                   (utcnow e (w_clock w))) ->
  store_trade e w doc = (step w, false).
Proof.
  intros Hin Hsig. unfold store_trade. cbv zeta.
  match goal with |- context [existsb ?f ?l] =>
    assert (Hex : existsb f l = true) end.
  { apply existsb_exists. exists x. split; [exact Hin|].
    rewrite Hsig. apply orb_true_iff. right.
    generalize (t_signature (doc (ObjectId (new_object_id e (w_clock w)))
                               (utcnow e (w_clock w)))).
    intros [s|]; simpl; [apply String.eqb_refl|reflexivity]. }
  rewrite Hex. reflexivity.
Qed.

Lemma insert_desc_In d x (l : list order_doc) :
  In x (insert_desc d l) <-> x = d \/ In x l.
Proof.
  induction l as [|y r IH]; simpl.
  - intuition.
  - destruct (Z.ltb _ _); simpl; [intuition|]. rewrite IH. intuition.
Qed.

Lemma insert_desc_newest_first d (l : list order_doc) :
  newest_first l -> newest_first (insert_desc d l).
Proof.
  induction l as [|y r IH]; simpl.
  - intros _. split; [intros ? []|exact I].
  - intros [Hy Hr]. destruct (Z.ltb (o_created_at y) (o_created_at d)) eqn:Hlt.
    + apply Z.ltb_lt in Hlt. cbn [newest_first]. split; [|split; assumption].
      intros z [Hz|Hz]; [subst z; lia|]. specialize (Hy z Hz). lia.
    + apply Z.ltb_ge in Hlt. cbn [newest_first]. split; [|apply IH; exact Hr].
      intros z Hz. apply insert_desc_In in Hz. destruct Hz as [Hz|Hz].
      * subst z. exact Hlt.
      * apply Hy. exact Hz.
Qed.

Lemma sort_desc_In x (l : list order_doc) : In x (sort_desc l) <-> In x l.
Proof.
  induction l as [|y r IH]; simpl; [tauto|].
  rewrite insert_desc_In, IH. intuition.
Qed.

Lemma sort_desc_newest_first (l : list order_doc) : newest_first (sort_desc l).
Proof.
  induction l as [|y r IH]; simpl; [exact I|].
  apply insert_desc_newest_first. exact IH.
Qed.

Lemma cut_In n x (l : list order_doc) :
  In x (firstn n l) \/ In x (skipn n l) <-> In x l.
Proof.
  rewrite <- (firstn_skipn n l) at 3. rewrite in_app_iff. tauto.
Qed.

Lemma newest_first_cut n (l : list order_doc) :
  newest_first l ->
  newest_first (firstn n l)
  /\ forall x y, In x (firstn n l) -> In y (skipn n l) ->
                 (o_created_at y <= o_created_at x)%Z.
Proof.
  revert l. induction n as [|n IH]; intros l Hl.
  - simpl. split; [exact I|intros x y []].
  - destruct l as [|z r]; simpl.
    + split; [exact I|intros x y []].
    + destruct Hl as [Hz Hr]. destruct (IH r Hr) as [Hs Hc].
      split.
      * split; [|exact Hs]. intros y Hy. apply Hz. apply (cut_In n). left. exact Hy.
      * intros x y [Hx|Hx] Hy.
        -- subst x. apply Hz. apply (cut_In n). right. exact Hy.
        -- apply Hc; assumption.
Qed.

Lemma pending_orders_scan w :
  (List.length (get_all_pending_orders w) <= 100)%nat
  /\ (forall d, In d (get_all_pending_orders w) ->
                In d (w_orders w) /\ o_status d = "pending"%string)
  /\ newest_first (get_all_pending_orders w).
Proof.
  unfold get_all_pending_orders.
  set (p := filter _ (w_orders w)).
  destruct (newest_first_cut 100 (sort_desc p) (sort_desc_newest_first p)) as [Hs _].
  split; [apply firstn_le_length|]. split; [|exact Hs].
  intros d Hd. assert (Hd' : In d (sort_desc p)) by (apply (cut_In 100); left; exact Hd).
  apply (proj1 (sort_desc_In d p)) in Hd'.
  unfold p in Hd'. apply filter_In in Hd'. destruct Hd' as [Hin Hst].
  split; [exact Hin|]. apply String.eqb_eq. exact Hst.
Qed.

(** X7: [get_all_pending_orders] returns at most 100 orders,
    all of them pending orders of the store, from the newest to the
    oldest; a pending order it leaves out is no newer than any order it
    returns, and then it returns 100. *)
Theorem pending_orders_newest_hundred :
  forall w,
    let l := get_all_pending_orders w in
    (List.length l <= 100)%nat
    /\ (forall d, In d l -> In d (w_orders w) /\ o_status d = "pending"%string)
    /\ newest_first l
    /\ forall d, In d (w_orders w) -> o_status d = "pending"%string ->
         In d l
         \/ (List.length l = 100%nat
             /\ forall x, In x l -> (o_created_at d <= o_created_at x)%Z).
Proof.
  intros w l. unfold l, get_all_pending_orders.
  set (p := filter _ (w_orders w)).
  destruct (newest_first_cut 100 (sort_desc p) (sort_desc_newest_first p)) as [Hs Hc].
  split; [apply firstn_le_length|].
  split; [|split; [exact Hs|]].
  - intros d Hd. assert (Hd' : In d (sort_desc p)) by (apply (cut_In 100); left; exact Hd).
    clear Hd. apply (proj1 (sort_desc_In d p)) in Hd'. rename Hd' into Hd.
    unfold p in Hd. apply filter_In in Hd. destruct Hd as [Hin Hst].
    split; [exact Hin|]. apply String.eqb_eq. exact Hst.
  - intros d Hin Hst.
    assert (Hd : In d (sort_desc p)).
    { apply (proj2 (sort_desc_In d p)). unfold p. apply filter_In. split; [exact Hin|].
      apply String.eqb_eq. exact Hst. }
    apply (cut_In 100) in Hd. destruct Hd as [Hd|Hd]; [left; exact Hd|].
    right. split.
    + apply firstn_length_le.
      destruct (Nat.le_gt_cases 100 (List.length (sort_desc p))) as [Hle|Hgt];
        [exact Hle|].
      rewrite skipn_all2 in Hd by lia. destruct Hd.
    + intros x Hx. apply Hc; assumption.
Qed.

End StoreMore.

(** ** Sessions: what never happens, whatever is requested *)

Module SessionFacts.
Import Session MarketFacts.

Section Calm.

(** The property of the stored trades that is to be kept, and what is
    watched for. *)
Variable T : trade_doc -> Prop.
Variable k : watch.

Hypothesis T_status :
  forall s rd now d, T d -> T (set_trade_status s rd now d).
Hypothesis T_flag :
  forall px d, T d -> T (set_stop_loss_triggered px d).
Hypothesis T_new :
  forall d, t_entry_price d = None -> (exists h, t_id d = ObjectId h) -> T d.
Hypothesis T_entries :
  entries k = true -> forall d, T d -> t_entry_price d = None.

Lemma ids_update i f (ts : list trade_doc) :
  (forall d, t_id (f d) = t_id d) -> map t_id (update_trade i f ts) = map t_id ts.
Proof.
  intro Hf. unfold update_trade. rewrite map_map. apply map_ext.
  intro d. destruct (bson_id_eqb _ _); [apply Hf|reflexivity].
Qed.

Lemma calm_refl w : calm T k w w.
Proof.
  split; [auto|]. split; [auto|]. split; [|apply incl_refl].
  exists []. rewrite app_nil_r. auto.
Qed.

Lemma calm_trans w1 w2 w3 : calm T k w1 w2 -> calm T k w2 w3 -> calm T k w1 w3.
Proof.
  intros (He1 & Hp1 & (a1 & Ht1 & Hs1) & Hi1) (He2 & Hp2 & (a2 & Ht2 & Hs2) & Hi2).
  split; [auto|]. split; [auto|]. split; [|eapply incl_tran; eauto].
  exists (a1 ++ a2). rewrite Ht2, Ht1, <- app_assoc. split; [reflexivity|].
  rewrite forallb_app, Hs1, Hs2. reflexivity.
Qed.

(** A change that touches neither the trades nor the orders. *)
Lemma calm_aside w w' added :
  w_trades w' = w_trades w -> w_orders w' = w_orders w ->
  w_trace w' = w_trace w ++ added -> forallb (silent k) added = true ->
  calm T k w w'.
Proof.
  intros Ht Ho Htr Hs. unfold calm, all_trades, no_trigger_price.
  rewrite Ht, Ho. split; [auto|]. split; [auto|]. split; [|apply incl_refl].
  exists added. auto.
Qed.

Lemma calm_step w : calm T k w (step w).
Proof. apply (@calm_aside w (step w) []); auto. simpl. rewrite app_nil_r. auto. Qed.

Lemma calm_emit w ev : silent k ev = true -> calm T k w (emit w ev).
Proof.
  intro Hs. apply (@calm_aside w (emit w ev) [ev]); auto. simpl. rewrite Hs. auto.
Qed.

Lemma calm_alert w user kind : calm T k w (emit w (ev_alert user kind)).
Proof. apply calm_emit. reflexivity. Qed.

Lemma calm_set_subs w ss : calm T k w (set_subs w ss).
Proof.
  apply (@calm_aside w (set_subs w ss) []); auto. simpl. rewrite app_nil_r. auto.
Qed.

Lemma calm_fold (A : Type) (f : world -> A -> world) (l : list A) :
  (forall x, In x l -> forall w, calm T k w (f w x)) ->
  forall w, calm T k w (fold_left f l w).
Proof.
  induction l as [|x r IH]; intros Hf w; simpl; [apply calm_refl|].
  eapply calm_trans; [apply Hf; left; reflexivity|].
  apply IH. intros y Hy. apply Hf. right. exact Hy.
Qed.

Lemma calm_store_trade e w doc :
  (forall h now, t_entry_price (doc (ObjectId h) now) = None
                 /\ t_id (doc (ObjectId h) now) = ObjectId h) ->
  calm T k w (fst (store_trade e w doc)).
Proof.
  intro Hdoc. split; [|split; [|split]].
  - unfold all_trades.
    destruct (MarketMore.store_trade_appends e w doc) as [(_ & Hts & _)|(_ & Hts)];
      rewrite Hts; [|auto].
    intros Hw d Hd. apply in_app_or in Hd. destruct Hd as [Hd|[Hd|[]]]; [auto|].
    subst d. destruct (Hdoc (new_object_id e (w_clock w)) (utcnow e (w_clock w)))
      as [Hent Hid].
    apply T_new; [exact Hent|eexists; exact Hid].
  - unfold no_trigger_price. rewrite store_trade_orders. auto.
  - exists []. rewrite store_trade_trace, app_nil_r. auto.
  - destruct (MarketMore.store_trade_appends e w doc) as [(_ & Hts & _)|(_ & Hts)];
      rewrite Hts; [|apply incl_refl].
    rewrite map_app. apply incl_appl, incl_refl.
Qed.

Lemma calm_update_trade_status e w trade_id s rd :
  calm T k w (fst (update_trade_status e w trade_id s rd)).
Proof.
  destruct (LimitFacts.update_trade_status_cases e w trade_id s rd) as [H|H]; rewrite H;
    [apply calm_step|].
  split; [|split; [|split]].
  - unfold all_trades, update_trade. simpl. intros Hw d Hd.
    apply in_map_iff in Hd. destruct Hd as (d0 & Hd0 & Hin).
    specialize (Hw d0 Hin). subst d. destruct (bson_id_eqb _ _); [|exact Hw].
    apply T_status. exact Hw.
  - auto.
  - exists []. simpl. rewrite app_nil_r. auto.
  - simpl. rewrite ids_update by reflexivity. apply incl_refl.
Qed.

Lemma calm_update_order_status w order_id s px :
  calm T k w (fst (update_order_status w order_id s px)).
Proof.
  unfold update_order_status. simpl. split; [|split; [|split]].
  - auto.
  - unfold no_trigger_price, update_order. simpl. intros Hw d Hd.
    apply in_map_iff in Hd. destruct Hd as (d0 & Hd0 & Hin).
    specialize (Hw d0 Hin). subst d. destruct (bson_id_eqb _ _); exact Hw.
  - exists []. simpl. rewrite app_nil_r. auto.
  - apply incl_refl.
Qed.

Lemma calm_stop_loss_triggered w trade_id px :
  calm T k w (fst (update_trade_stop_loss_triggered w trade_id px)).
Proof.
  unfold update_trade_stop_loss_triggered. simpl. split; [|split; [|split]].
  - unfold all_trades, update_trade. simpl. intros Hw d Hd.
    apply in_map_iff in Hd. destruct Hd as (d0 & Hd0 & Hin).
    specialize (Hw d0 Hin). subst d. destruct (bson_id_eqb _ _); [|exact Hw].
    apply T_flag. exact Hw.
  - auto.
  - exists []. simpl. rewrite app_nil_r. auto.
  - change (incl (map t_id (w_trades w))
              (map t_id (update_trade (ObjectId trade_id) (set_stop_loss_triggered px)
                           (w_trades w)))).
    rewrite ids_update by reflexivity. apply incl_refl.
Qed.

Lemma appended_keeps user w w' :
  Observe.appended user (w_trades w) (w_trades w') ->
  all_trades T w -> all_trades T w'.
Proof.
  unfold all_trades.
  intros [Heq|(x & Heq & _ & _ & _ & Hent & Hid & _)] Hw d Hd; rewrite Heq in Hd; [auto|].
  apply in_app_or in Hd. destruct Hd as [Hd|[Hd|[]]]; [auto|]. subst d.
  apply T_new; assumption.
Qed.

Lemma appended_ids user (ts ts' : list trade_doc) :
  Observe.appended user ts ts' -> incl (map t_id ts) (map t_id ts').
Proof.
  intros [Heq|(x & Heq & _)]; rewrite Heq; [apply incl_refl|].
  rewrite map_app. apply incl_appl, incl_refl.
Qed.

Lemma calm_market_buy cfg payment e o user token amt w :
  quiet k o = true -> calm T k w (fst (execute_market_buy cfg payment e o user token amt w)).
Proof.
  intro Hq. split; [|split; [|split]].
  - apply (@appended_keeps user). apply MarketMore.execute_market_buy_appends.
  - unfold no_trigger_price. rewrite LimitFacts.execute_market_buy_orders. auto.
  - destruct (execute_market_buy_trace cfg payment e o user token amt w) as [called Htr].
    eexists. split; [exact Htr|].
    destruct called; simpl; unfold silent; simpl; rewrite Hq; reflexivity.
  - apply (@appended_ids user). apply MarketMore.execute_market_buy_appends.
Qed.

Lemma calm_market_sell cfg payment e o user token amt w :
  quiet k o = true -> calm T k w (fst (execute_market_sell cfg payment e o user token amt w)).
Proof.
  intro Hq. split; [|split; [|split]].
  - apply (@appended_keeps user). apply MarketMore.execute_market_sell_appends.
  - unfold no_trigger_price. rewrite LimitFacts.execute_market_sell_orders. auto.
  - destruct (execute_market_sell_trace cfg payment e o user token amt w) as [Htr _].
    eexists. split; [exact Htr|].
    simpl; unfold silent; simpl; rewrite Hq; reflexivity.
  - apply (@appended_ids user). apply MarketMore.execute_market_sell_appends.
Qed.

Lemma quiet_other o :
  for_stop_loss o = false -> for_limit_order o = false -> for_active_order o = false ->
  quiet k o = true.
Proof.
  intros Hs Hl Ha. unfold quiet. rewrite Hs, Hl, Ha, !andb_false_r. reflexivity.
Qed.

Lemma quiet_active order_id : actives k = false -> quiet k (ActiveOrder order_id) = true.
Proof. intro Ha. unfold quiet. rewrite Ha, !andb_false_r. reflexivity. Qed.

Lemma calm_swap w o a b amt slip ok :
  quiet k o = true -> calm T k w (step (emit w (ev_swap o a b amt slip ok))).
Proof.
  intro Hq. eapply calm_trans; [|apply calm_step].
  apply calm_emit. exact Hq.
Qed.

Lemma calm_execute_market_order e order_id order a w :
  actives k = false ->
  calm T k w (fst (_execute_market_order e order_id order a w)).
Proof.
  intro Hact. unfold _execute_market_order.
  pose proof (calm_update_trade_status e w order_id (status_value EXECUTING) no_data) as H1.
  destruct (update_trade_status e w order_id (status_value EXECUTING) no_data) as [w1 b1].
  simpl fst in H1. cbv zeta.
  set (res := execute_swap e (w_clock w1) (input_token order) (output_token order)
                (amount order) (slippage order)).
  set (w2 := step (emit w1 (ev_swap (ActiveOrder order_id) (input_token order)
                              (output_token order) (amount order) (slippage order)
                              (sr_success res)))).
  assert (H2 : calm T k w w2).
  { eapply calm_trans; [exact H1|]. apply calm_swap. apply quiet_active, Hact. }
  assert (Hfail : calm T k w (fst (update_trade_status e w2 order_id (status_value FAILED)
                                   no_data))).
  { eapply calm_trans; [exact H2|]. apply calm_update_trade_status. }
  destruct (sr_success res).
  - destruct (sr_signature res) as [sig|]; [|exact Hfail].
    destruct (sr_output_amount res) as [out|]; [|exact Hfail].
    destruct (sr_price_impact res) as [imp|]; [|exact Hfail].
    match goal with |- context [update_trade_status ?e ?w ?i ?s ?rd] =>
      pose proof (calm_update_trade_status e w i s rd) as H3;
      destruct (update_trade_status e w i s rd) as [w3 b3] end.
    simpl. eapply calm_trans; [exact H2|]. eapply calm_trans; [exact H3|].
    apply calm_alert.
  - destruct (sr_error res); simpl; [|exact Hfail].
    eapply calm_trans; [exact Hfail|]. apply calm_alert.
Qed.

Lemma calm_check_limit_order cfg payment e order_id order w :
  (triggers k = true -> o_price order = None) ->
  calm T k w (LimitMonitor._check_limit_order cfg payment e order_id order w).
Proof.
  intro Hpx. unfold LimitMonitor._check_limit_order.
  destruct (o_output_token order) as [tok|]; [|apply calm_refl].
  destruct (Qeq_bool _ 0); [apply calm_step|].
  destruct (triggers k) eqn:Hk.
  { rewrite (Hpx eq_refl). simpl dflt. change (Qltb 0 0) with false.
    rewrite !andb_false_r. apply calm_step. }
  assert (Hq : quiet k (LimitOrder order_id) = true).
  { unfold quiet. rewrite Hk. simpl. rewrite !andb_false_r. reflexivity. }
  match goal with
  | |- calm T k w (if ?c then _ else _) => destruct c; [|apply calm_step]
  end.
  assert (Hdone : forall w1 result px,
            calm T k w w1 ->
            calm T k w (if r_success result
                      then let '(w2, _) := update_order_status w1 order_id "completed" px in
                           emit w2 (ev_alert (o_user_id order) "limit_order")
                      else fst (update_order_status w1 order_id "failed" None))).
  { intros w1 result px Hw1. destruct (r_success result).
    - pose proof (calm_update_order_status w1 order_id "completed" px) as Hu.
      destruct (update_order_status w1 order_id "completed" px) as [w2 b].
      eapply calm_trans; [exact Hw1|]. eapply calm_trans; [exact Hu|]. apply calm_alert.
    - eapply calm_trans; [exact Hw1|]. apply calm_update_order_status. }
  destruct (String.eqb _ "limit_buy").
  - destruct (o_amount_sol order) as [amt|]; [|apply calm_step].
    pose proof (@calm_market_buy cfg payment e (LimitOrder order_id) (o_user_id order) tok amt
                  (step w) Hq) as Hb.
    destruct (execute_market_buy _ _ _ _ _ _ _ _) as [w1 result].
    apply Hdone. eapply calm_trans; [apply calm_step|exact Hb].
  - destruct (o_input_token order) as [tin|]; [|apply calm_step].
    destruct (o_amount_tokens order) as [amt|]; [|apply calm_step].
    pose proof (@calm_market_sell cfg payment e (LimitOrder order_id) (o_user_id order) tin amt
                  (step w) Hq) as Hb.
    destruct (execute_market_sell _ _ _ _ _ _ _ _) as [w1 result].
    apply Hdone. eapply calm_trans; [apply calm_step|exact Hb].
Qed.

Lemma calm_limit_round cfg payment e w :
  holds T k w -> calm T k w (LimitMonitor._monitor_limit_orders cfg payment e w).
Proof.
  intros [_ Hpx]. unfold LimitMonitor._monitor_limit_orders.
  eapply calm_trans; [apply calm_step|].
  apply calm_fold. intros order Hin w0. apply calm_check_limit_order.
  intro Hk. apply (Hpx Hk).
  destruct (StoreMore.pending_orders_scan w) as (_ & Hsub & _).
  apply Hsub. exact Hin.
Qed.

Lemma calm_execute_stop_loss cfg payment e trade px w :
  entries k = false ->
  calm T k w (StopLossMonitor._execute_stop_loss cfg payment e trade px w).
Proof.
  intro Hk. unfold StopLossMonitor._execute_stop_loss.
  destruct (Qleb _ 0); [apply calm_refl|].
  destruct (t_output_token trade) as [tok|]; [|apply calm_refl].
  assert (Hq : quiet k (StopLoss (t_id trade)) = true).
  { unfold quiet. rewrite Hk. simpl. rewrite !andb_false_r. reflexivity. }
  match goal with |- context [execute_market_sell ?c ?p ?e ?o ?u ?t ?a ?w] =>
    pose proof (@calm_market_sell c p e o u t a w Hq) as Hs;
    destruct (execute_market_sell c p e o u t a w) as [w1 result] end.
  simpl fst in Hs. destruct (r_success result); [|exact Hs].
  match goal with |- context [update_trade_stop_loss_triggered ?w ?i ?p] =>
    pose proof (calm_stop_loss_triggered w i p) as Hu;
    destruct (update_trade_stop_loss_triggered w i p) as [w2 b] end.
  eapply calm_trans; [exact Hs|]. eapply calm_trans; [exact Hu|]. apply calm_alert.
Qed.

Lemma calm_check_stop_loss cfg payment e trade w :
  (entries k = true -> t_entry_price trade = None) ->
  calm T k w (StopLossMonitor._check_stop_loss cfg payment e trade w).
Proof.
  intro Hent. unfold StopLossMonitor._check_stop_loss.
  destruct (negb _); [apply calm_refl|].
  destruct (Qeq_bool _ 0); [apply calm_step|].
  destruct (entries k) eqn:Hk.
  { rewrite (Hent eq_refl). simpl dflt. change (Qeq_bool 0 0) with true. apply calm_step. }
  destruct (Qeq_bool _ 0); [apply calm_step|].
  destruct (Qeq_bool _ 0); [apply calm_step|].
  destruct (Binary64.leb _ _); [|apply calm_step].
  eapply calm_trans; [apply calm_step|]. apply calm_execute_stop_loss. exact Hk.
Qed.

Lemma calm_stop_loss_round cfg payment e w :
  holds T k w -> calm T k w (StopLossMonitor._monitor_stop_losses cfg payment e w).
Proof.
  intros [Hent _]. unfold StopLossMonitor._monitor_stop_losses.
  eapply calm_trans; [apply calm_step|].
  apply calm_fold. intros trade Hin w0. apply calm_check_stop_loss.
  intro Hk. apply (T_entries Hk). apply Hent.
  unfold StopLossMonitor.get_completed_trades_with_stop_loss in Hin.
  apply filter_In in Hin. apply Hin.
Qed.

Lemma calm_copy_for_user cfg payment e wallet t ty amount usd tin tout user_data w :
  calm T k w (CopyTrading.copy_for_user cfg payment e wallet t ty amount usd tin tout user_data w).
Proof.
  unfold CopyTrading.copy_for_user.
  destruct (negb _); [apply calm_refl|].
  destruct (CopyTrading.child_amount _ amount usd) as [amt|]; [|apply calm_refl].
  set (o := CopyTrade wallet (tx_signature t) (sub_user_id user_data)).
  assert (Hq : quiet k o = true) by (apply quiet_other; reflexivity).
  assert (Hdone : forall (p : world * exec_result),
            calm T k w (fst p) ->
            calm T k w (let '(w0, result) := p in
                      if r_success result
                      then step (emit w0 (ev_alert (sub_user_id user_data) "copy_trade"))
                      else w0)).
  { intros [w1 result] Hw1. simpl in Hw1. destruct (r_success result); [|exact Hw1].
    eapply calm_trans; [exact Hw1|]. eapply calm_trans; [apply calm_alert|apply calm_step]. }
  destruct (String.eqb ty "buy"); [apply Hdone, calm_market_buy, Hq|].
  destruct (String.eqb ty "sell"); [apply Hdone, calm_market_sell, Hq|].
  destruct (String.eqb ty "swap"); [|apply calm_refl].
  destruct (String.eqb tin SOL_MINT);
    [apply Hdone, calm_market_buy, Hq|apply Hdone, calm_market_sell, Hq].
Qed.

Lemma calm_execute_copy_trades cfg payment e wallet t w :
  calm T k w (CopyTrading._execute_copy_trades cfg payment e wallet t w).
Proof.
  unfold CopyTrading._execute_copy_trades.
  destruct (CopyTrading.get_copy_trading_users w wallet) as [|u us]; [apply calm_step|].
  destruct (_ && _); [apply calm_step|].
  destruct (_ || _); [apply calm_step|].
  eapply calm_trans; [apply calm_step|].
  apply calm_fold. intros x _ w0. apply calm_copy_for_user.
Qed.

Lemma calm_check_transaction cfg payment e wallet t w :
  calm T k w (CopyTrading.check_transaction cfg payment e wallet t w).
Proof.
  unfold CopyTrading.check_transaction.
  match goal with |- calm T k w (if ?c then _ else _) => destruct c; [apply calm_refl|] end.
  match goal with |- calm T k w (match ?c with Some _ => _ | None => _ end) =>
    destruct c; [|apply calm_refl] end.
  apply calm_execute_copy_trades.
Qed.

Lemma calm_copy_round cfg payment e subscriptions w :
  calm T k w (CopyTrading._monitor_copy_trading cfg payment e subscriptions w).
Proof.
  unfold CopyTrading._monitor_copy_trading.
  destruct subscriptions as [|s ss]; [apply calm_refl|].
  apply calm_fold. intros wallet _ w0. unfold CopyTrading.check_wallet.
  eapply calm_trans; [apply calm_step|].
  apply calm_fold. intros t _ w1. apply calm_check_transaction.
Qed.

Lemma calm_snipe_trade cfg payment e so token w :
  calm T k w (fst (fst (Snipe.execute_snipe_trade cfg payment e so token w))).
Proof.
  unfold Snipe.execute_snipe_trade.
  destruct (Qleb _ _); [apply calm_refl|].
  destruct (Qltb _ (1 # 100)); [apply calm_refl|].
  match goal with |- context [execute_market_buy ?c ?p ?e ?o ?u ?t ?a ?w] =>
    pose proof (@calm_market_buy c p e o u t a w (quiet_other o eq_refl eq_refl eq_refl)) as Hb;
    destruct (execute_market_buy c p e o u t a w) as [w1 result] end.
  simpl fst in Hb. destruct (r_success result); simpl; [|exact Hb].
  eapply calm_trans; [exact Hb|].
  eapply calm_trans; [apply calm_step|].
  eapply calm_trans; [apply calm_step|]. apply calm_alert.
Qed.

Lemma calm_process_order r item s :
  actives k = false ->
  calm T k (fst s) (fst (OrderLoop.process_order r item s)).
Proof.
  intro Hact. destruct item as [order_id order]. destruct s as [w a].
  unfold OrderLoop.process_order.
  match goal with |- calm T k _ (fst (if ?c then _ else _)) =>
    destruct c; [apply calm_refl|] end.
  destruct (_ || _); [apply calm_refl|].
  destruct (TradeType_eqb _ SNIPE); [|apply calm_refl].
  unfold OrderLoop._check_snipe_order.
  destruct (opt_string_eqb _ _); [apply calm_step|].
  eapply calm_trans; [apply calm_step|]. apply calm_execute_market_order, Hact.
Qed.

Lemma calm_process_orders r s :
  actives k = false ->
  calm T k (fst s) (fst (OrderLoop._process_orders r s)).
Proof.
  intro Hact. unfold OrderLoop._process_orders. generalize (snd s) at 1. intro items.
  revert s. induction items as [|item rest IH]; intro s; simpl; [apply calm_refl|].
  eapply calm_trans; [apply calm_process_order, Hact|]. apply IH.
Qed.

Lemma calm_create_trade_order cfg e validate_address order a w :
  calm T k w (fst (fst (fst (Intake.create_trade_order cfg e validate_address order a w)))).
Proof.
  unfold Intake.create_trade_order.
  destruct (negb _); [apply calm_refl|].
  match goal with |- context [store_trade ?e ?w ?d] =>
    pose proof (@calm_store_trade e w d (fun _ _ => conj eq_refl eq_refl)) as Hs;
    destruct (store_trade e w d) as [w1 result] end.
  simpl fst in Hs. destruct (negb result); [exact Hs|].
  destruct (Intake.latest_trade _ _); simpl;
    (eapply calm_trans; [exact Hs|apply calm_step]).
Qed.

Lemma calm_store_limit_order e w order_data :
  o_price order_data = None ->
  calm T k w (fst (Store.create_limit_order e w order_data)).
Proof.
  intro Hpx. unfold Store.create_limit_order. cbv zeta.
  destruct (existsb _ (w_orders w)); [apply calm_step|].
  split; [|split; [|split]].
  - auto.
  - unfold no_trigger_price. simpl. intros Hw d Hd.
    apply in_app_or in Hd. destruct Hd as [Hd|[Hd|[]]]; [auto|]. subst d. exact Hpx.
  - exists []. simpl. rewrite app_nil_r. auto.
  - apply incl_refl.
Qed.

Lemma calm_create_limit_order cfg e user token amt w :
  calm T k w (fst (Intake.create_limit_order cfg e user token amt w)).
Proof.
  unfold Intake.create_limit_order.
  destruct (_ || _); [apply calm_refl|].
  match goal with |- context [Store.create_limit_order ?e ?w ?d] =>
    pose proof (@calm_store_limit_order e w d eq_refl) as Hs;
    destruct (Store.create_limit_order e w d) as [w1 oid] end.
  simpl fst in Hs.
  destruct oid as [i|]; [destruct (String.eqb i EmptyString)|]; exact Hs.
Qed.

Lemma calm_cancel_user_order e user order_id a w :
  calm T k w (fst (fst (Cancel.cancel_user_order e user order_id a w))).
Proof.
  unfold Cancel.cancel_user_order.
  destruct (Cancel.find_one w order_id user); [|apply calm_step].
  pose proof (calm_update_trade_status e (step w) order_id "cancelled" no_data) as Hu.
  destruct (update_trade_status e (step w) order_id "cancelled" no_data) as [w1 b].
  simpl. eapply calm_trans; [apply calm_step|exact Hu].
Qed.

Lemma calm_subscribe self e validate_address acknowledged user wallet settings w :
  calm T k w (fst (Subscribe.subscribe_copy_trading self e validate_address acknowledged
                   user wallet settings w)).
Proof.
  unfold Subscribe.subscribe_copy_trading, Subscribe.store_copy_trading_subscription.
  destruct (negb _); [apply calm_refl|].
  destruct acknowledged; [|apply calm_step].
  assert (Hs : forall doc, calm T k w (step (set_subs w (w_subs w ++ [doc])))).
  { intro doc. eapply calm_trans; [apply calm_set_subs|apply calm_step]. }
  destruct (Subscribe.getattr self "analyzer"); simpl; [|apply Hs].
  eapply calm_trans; [apply Hs|apply calm_step].
Qed.

Lemma calm_unsubscribe user wallet w :
  calm T k w (fst (Intake.unsubscribe_copy_trading user wallet w)).
Proof.
  unfold Intake.unsubscribe_copy_trading, Store.remove_copy_trading_subscription.
  destruct (Store.update_first _ _ _) as [subs found].
  assert (Hs : calm T k w (step (set_subs w subs)))
    by (eapply calm_trans; [apply calm_set_subs|apply calm_step]).
  destruct found; exact Hs.
Qed.

Lemma calm_update_settings user wallet settings w :
  calm T k w (fst (Intake.update_copy_trading_settings user wallet settings w)).
Proof.
  unfold Intake.update_copy_trading_settings, Store.update_copy_trading_settings.
  destruct (Store.update_first _ _ _) as [subs found].
  assert (Hs : calm T k w (step (set_subs w subs)))
    by (eapply calm_trans; [apply calm_set_subs|apply calm_step]).
  destruct found; exact Hs.
Qed.

Lemma calm_serve cfg payment e rq s :
  (actives k = true -> runs_orders rq = false) ->
  holds T k (fst s) -> calm T k (fst s) (fst (serve cfg payment e rq s)).
Proof.
  destruct s as [w a]. intros Hrq Hw. simpl fst in Hw |- *.
  assert (Hact : runs_orders rq = true -> actives k = false).
  { intro H. destruct (actives k); [rewrite Hrq in H by reflexivity; discriminate|auto]. }
  destruct rq; simpl.
  - pose proof (calm_create_trade_order cfg e validate_address order a w) as H.
    destruct (Intake.create_trade_order _ _ _ _ _ _) as [[[w1 a1] t1] r1]. exact H.
  - apply calm_execute_market_order. apply Hact. reflexivity.
  - apply (calm_process_orders
             {| OrderLoop.outside := e; OrderLoop.get_token_symbol := get_token_symbol |}
             (w, a)). apply Hact. reflexivity.
  - apply calm_market_buy. apply quiet_other; reflexivity.
  - apply calm_market_sell. apply quiet_other; reflexivity.
  - apply calm_create_limit_order.
  - apply calm_limit_round. exact Hw.
  - apply calm_copy_round.
  - apply calm_snipe_trade.
  - apply calm_stop_loss_round. exact Hw.
  - pose proof (calm_cancel_user_order e user order_id a w) as H.
    destruct (Cancel.cancel_user_order _ _ _ _ _) as [[w1 a1] r1]. exact H.
  - apply calm_subscribe.
  - apply calm_unsubscribe.
  - apply calm_update_settings.
Qed.

Lemma holds_after w w' : calm T k w w' -> holds T k w -> holds T k w'.
Proof.
  intros (He & Hp & _) [Hwe Hwp]. split; auto.
Qed.

Lemma calm_session cfg payment l : forall s,
  actives k = false ->
  holds T k (fst s) -> calm T k (fst s) (fst (session cfg payment l s)).
Proof.
  intro s. intro Hact. revert s.
  induction l as [|[e rq] rest IH]; intros s Hs; simpl; [apply calm_refl|].
  assert (H1 : calm T k (fst s) (fst (serve cfg payment e rq s))).
  { apply calm_serve; [|exact Hs]. rewrite Hact. discriminate. }
  eapply calm_trans; [exact H1|]. apply IH. eapply holds_after; eauto.
Qed.

Lemma made_for_silent p added :
  (forall o, p o = true -> quiet k o = false) ->
  forallb (silent k) added = true -> made_for p added = [].
Proof.
  intros Hp. induction added as [|ev r IH]; simpl; [reflexivity|].
  intro H. apply andb_true_iff in H. destruct H as [Hev Hr].
  unfold silent in Hev. destruct (origin_of ev) as [o|]; [|exact (IH Hr)].
  destruct (p o) eqn:Hpo; [|exact (IH Hr)].
  rewrite (Hp o Hpo) in Hev. discriminate.
Qed.

End Calm.

Lemma made_for_app p tr1 tr2 :
  made_for p (tr1 ++ tr2) = made_for p tr1 ++ made_for p tr2.
Proof. unfold made_for. apply filter_app. Qed.

(** X8: no operation of the engine writes the entry price of a
    trade.  So, from a store in which no trade has one (the empty store,
    for one), whatever requests are served in whatever order, no stop loss
    ever submits or executes a sell, and the store stays without entry
    prices. *)
Theorem stop_loss_never_fires_in_session :
  forall cfg payment l s,
    no_entry_price (fst s) ->
    made_for for_stop_loss (w_trace (fst (session cfg payment l s)))
    = made_for for_stop_loss (w_trace (fst s))
    /\ no_entry_price (fst (session cfg payment l s)).
Proof.
  intros cfg payment l s Hs.
  set (k := {| entries := true; triggers := false; actives := false |}).
  set (T := fun d : trade_doc => t_entry_price d = None).
  assert (Hk : holds T k (fst s)) by (split; [exact Hs|discriminate]).
  destruct (@calm_session T k) with (cfg := cfg) (payment := payment) (l := l) (s := s)
    as (He & _ & (added & Htr & Hsil) & _); try exact Hk; unfold T; auto.
  split; [|exact (He Hs)].
  rewrite Htr, made_for_app, (@made_for_silent k for_stop_loss added); auto.
  - apply app_nil_r.
  - intros o Ho. unfold quiet. simpl. rewrite Ho. reflexivity.
Qed.

Lemma stop_loss_never_fires_in_session_witness :
  made_for for_stop_loss
    (w_trace (fst (session default_config Examples.unwired MoreExamples.crash_session
                     (Examples.empty_world, []))))
  = made_for for_stop_loss (w_trace (fst (Examples.empty_world, @nil (string * TradeOrder))))
  /\ no_entry_price (fst (session default_config Examples.unwired MoreExamples.crash_session
                            (Examples.empty_world, []))).
Proof.
  apply (@stop_loss_never_fires_in_session default_config Examples.unwired
           MoreExamples.crash_session (Examples.empty_world, [])).
  intros d [].
Defined.

(** The session of the witness, evaluated: the buy with its stop loss of
    10% is completed at the price 10 and holds one token; the price falls
    to 1, the monitor runs, and nothing is sold. *)
Example crash_session_sells_nothing :
  let w := fst (session default_config Examples.unwired MoreExamples.crash_session
                  (Examples.empty_world, [])) in
  map (fun d => (t_status d, t_stop_loss d, t_output_amount d, t_stop_loss_triggered d))
      (w_trades w)
  = [("completed"%string, Some 10, Some 1, false)]
  /\ map o_status (w_orders w) = ["pending"%string]
  /\ List.length (w_trace w) = 2%nat.
Proof. vm_compute. repeat split; reflexivity. Qed.




(** X9: [create_limit_order], the only operation that stores a
    limit order, stores it without trigger price.  So, from a store in
    which no order has one, whatever requests are served, no limit order
    is ever executed: nothing is submitted to, or requested from, the
    venue on behalf of a limit order. *)
Theorem limit_orders_never_execute_in_session :
  forall cfg payment l s,
    no_trigger_price (fst s) ->
    made_for for_limit_order (w_trace (fst (session cfg payment l s)))
    = made_for for_limit_order (w_trace (fst s))
    /\ no_trigger_price (fst (session cfg payment l s)).
Proof.
  intros cfg payment l s Hs.
  set (k := {| entries := false; triggers := true; actives := false |}).
  set (T := fun _ : trade_doc => True).
  assert (Hk : holds T k (fst s)) by (split; [intros d _; exact I|intros _; exact Hs]).
  destruct (@calm_session T k) with (cfg := cfg) (payment := payment) (l := l) (s := s)
    as (_ & Hp & (added & Htr & Hsil) & _); try exact Hk; unfold T; auto; try discriminate.
  split; [|exact (Hp Hs)].
  rewrite Htr, made_for_app, (@made_for_silent k for_limit_order added); auto.
  - apply app_nil_r.
  - intros o Ho. unfold quiet. simpl. rewrite Ho. reflexivity.
Qed.

Lemma limit_orders_never_execute_in_session_witness :
  made_for for_limit_order
    (w_trace (fst (session default_config Examples.unwired MoreExamples.crash_session
                     (Examples.empty_world, []))))
  = made_for for_limit_order (w_trace (fst (Examples.empty_world, @nil (string * TradeOrder))))
  /\ no_trigger_price (fst (session default_config Examples.unwired MoreExamples.crash_session
                              (Examples.empty_world, []))).
Proof.
  apply (@limit_orders_never_execute_in_session default_config Examples.unwired
           MoreExamples.crash_session (Examples.empty_world, [])).
  intros d [].
Defined.

Lemma cancel_needs_string_id e user order_id a w :
  driver_ids w ->
  Cancel.cancel_user_order e user order_id a w
  = (step w, a, (false, "Order not found"%string)).
Proof.
  intro Hids. unfold Cancel.cancel_user_order.
  assert (Hnone : Cancel.find_one w order_id user = None).
  { unfold Cancel.find_one. destruct (find _ (w_trades w)) as [d|] eqn:Hf; [|reflexivity].
    apply find_some in Hf. destruct Hf as [Hin Hd].
    destruct (Hids d Hin) as [h Hh]. rewrite Hh in Hd. discriminate. }
  rewrite Hnone. reflexivity.
Qed.

(** X10: the store gives every trade an [ObjectId], and
    [cancel_user_order] looks the order up by the string.  From a store
    whose identifiers are [ObjectId]s (the empty store, for one), whatever
    requests are served, the identifiers stay [ObjectId]s and every
    cancellation answers "Order not found", leaving the trades and the
    active orders as they are. *)
Theorem stored_orders_are_never_cancelled :
  forall cfg payment l s,
    driver_ids (fst s) ->
    driver_ids (fst (session cfg payment l s))
    /\ forall e user order_id,
         Cancel.cancel_user_order e user order_id (snd (session cfg payment l s))
           (fst (session cfg payment l s))
         = (step (fst (session cfg payment l s)), snd (session cfg payment l s),
            (false, "Order not found"%string)).
Proof.
  intros cfg payment l s Hs.
  set (k := {| entries := false; triggers := false; actives := false |}).
  set (T := fun d : trade_doc => exists h, t_id d = ObjectId h).
  assert (Hk : holds T k (fst s)) by (split; [exact Hs|discriminate]).
  destruct (@calm_session T k) with (cfg := cfg) (payment := payment) (l := l) (s := s)
    as (He & _); try exact Hk; unfold T; auto; try discriminate.
  split; [exact (He Hs)|].
  intros e user order_id. apply cancel_needs_string_id. exact (He Hs).
Qed.

Lemma stored_orders_are_never_cancelled_witness :
  driver_ids (fst (session default_config Examples.unwired MoreExamples.crash_session
                     (Examples.empty_world, [])))
  /\ forall e user order_id,
       Cancel.cancel_user_order e user order_id
         (snd (session default_config Examples.unwired MoreExamples.crash_session
                 (Examples.empty_world, [])))
         (fst (session default_config Examples.unwired MoreExamples.crash_session
                 (Examples.empty_world, [])))
       = (step (fst (session default_config Examples.unwired MoreExamples.crash_session
                       (Examples.empty_world, []))),
          snd (session default_config Examples.unwired MoreExamples.crash_session
                 (Examples.empty_world, [])),
          (false, "Order not found"%string)).
Proof.
  apply (@stored_orders_are_never_cancelled default_config Examples.unwired
           MoreExamples.crash_session (Examples.empty_world, [])).
  intros d [].
Defined.

End SessionFacts.

(** ** Limit orders *)

Module LimitMore.
Import LimitMonitor MarketFacts.

(** X11: a limit sell with trigger [P > 0] is checked against the
    price [C] of its output token.  When [C >= P] it sells the input token,
    [amount_tokens] of it, and the venue is asked once; otherwise nothing
    is done. *)
Theorem limit_sell_triggers_iff :
  forall cfg payment e order_id order w tok tin P a,
    let C := get_token_price e (w_clock w) tok in
    let w' := _check_limit_order cfg payment e order_id order w in
    o_output_token order = Some tok ->
    o_trade_type order = Some "limit_sell"%string ->
    o_price order = Some P -> (0 < P)%Q ->
    o_input_token order = Some tin ->
    o_amount_tokens order = Some a ->
    ~ (C == 0)%Q ->
    ((P <= C)%Q ->
       swaps_of (LimitOrder order_id) (w_trace w')
       = S (swaps_of (LimitOrder order_id) (w_trace w))
       /\ exists rest,
            w_trace w' = w_trace w ++
              ev_submit (LimitOrder order_id) Sell (o_user_id order) tin a :: rest)
    /\ (~ (P <= C)%Q -> w_trace w' = w_trace w).
Proof.
  intros cfg payment e order_id order w tok tin P a C w' Htok Hty Hpx HP Hin Ha HC.
  unfold w', _check_limit_order. rewrite Htok, Hty, Hpx, Hin, Ha. simpl dflt.
  fold C.
  destruct (Qeq_bool C 0) eqn:HC0; [apply Qeq_bool_iff in HC0; contradiction|].
  change (String.eqb "limit_sell" "limit_buy") with false.
  change (String.eqb "limit_sell" "limit_sell") with true. simpl andb.
  apply Qltb_lt in HP. rewrite HP. cbv iota.
  split.
  - intro Hle. apply Qleb_le in Hle. rewrite Hle.
    destruct (execute_market_sell_trace cfg payment e (LimitOrder order_id) (o_user_id order)
                tin a (step w)) as [Htr _].
    destruct (execute_market_sell _ _ _ _ _ _ _ _) as [w1 result].
    simpl in Htr.
    assert (Hone : forall tail,
              swaps_of (LimitOrder order_id) tail = 0%nat ->
              swaps_of (LimitOrder order_id) (w_trace w1 ++ tail)
              = S (swaps_of (LimitOrder order_id) (w_trace w))).
    { intros tail Htail. rewrite LimitFacts.swaps_of_app, Htail, Htr.
      rewrite LimitFacts.swaps_of_app. unfold swaps_of at 2. simpl.
      rewrite String.eqb_refl. simpl. lia. }
    destruct (r_success result); simpl.
    + split; [apply Hone; reflexivity|].
      eexists. rewrite Htr, <- app_assoc. simpl. reflexivity.
    + split; [rewrite <- (app_nil_r (w_trace w1)); apply Hone; reflexivity|].
      eexists. rewrite Htr. reflexivity.
  - intro Hgt. destruct (Qleb P C) eqn:Hle; [apply Qleb_le in Hle; contradiction|].
    reflexivity.
Qed.

Lemma limit_sell_triggers_iff_witness :
  swaps_of (LimitOrder "5f00000000000000000000b2")
    (w_trace (_check_limit_order default_config Examples.wired (Examples.priced_env 13)
                "5f00000000000000000000b2" MoreExamples.limit_sell_at_12
                Examples.empty_world))
  = S (swaps_of (LimitOrder "5f00000000000000000000b2") (w_trace Examples.empty_world))
  /\ exists rest,
       w_trace (_check_limit_order default_config Examples.wired (Examples.priced_env 13)
                  "5f00000000000000000000b2" MoreExamples.limit_sell_at_12
                  Examples.empty_world)
       = w_trace Examples.empty_world ++
           ev_submit (LimitOrder "5f00000000000000000000b2") Sell 42 "TokenMint" 5 :: rest.
Proof.
  destruct (@limit_sell_triggers_iff default_config Examples.wired (Examples.priced_env 13)
              "5f00000000000000000000b2" MoreExamples.limit_sell_at_12
              Examples.empty_world "SOL" "TokenMint" 12 5
              eq_refl eq_refl eq_refl eq_refl eq_refl eq_refl ltac:(discriminate))
    as [Hfire _].
  apply Hfire. vm_compute. discriminate.
Defined.

Lemma check_limit_order_without_price cfg payment e order_id order w :
  (forall n tok, get_token_price e n tok == 0)%Q ->
  _check_limit_order cfg payment e order_id order w = w
  \/ _check_limit_order cfg payment e order_id order w = step w.
Proof.
  intro H0. unfold _check_limit_order.
  destruct (o_output_token order) as [tok|]; [|left; reflexivity].
  specialize (H0 (w_clock w) tok). apply Qeq_bool_iff in H0. rewrite H0.
  right. reflexivity.
Qed.

Lemma check_stop_loss_without_price cfg payment e trade w :
  (forall n tok, get_token_price e n tok == 0)%Q ->
  StopLossMonitor._check_stop_loss cfg payment e trade w = w
  \/ StopLossMonitor._check_stop_loss cfg payment e trade w = step w.
Proof.
  intro H0. unfold StopLossMonitor._check_stop_loss.
  destruct (negb _); [left; reflexivity|].
  match goal with |- context [Qeq_bool (get_token_price e ?n ?t) 0] =>
    specialize (H0 n t) end.
  apply Qeq_bool_iff in H0. rewrite H0. right. reflexivity.
Qed.

Lemma fold_of_steps (A : Type) (f : world -> A -> world) (l : list A) :
  (forall w x, f w x = w \/ f w x = step w) ->
  forall w, w_trades (fold_left f l w) = w_trades w
            /\ w_orders (fold_left f l w) = w_orders w
            /\ w_trace (fold_left f l w) = w_trace w.
Proof.
  intro Hf. induction l as [|x r IH]; intro w; simpl; [auto|].
  destruct (IH (f w x)) as (Ht & Ho & Htr).
  rewrite Ht, Ho, Htr. destruct (Hf w x) as [H|H]; rewrite H; auto.
Qed.

(** X12: a price of zero stands for no price.  While none is
    available, a round of the limit-order monitor and a round of the
    stop-loss monitor request nothing from the venue and leave the trades
    and the orders as they are, whatever is stored. *)
Theorem monitors_wait_for_prices :
  forall cfg payment e w,
    (forall n tok, get_token_price e n tok == 0)%Q ->
    let wl := _monitor_limit_orders cfg payment e w in
    let ws := StopLossMonitor._monitor_stop_losses cfg payment e w in
    (w_trace wl = w_trace w /\ w_trades wl = w_trades w /\ w_orders wl = w_orders w)
    /\ (w_trace ws = w_trace w /\ w_trades ws = w_trades w /\ w_orders ws = w_orders w).
Proof.
  intros cfg payment e w H0 wl ws. split.
  - destruct (@fold_of_steps order_doc
                (fun w order => _check_limit_order cfg payment e (py_str (o_id order)) order w)
                (get_all_pending_orders w)
                (fun w0 x =>
                   @check_limit_order_without_price cfg payment e (py_str (o_id x)) x w0 H0)
                (step w)) as (Ht & Ho & Htr).
    unfold wl, _monitor_limit_orders. rewrite Ht, Ho, Htr. auto.
  - destruct (@fold_of_steps trade_doc
                (fun w trade => StopLossMonitor._check_stop_loss cfg payment e trade w)
                (StopLossMonitor.get_completed_trades_with_stop_loss w)
                (fun w0 x => @check_stop_loss_without_price cfg payment e x w0 H0)
                (step w)) as (Ht & Ho & Htr).
    unfold ws, StopLossMonitor._monitor_stop_losses. rewrite Ht, Ho, Htr. auto.
Qed.

Lemma monitors_wait_for_prices_witness :
  let wl := _monitor_limit_orders default_config Examples.wired Examples.quiet_env
              Examples.limit_world in
  let ws := StopLossMonitor._monitor_stop_losses default_config Examples.wired Examples.quiet_env
              Examples.limit_world in
  (w_trace wl = w_trace Examples.limit_world
   /\ w_trades wl = w_trades Examples.limit_world
   /\ w_orders wl = w_orders Examples.limit_world)
  /\ (w_trace ws = w_trace Examples.limit_world
      /\ w_trades ws = w_trades Examples.limit_world
      /\ w_orders ws = w_orders Examples.limit_world).
Proof.
  apply (@monitors_wait_for_prices default_config Examples.wired Examples.quiet_env
           Examples.limit_world).
  intros n tok. reflexivity.
Defined.

End LimitMore.

(** ** The order loop *)

Module OrderLoopFacts.
Import OrderLoop Store Observe LimitMonitor.

Lemma get_after_update e w trade_id s rd :
  get_trade_by_id (fst (update_trade_status e w trade_id s rd)) trade_id
  = if match rd_signature rd with
       | Some sig => signature_taken (ObjectId trade_id) sig (w_trades w)
       | None => false
       end
    then get_trade_by_id w trade_id
    else option_map (set_trade_status s rd (utcnow e (w_clock w)))
                    (get_trade_by_id w trade_id).
Proof.
  destruct (@StoreMore.update_trade_status_then_get e w trade_id s rd) as [H _].
  cbv zeta in H.
  destruct (get_trade_by_id w trade_id) as [d|] eqn:Hget.
  - destruct (match rd_signature rd with Some _ => _ | None => _ end).
    + destruct H as [_ Hts]. unfold get_trade_by_id in *. rewrite Hts. exact Hget.
    + unfold get_trade_by_id, update_trade_status in *. cbv zeta.
      rewrite StoreMore.existsb_find, Hget.
      match goal with |- context [if ?c then (step w, false) else _] =>
        assert (Hc : c = false); [|rewrite Hc] end.
      { destruct (rd_signature rd); [|reflexivity].
        destruct H as [Hm _]. rewrite StoreMore.existsb_find, Hget in Hm.
        destruct (signature_taken _ _ _); [discriminate|reflexivity]. }
      simpl. rewrite StoreMore.find_update_same by reflexivity. rewrite Hget. reflexivity.
  - destruct H as [_ Hnone]. rewrite Hnone.
    destruct (match rd_signature rd with Some _ => _ | None => _ end); reflexivity.
Qed.

Lemma signature_taken_update i sig f (ts : list trade_doc) :
  (forall d, t_id (f d) = t_id d) ->
  signature_taken i sig (update_trade i f ts) = signature_taken i sig ts.
Proof.
  intro Hid. unfold signature_taken, update_trade.
  induction ts as [|x r IH]; [reflexivity|]. simpl. rewrite IH.
  destruct (bson_id_eqb (t_id x) i) eqn:Hx; [|rewrite Hx; reflexivity].
  rewrite Hid, Hx. reflexivity.
Qed.

Lemma execute_market_order_deletes e order_id order a w :
  snd (_execute_market_order e order_id order a w) = del order_id a.
Proof.
  unfold _execute_market_order.
  destruct (update_trade_status e w order_id _ no_data) as [w1 b1]. cbv zeta.
  destruct (sr_success _).
  - destruct (sr_signature _); [|reflexivity].
    destruct (sr_output_amount _); [|reflexivity].
    destruct (sr_price_impact _); [|reflexivity].
    destruct (update_trade_status _ _ _ _ _). reflexivity.
  - destruct (sr_error _); reflexivity.
Qed.

Lemma keys_del order_id (a : active_orders) :
  keys (del order_id a) = filter (fun k => negb (String.eqb k order_id)) (keys a).
Proof.
  unfold keys, del. induction a as [|[k o] r IH]; simpl; [reflexivity|].
  destruct (String.eqb k order_id); simpl; rewrite IH; reflexivity.
Qed.

(** The stored trade after [_execute_market_order]. *)
Lemma execute_market_order_status e order_id order a w :
  let res := execute_swap e (S (w_clock w)) (input_token order) (output_token order)
               (amount order) (slippage order) in
  match get_trade_by_id w order_id with
  | Some d =>
    exists d', get_trade_by_id (fst (_execute_market_order e order_id order a w)) order_id
               = Some d'
               /\ t_status d' = settled_status w order_id res
  | None => get_trade_by_id (fst (_execute_market_order e order_id order a w)) order_id = None
  end.
Proof.
  intro res. unfold _execute_market_order.
  pose proof (get_after_update e w order_id (status_value EXECUTING) no_data) as H1.
  simpl rd_signature in H1. cbv iota in H1.
  assert (Hclock : w_clock (fst (update_trade_status e w order_id (status_value EXECUTING)
                                   no_data)) = S (w_clock w))
    by (destruct (LimitFacts.update_trade_status_cases e w order_id
                    (status_value EXECUTING) no_data) as [H|H]; rewrite H; reflexivity).
  assert (Hsig : forall sig,
            signature_taken (ObjectId order_id) sig
              (w_trades (fst (update_trade_status e w order_id (status_value EXECUTING)
                                no_data)))
            = signature_taken (ObjectId order_id) sig (w_trades w)).
  { intro sig.
    destruct (LimitFacts.update_trade_status_cases e w order_id
                (status_value EXECUTING) no_data) as [H|H]; rewrite H; [reflexivity|].
    apply signature_taken_update. reflexivity. }
  destruct (update_trade_status e w order_id (status_value EXECUTING) no_data) as [w1 b1].
  simpl fst in H1, Hclock, Hsig. rewrite Hclock. fold res.
  set (w2 := step (emit w1 _)).
  assert (H2 : get_trade_by_id w2 order_id
               = option_map (set_trade_status "executing" no_data (utcnow e (w_clock w)))
                   (get_trade_by_id w order_id)) by exact H1.
  assert (Hsig2 : forall sig,
            signature_taken (ObjectId order_id) sig (w_trades w2)
            = signature_taken (ObjectId order_id) sig (w_trades w)) by exact Hsig.
  assert (Hfailed : get_trade_by_id
                      (fst (update_trade_status e w2 order_id (status_value FAILED) no_data))
                      order_id
                    = option_map (set_trade_status "failed" no_data (utcnow e (w_clock w2)))
                        (get_trade_by_id w2 order_id))
    by (rewrite get_after_update; reflexivity).
  clearbody w2. clear H1 Hsig Hclock.
  unfold settled_status, fully_answered.
  destruct (get_trade_by_id w order_id) as [d|] eqn:Hget.
  - simpl option_map in H2. rewrite H2 in Hfailed. simpl option_map in Hfailed.
    destruct (sr_success res); simpl andb.
    + destruct (sr_signature res) as [sig|];
        [|cbn [fst]; eexists; split; [exact Hfailed|reflexivity]].
      destruct (sr_output_amount res) as [out|];
        [|cbn [fst]; eexists; split; [exact Hfailed|reflexivity]].
      destruct (sr_price_impact res) as [imp|];
        [|cbn [fst]; eexists; split; [exact Hfailed|reflexivity]].
      match goal with |- context [update_trade_status e w2 order_id ?s ?rd] =>
        pose proof (get_after_update e w2 order_id s rd) as H3;
        destruct (update_trade_status e w2 order_id s rd) as [w3 b3] end.
      simpl rd_signature in H3. cbv iota in H3. rewrite Hsig2, H2 in H3.
      cbn [fst] in H3 |- *.
      change (get_trade_by_id (emit w3 (ev_alert (user_id order) "trade_completed")) order_id)
        with (get_trade_by_id w3 order_id).
      rewrite H3.
      destruct (signature_taken (ObjectId order_id) sig (w_trades w));
        eexists; split; reflexivity.
    + destruct (sr_error res); cbn [fst];
        [change (get_trade_by_id (emit ?x _) order_id) with (get_trade_by_id x order_id)|];
        eexists; split; try exact Hfailed; reflexivity.
  - simpl option_map in H2. rewrite H2 in Hfailed. simpl option_map in Hfailed.
    destruct (sr_success res).
    + destruct (sr_signature res) as [sig|]; [|exact Hfailed].
      destruct (sr_output_amount res) as [out|]; [|exact Hfailed].
      destruct (sr_price_impact res) as [imp|]; [|exact Hfailed].
      match goal with |- context [update_trade_status e w2 order_id ?s ?rd] =>
        pose proof (get_after_update e w2 order_id s rd) as H3;
        destruct (update_trade_status e w2 order_id s rd) as [w3 b3] end.
      rewrite H2 in H3. cbn [fst] in H3 |- *.
      change (get_trade_by_id (emit w3 (ev_alert (user_id order) "trade_completed")) order_id)
        with (get_trade_by_id w3 order_id).
      rewrite H3. destruct (match rd_signature _ with Some _ => _ | None => _ end); reflexivity.
    + destruct (sr_error res); exact Hfailed.
Qed.

(** X15: [_execute_market_order] asks the venue once and settles the
    order.  The order leaves the active orders, and the others stay.  The
    stored trade, if there is one under that identifier, ends as completed
    when the venue executed the swap and answered with signature, output
    amount and price impact, and as failed otherwise; with one exception:
    when the signature of the answer is one another trade holds, the
    unique index refuses the write of the completion, and the trade is
    left executing although the swap was executed. *)
Theorem execute_market_order_settles :
  forall e order_id order a w,
    let w' := fst (_execute_market_order e order_id order a w) in
    let a' := snd (_execute_market_order e order_id order a w) in
    let res := execute_swap e (S (w_clock w)) (input_token order) (output_token order)
                 (amount order) (slippage order) in
    swaps_of (ActiveOrder order_id) (w_trace w')
    = S (swaps_of (ActiveOrder order_id) (w_trace w))
    /\ ~ In order_id (keys a')
    /\ (forall k, k <> order_id -> (In k (keys a') <-> In k (keys a)))
    /\ match get_trade_by_id w order_id with
       | Some d =>
         exists d', get_trade_by_id w' order_id = Some d'
                    /\ t_status d' = settled_status w order_id res
       | None => get_trade_by_id w' order_id = None
       end.
Proof.
  intros e order_id order a w w' a' res.
  split; [apply LimitFacts.execute_market_order_has_no_gate|].
  unfold a'. rewrite execute_market_order_deletes, keys_del.
  split; [|split].
  - intro Hin. apply filter_In in Hin. destruct Hin as [_ Hne].
    rewrite String.eqb_refl in Hne. discriminate.
  - intros k Hne. rewrite filter_In. apply String.eqb_neq in Hne. rewrite Hne.
    simpl. tauto.
  - apply execute_market_order_status.
Qed.

(** The exception, evaluated: a snipe of user 42 is executed by the order
    loop, and the venue answers with the signature of an earlier buy.  The
    venue was asked to swap, the order has left the active orders, and the
    stored trade is left executing. *)
Example executed_order_left_executing :
  let e := MoreExamples.repeating_env in
  let bought := fst (execute_market_buy default_config Examples.wired e Direct 7 "TokenMint" 1
                       Examples.empty_world) in
  let created :=
    Intake.create_trade_order default_config e (fun _ => true) MoreExamples.live_snipe []
      bought in
  let s1 := (fst (fst (fst created)), snd (fst (fst created))) in
  let s2 := OrderLoop._process_orders
              {| OrderLoop.outside := e;
                 OrderLoop.get_token_symbol := fun _ _ => Some "TKN"%string |} s1 in
  map (fun d => (t_trade_type d, t_status d, t_signature d)) (w_trades (fst s1))
  = [("market_buy", "completed", Some "sig-7"); ("snipe", "pending", None)]%string
  /\ map (fun d => (t_trade_type d, t_status d, t_signature d)) (w_trades (fst s2))
     = [("market_buy", "completed", Some "sig-7"); ("snipe", "executing", None)]%string
  /\ List.length (filter (fun ev => match ev with
                                    | ev_swap (ActiveOrder _) _ _ _ _ true => true
                                    | _ => false
                                    end) (w_trace (fst s2))) = 1%nat
  /\ keys (snd s1)
     = map (fun d => py_str (t_id d))
         (filter (fun d => String.eqb (t_status d) "pending") (w_trades (fst s1)))
  /\ keys (snd s2) = [].
Proof. vm_compute. repeat split; reflexivity. Qed.

Lemma execute_market_order_swaps e order_id order a w id :
  swaps_of (ActiveOrder id) (w_trace (fst (_execute_market_order e order_id order a w)))
  = (swaps_of (ActiveOrder id) (w_trace w) + (if String.eqb id order_id then 1 else 0))%nat.
Proof.
  destruct (LimitFacts.execute_market_order_trace e order_id order a w)
    as (ok & tail & Htr & Htail).
  rewrite Htr, LimitFacts.swaps_of_app.
  change (ev_swap (ActiveOrder order_id) (input_token order) (output_token order)
            (amount order) (slippage order) ok :: tail)
    with ([ev_swap (ActiveOrder order_id) (input_token order) (output_token order)
             (amount order) (slippage order) ok] ++ tail).
  rewrite LimitFacts.swaps_of_app, (LimitFacts.swaps_of_alerts _ Htail).
  unfold swaps_of at 2. simpl. destruct (String.eqb id order_id); simpl; lia.
Qed.

(** What the loop does with one item. *)
Lemma process_order_cases r order_id order w a :
  process_order r (order_id, order) (w, a) = (w, a)
  \/ process_order r (order_id, order) (w, a) = (step w, a)
  \/ (process_order r (order_id, order) (w, a)
      = _execute_market_order (outside r) order_id order a (step w)
      /\ trade_type order = SNIPE
      /\ match expires_at order with
         | Some t => (utcnow (outside r) (w_clock w) <= t)%Z
         | None => True
         end).
Proof.
  unfold process_order.
  destruct (expires_at order) as [t|].
  - destruct (Z.ltb t _) eqn:Hexp; [left; reflexivity|]. apply Z.ltb_ge in Hexp.
    destruct (_ || _); [left; reflexivity|].
    destruct (TradeType_eqb (trade_type order) SNIPE) eqn:Hty; [|left; reflexivity].
    unfold _check_snipe_order. destruct (opt_string_eqb _ _); [right; left; reflexivity|].
    right. right. split; [reflexivity|]. split; [|exact Hexp].
    destruct (trade_type order); try discriminate; reflexivity.
  - destruct (_ || _); [left; reflexivity|].
    destruct (TradeType_eqb (trade_type order) SNIPE) eqn:Hty; [|left; reflexivity].
    unfold _check_snipe_order. destruct (opt_string_eqb _ _); [right; left; reflexivity|].
    right. right. split; [reflexivity|]. split; [|exact I].
    destruct (trade_type order); try discriminate; reflexivity.
Qed.

Lemma ran_at_most_once_refl id s : ran_at_most_once id s s.
Proof. left. split; [reflexivity|tauto]. Qed.

Lemma ran_at_most_once_trans id s1 s2 s3 :
  ran_at_most_once id s1 s2 -> ran_at_most_once id s2 s3 -> ran_at_most_once id s1 s3.
Proof.
  unfold ran_at_most_once.
  intros [[Hs1 Hk1]|(Hs1 & Hin1 & Hout1)] [[Hs2 Hk2]|(Hs2 & Hin2 & Hout2)].
  - left. split; [congruence|tauto].
  - right. split; [congruence|]. split; tauto.
  - right. split; [congruence|]. split; tauto.
  - contradiction.
Qed.

Lemma NoDup_keys_del order_id (a : active_orders) :
  NoDup (keys a) -> NoDup (keys (del order_id a)).
Proof. intro H. rewrite keys_del. apply NoDup_filter. exact H. Qed.

Lemma in_keys_del k order_id (a : active_orders) :
  In k (keys (del order_id a)) <-> In k (keys a) /\ k <> order_id.
Proof.
  rewrite keys_del, filter_In. split; intros [Hin Hne]; split; auto.
  - intro Heq. subst k. rewrite String.eqb_refl in Hne. discriminate.
  - apply String.eqb_neq in Hne. rewrite Hne. reflexivity.
Qed.

(** One item of the snapshot, whose order is still active. *)
Lemma process_order_once r order_id order w a id :
  In order_id (keys a) ->
  ran_at_most_once id (w, a) (process_order r (order_id, order) (w, a)).
Proof.
  intro Hactive.
  destruct (process_order_cases r order_id order w a) as [H|[H|(H & _)]]; rewrite H.
  - apply ran_at_most_once_refl.
  - left. split; [reflexivity|tauto].
  - unfold ran_at_most_once. simpl fst. simpl snd.
    rewrite execute_market_order_swaps, execute_market_order_deletes.
    change (w_trace (step w)) with (w_trace w).
    destruct (String.eqb id order_id) eqn:Heq.
    + apply String.eqb_eq in Heq. subst id. right.
      split; [lia|]. split; [exact Hactive|].
      rewrite in_keys_del. tauto.
    + apply String.eqb_neq in Heq. left. split; [lia|].
      rewrite in_keys_del. tauto.
Qed.

Lemma process_order_keys r item s :
  (NoDup (keys (snd s)) -> NoDup (keys (snd (process_order r item s))))
  /\ forall k, k <> fst item ->
       (In k (keys (snd (process_order r item s))) <-> In k (keys (snd s))).
Proof.
  destruct item as [order_id order]. destruct s as [w a].
  destruct (process_order_cases r order_id order w a) as [H|[H|(H & _)]]; rewrite H;
    simpl; try tauto.
  rewrite execute_market_order_deletes. split; [apply NoDup_keys_del|].
  intros k Hne. rewrite in_keys_del. tauto.
Qed.

Lemma process_items_once r id (l : list (string * TradeOrder)) : forall s,
  NoDup (keys l) -> (forall k, In k (keys l) -> In k (keys (snd s))) ->
  NoDup (keys (snd s)) ->
  ran_at_most_once id s (fold_left (fun s item => process_order r item s) l s)
  /\ NoDup (keys (snd (fold_left (fun s item => process_order r item s) l s))).
Proof.
  induction l as [|[k o] rest IH]; intros [w a] Hnd Hsub Ha; simpl.
  - split; [apply ran_at_most_once_refl|exact Ha].
  - inversion Hnd as [|? ? Hk Hrest]; subst.
    destruct (process_order_keys r (k, o) (w, a)) as [Hkeep Hother].
    destruct (IH (process_order r (k, o) (w, a)) Hrest) as [Hran Hnd'].
    + intros k' Hk'. apply Hother.
      * simpl. intro Heq. subst k'. contradiction.
      * apply Hsub. right. exact Hk'.
    + apply Hkeep. exact Ha.
    + split; [|exact Hnd'].
      eapply ran_at_most_once_trans; [|exact Hran].
      apply process_order_once. apply Hsub. left. reflexivity.
Qed.

Lemma process_orders_once r id s :
  NoDup (keys (snd s)) ->
  ran_at_most_once id s (_process_orders r s) /\ NoDup (keys (snd (_process_orders r s))).
Proof.
  intro Hnd. unfold _process_orders.
  apply process_items_once; auto.
Qed.

(** X16: the active orders are a dictionary, one order per identifier.
    Over any number of rounds of [_process_orders], an order is executed
    at most once: when it is, it was active and it is active no more; an
    order that is still active was not executed, and one that was not
    active is not executed. *)
Theorem process_orders_runs_each_once :
  forall rs s order_id,
    NoDup (keys (snd s)) ->
    ran_at_most_once order_id s (OrderLoop.run_rounds rs s).
Proof.
  intros rs. induction rs as [|r rest IH]; intros s order_id Hnd; simpl.
  - apply ran_at_most_once_refl.
  - destruct (process_orders_once r order_id s Hnd) as [Hran Hnd'].
    eapply ran_at_most_once_trans; [exact Hran|]. apply IH. exact Hnd'.
Qed.

Lemma process_orders_runs_each_once_witness :
  ran_at_most_once "5f00000000000000000000d2"
    (Examples.empty_world, MoreExamples.some_active_orders)
    (OrderLoop.run_rounds [MoreExamples.listed_round; MoreExamples.listed_round]
       (Examples.empty_world, MoreExamples.some_active_orders)).
Proof.
  apply (@process_orders_runs_each_once
           [MoreExamples.listed_round; MoreExamples.listed_round]
           (Examples.empty_world, MoreExamples.some_active_orders)
           "5f00000000000000000000d2").
  repeat constructor; simpl; intuition discriminate.
Defined.

(** The rounds of the witness, evaluated: the snipe is executed in the
    first round and leaves; the limit buy stays, untouched. *)
Example listed_rounds_run_the_snipe :
  let s' := OrderLoop.run_rounds [MoreExamples.listed_round; MoreExamples.listed_round]
              (Examples.empty_world, MoreExamples.some_active_orders) in
  swaps_of (ActiveOrder "5f00000000000000000000d2") (w_trace (fst s')) = 1%nat
  /\ swaps_of (ActiveOrder "5f00000000000000000000d1") (w_trace (fst s')) = 0%nat
  /\ keys (snd s') = ["5f00000000000000000000d1"%string].
Proof. vm_compute. repeat split; reflexivity. Qed.

Lemma passed_over_item r rs order_id order s :
  In r rs -> passed_over rs order ->
  process_order r (order_id, order) s = s.
Proof.
  destruct s as [w a]. intros Hr [Hty|(t & Ht & Hlate)].
  - unfold process_order.
    destruct (match expires_at order with Some _ => _ | None => _ end); [reflexivity|].
    destruct (_ || _); [reflexivity|].
    destruct (TradeType_eqb (trade_type order) SNIPE) eqn:Hs; [|reflexivity].
    exfalso. apply Hty. destruct (trade_type order); try discriminate. reflexivity.
  - unfold process_order. rewrite Ht.
    specialize (Hlate r (w_clock w) Hr). apply Z.ltb_lt in Hlate. rewrite Hlate.
    reflexivity.
Qed.

Lemma process_items_pass_over r rs id order (l : list (string * TradeOrder)) :
  forall s : world * active_orders,
  In r rs -> passed_over rs order ->
  (forall o, In (id, o) l -> o = order) ->
  In (id, order) (snd s) ->
  let s' := fold_left (fun s item => process_order r item s) l s in
  In (id, order) (snd s')
  /\ swaps_of (ActiveOrder id) (w_trace (fst s'))
     = swaps_of (ActiveOrder id) (w_trace (fst s)).
Proof.
  intros s Hr Hpass. revert s.
  induction l as [|[k o] rest IH]; intros [w a] Hsame Hin; [simpl; auto|].
  cbn [fold_left].
  assert (Hrest : forall o', In (id, o') rest -> o' = order)
    by (intros o' Ho'; apply Hsame; right; exact Ho').
  destruct (String.eqb id k) eqn:Heq.
  - apply String.eqb_eq in Heq. subst k.
    assert (o = order) by (apply Hsame; left; reflexivity). subst o.
    rewrite (@passed_over_item r rs id order _ Hr Hpass). apply (IH (w, a) Hrest Hin).
  - apply String.eqb_neq in Heq.
    destruct (process_order_cases r k o w a) as [H|[H|(H & _)]]; rewrite H.
    + apply (IH (w, a) Hrest Hin).
    + apply (IH (step w, a) Hrest Hin).
    + pose proof (execute_market_order_swaps (outside r) k o a (step w) id) as Hsw.
      pose proof (execute_market_order_deletes (outside r) k o a (step w)) as Hdel.
      destruct (_execute_market_order (outside r) k o a (step w)) as [w1 a1].
      simpl in Hsw, Hdel. subst a1.
      assert (Hin1 : In (id, order) (del k a)).
      { unfold del. apply filter_In. split; [exact Hin|]. simpl.
        apply String.eqb_neq in Heq. rewrite Heq. reflexivity. }
      destruct (IH (w1, del k a) Hrest Hin1) as [Hres Hswaps].
      split; [exact Hres|]. simpl in Hswaps |- *. rewrite Hswaps, Hsw.
      apply String.eqb_neq in Heq. rewrite Heq. simpl. lia.
Qed.

Lemma one_order_per_key (a : active_orders) id o o' :
  NoDup (keys a) -> In (id, o) a -> In (id, o') a -> o' = o.
Proof.
  unfold keys. induction a as [|[k x] r IH]; simpl; intros Hnd Ho Ho'; [contradiction|].
  inversion Hnd as [|? ? Hk Hr]; subst.
  destruct Ho as [Ho|Ho]; destruct Ho' as [Ho'|Ho'].
  - congruence.
  - inversion Ho; subst. exfalso. apply Hk.
    apply in_map_iff. exists (id, o'). auto.
  - inversion Ho'; subst. exfalso. apply Hk.
    apply in_map_iff. exists (id, o). auto.
  - apply IH; assumption.
Qed.

(** X17: the loop of [_process_orders] executes snipes and
    nothing else.  An active order of another kind, a limit order for one,
    is never executed and never leaves the active orders; nor is an order
    that is expired whenever it is looked at: it is neither executed nor
    cancelled, and stays active. *)
Theorem process_orders_passes_over :
  forall rs s order_id order,
    NoDup (keys (snd s)) ->
    In (order_id, order) (snd s) ->
    passed_over rs order ->
    In (order_id, order) (snd (OrderLoop.run_rounds rs s))
    /\ swaps_of (ActiveOrder order_id) (w_trace (fst (OrderLoop.run_rounds rs s)))
       = swaps_of (ActiveOrder order_id) (w_trace (fst s)).
Proof.
  intros rs. induction rs as [|r rest IH]; intros s order_id order Hnd Hin Hpass;
    simpl; [auto|].
  assert (Hhere : passed_over [r] order /\ passed_over rest order).
  { destruct Hpass as [Hty|(t & Ht & Hlate)].
    - split; left; exact Hty.
    - split; right; exists t; (split; [exact Ht|]); intros r0 n Hr0; apply Hlate.
      + destruct Hr0 as [Hr0|[]]. left. exact Hr0.
      + right. exact Hr0. }
  destruct Hhere as [Hnow Hlater].
  destruct (process_orders_once r order_id s Hnd) as [_ Hnd'].
  destruct (@process_items_pass_over r [r] order_id order (snd s) s
              (or_introl eq_refl) Hnow) as [Hin' Hsw'].
  - intros o Ho. apply (@one_order_per_key (snd s) order_id order o Hnd Hin Ho).
  - exact Hin.
  - fold (_process_orders r s) in Hin', Hsw'.
    destruct (IH (_process_orders r s) order_id order Hnd' Hin' Hlater) as [Hres Hsw].
    split; [exact Hres|]. rewrite Hsw. exact Hsw'.
Qed.

Lemma process_orders_passes_over_witness :
  In ("5f00000000000000000000d1"%string, MoreExamples.active_limit_buy)
     (snd (OrderLoop.run_rounds [MoreExamples.listed_round; MoreExamples.listed_round]
             (Examples.empty_world, MoreExamples.some_active_orders)))
  /\ swaps_of (ActiveOrder "5f00000000000000000000d1")
       (w_trace (fst (OrderLoop.run_rounds [MoreExamples.listed_round; MoreExamples.listed_round]
                        (Examples.empty_world, MoreExamples.some_active_orders))))
     = swaps_of (ActiveOrder "5f00000000000000000000d1")
         (w_trace (fst (Examples.empty_world, MoreExamples.some_active_orders))).
Proof.
  apply (@process_orders_passes_over
           [MoreExamples.listed_round; MoreExamples.listed_round]
           (Examples.empty_world, MoreExamples.some_active_orders)
           "5f00000000000000000000d1" MoreExamples.active_limit_buy).
  - repeat constructor; simpl; intuition discriminate.
  - left. reflexivity.
  - left. discriminate.
Defined.

End OrderLoopFacts.

(** ** Intake of orders *)

Module IntakeFacts.
Import Intake Store.

Lemma latest_trade_found user (ts : list trade_doc) x :
  latest_trade user ts = Some x -> In x ts /\ t_user_id x = user.
Proof.
  revert x. induction ts as [|d r IH]; simpl; intros x Hx; [discriminate|].
  destruct (Z.eqb (t_user_id d) user) eqn:Hu.
  - apply Z.eqb_eq in Hu.
    destruct (latest_trade user r) as [y|].
    + destruct (Z.ltb _ _); inversion Hx; subst.
      * destruct (IH x eq_refl). auto.
      * auto.
    + inversion Hx; subst. auto.
  - destruct (IH x Hx). auto.
Qed.

Lemma latest_trade_exists user (ts : list trade_doc) d :
  In d ts -> t_user_id d = user -> latest_trade user ts <> None.
Proof.
  induction ts as [|y r IH]; simpl; intros Hin Hu; [contradiction|].
  destruct (Z.eqb (t_user_id y) user) eqn:Hy.
  - destruct (latest_trade user r); [destruct (Z.ltb _ _)|]; discriminate.
  - destruct Hin as [Hin|Hin]; [|exact (IH Hin Hu)].
    subst y. rewrite Hu, Z.eqb_refl in Hy. discriminate.
Qed.

Lemma latest_trade_newest user (ts : list trade_doc) d :
  t_user_id d = user ->
  (forall x, In x ts -> t_user_id x = user -> (t_created_at x < t_created_at d)%Z) ->
  latest_trade user (ts ++ [d]) = Some d.
Proof.
  intros Hu. induction ts as [|y r IH]; simpl; intro Hold.
  - rewrite Hu, Z.eqb_refl. reflexivity.
  - rewrite IH by (intros x Hx; apply Hold; right; exact Hx).
    destruct (Z.eqb (t_user_id y) user) eqn:Hy; [|reflexivity].
    apply Z.eqb_eq in Hy.
    assert (Hlt : (t_created_at y < t_created_at d)%Z) by (apply Hold; auto).
    apply Z.ltb_lt in Hlt. rewrite Hlt. reflexivity.
Qed.

Lemma set_item_In order_id order (a : active_orders) :
  In (order_id, order) (set_item order_id order a).
Proof.
  unfold set_item. destruct (existsb _ a) eqn:Hex.
  - apply existsb_exists in Hex. destruct Hex as ([k o] & Hin & Hk).
    apply in_map_iff. exists (k, o). simpl in *. rewrite Hk. auto.
  - apply in_or_app. right. left. reflexivity.
Qed.

(** The document [create_trade_order] hands to the store. *)
Lemma create_trade_order_cases cfg e validate_address order a w :
  let v := Validator._validate_order cfg (get_user e) validate_address order in
  let doc := fun i now =>
      {| t_id := i; t_user_id := user_id order;
         t_trade_type := type_value (trade_type order);
         t_input_token := Some (input_token order);
         t_output_token := Some (output_token order);
         t_amount := Some (amount order); t_output_amount := None;
         t_status := status_value PENDING; t_signature := None;
         t_stop_loss := stop_loss order; t_entry_price := None;
         t_stop_loss_triggered := false; t_stop_loss_price := None;
         t_created_at := now; t_updated_at := None;
         t_price := price order; t_slippage := Some (slippage order);
         t_take_profit := take_profit order; t_expires_at := expires_at order;
         t_copy_wallet := copy_wallet order |} in
  let w1 := fst (store_trade e w doc) in
  create_trade_order cfg e validate_address order a w
  = if negb (fst v) then (w, a, None, (false, Refused (snd v)))
    else if negb (snd (store_trade e w doc))
    then (w1, a, None, (false, Message "Failed to store trade order"))
    else match latest_trade (user_id order) (w_trades w1) with
         | Some trade_doc =>
           (step w1, set_item (py_str (t_id trade_doc)) order a,
            (if TradeType_eqb (trade_type order) BUY || TradeType_eqb (trade_type order) SELL
             then Some (py_str (t_id trade_doc), order) else None),
            (true, Message ("Order created successfully. ID: " ++ py_str (t_id trade_doc))))
         | None => (step w1, a, None, (false, Message "Failed to retrieve order ID"))
         end.
Proof.
  cbv zeta. unfold create_trade_order.
  destruct (negb (fst _)); [reflexivity|].
  destruct (store_trade e w _) as [w1 result]. simpl.
  destruct (negb result); reflexivity.
Qed.

(** X18: [create_trade_order] registers an order or leaves no trace
    of it.  When it answers with a success, one pending trade of the user
    was added to the store, the order is active under the identifier of
    one of the user's trades, and the execution task is handed over
    exactly for a market buy or sell.  Otherwise the trades and the active
    orders are as before and no task is handed over, and the answer is
    never that of a missing identifier. *)
Theorem create_trade_order_all_or_nothing :
  forall cfg e validate_address order a w,
    let '(w', a', task, (ok, answer)) :=
      create_trade_order cfg e validate_address order a w in
    if ok
    then (exists d, w_trades w' = w_trades w ++ [d]
                    /\ t_status d = "pending"%string /\ t_user_id d = user_id order
                    /\ t_stop_loss d = stop_loss order)
         /\ exists x, In x (w_trades w') /\ t_user_id x = user_id order
                      /\ a' = set_item (py_str (t_id x)) order a
                      /\ In (py_str (t_id x), order) a'
                      /\ task = (if TradeType_eqb (trade_type order) BUY
                                    || TradeType_eqb (trade_type order) SELL
                                 then Some (py_str (t_id x), order) else None)
    else w_trades w' = w_trades w /\ a' = a /\ task = None
         /\ answer <> Message "Failed to retrieve order ID".
Proof.
  intros cfg e validate_address order a w.
  rewrite create_trade_order_cases. cbv zeta.
  destruct (negb (fst _)); [repeat split; discriminate|].
  match goal with |- context [store_trade e w ?d] =>
    destruct (MarketMore.store_trade_appends e w d) as [(Hok & Hts & _)|(Hok & Hts)];
    rewrite Hok; simpl negb; cbv iota
  end.
  - match goal with |- context [latest_trade ?u ?ts] =>
      destruct (latest_trade u ts) as [x|] eqn:Hlatest end.
    + destruct (latest_trade_found _ _ Hlatest) as [Hin Hu].
      split.
      * eexists. split; [exact Hts|]. repeat split.
      * exists x. repeat split; auto. apply set_item_In.
    + exfalso. revert Hlatest. rewrite Hts.
      eapply latest_trade_exists; [apply in_or_app; right; left; reflexivity|reflexivity].
  - repeat split; [exact Hts|discriminate].
Qed.

(** X19: when the trades of the user that are already stored carry
    earlier stamps, an accepted order is registered under the identifier
    the store gave to its own trade, and that trade reads back as pending. *)
Theorem create_trade_order_registers_its_trade :
  forall cfg e validate_address order a w,
    (forall x, In x (w_trades w) -> t_user_id x = user_id order ->
               (t_created_at x < utcnow e (w_clock w))%Z) ->
    let result := create_trade_order cfg e validate_address order a w in
    let i := new_object_id e (w_clock w) in
    fst (snd result) = true ->
    snd (fst (fst result)) = set_item i order a
    /\ exists d, get_trade_by_id (fst (fst (fst result))) i = Some d
                 /\ t_status d = "pending"%string /\ t_user_id d = user_id order.
Proof.
  intros cfg e validate_address order a w Hold result i. unfold result.
  rewrite create_trade_order_cases. cbv zeta.
  destruct (negb (fst _)); [discriminate|].
  match goal with |- context [store_trade e w ?d] =>
    destruct (MarketMore.store_trade_appends e w d) as [(Hok & Hts & Hfresh)|(Hok & Hts)];
    rewrite Hok; simpl negb; cbv iota; [|discriminate]
  end.
  rewrite Hts. rewrite latest_trade_newest; [|reflexivity|exact Hold].
  cbn [fst snd py_str t_id]. intros _. split; [reflexivity|].
  unfold get_trade_by_id. cbn [step w_trades]. rewrite Hts.
  rewrite StoreMore.find_snoc, StoreMore.find_absent by exact Hfresh.
  cbn [t_id bson_id_eqb]. fold i. rewrite String.eqb_refl.
  eexists. split; [reflexivity|]. auto.
Qed.

Lemma create_trade_order_registers_its_trade_witness :
  let result := create_trade_order default_config (MoreExamples.market_env 10)
                  (fun _ => true) MoreExamples.guarded_buy [] Examples.empty_world in
  snd (fst (fst result))
  = set_item (new_object_id (MoreExamples.market_env 10) 0) MoreExamples.guarded_buy []
  /\ exists d, get_trade_by_id (fst (fst (fst result)))
                 (new_object_id (MoreExamples.market_env 10) 0) = Some d
               /\ t_status d = "pending"%string
               /\ t_user_id d = user_id MoreExamples.guarded_buy.
Proof.
  apply (@create_trade_order_registers_its_trade default_config (MoreExamples.market_env 10)
           (fun _ => true) MoreExamples.guarded_buy [] Examples.empty_world).
  - intros x [].
  - reflexivity.
Defined.

(** X20: the index on [signature] is unique, and an order is
    stored without signature.  So while any stored trade is without
    signature, as an order is that is pending, cancelled, or failed,
    [create_trade_order] stores nothing and registers nothing, whatever
    the order. *)
Theorem create_trade_order_blocked :
  forall cfg e validate_address order a w x,
    In x (w_trades w) -> t_signature x = None ->
    let result := create_trade_order cfg e validate_address order a w in
    fst (snd result) = false
    /\ w_trades (fst (fst (fst result))) = w_trades w
    /\ snd (fst (fst result)) = a
    /\ snd (fst result) = None.
Proof.
  intros cfg e validate_address order a w x Hin Hsig result. unfold result.
  rewrite create_trade_order_cases. cbv zeta.
  destruct (negb (fst _)); [auto|].
  match goal with |- context [store_trade e w ?d] =>
    rewrite (@StoreMore.store_trade_refuses_signature e w d x Hin Hsig)
  end.
  simpl. auto.
Qed.

Lemma create_trade_order_blocked_witness :
  let result := create_trade_order default_config (MoreExamples.market_env 10)
                  (fun _ => true) MoreExamples.guarded_buy [] Examples.pending_world in
  fst (snd result) = false
  /\ w_trades (fst (fst (fst result))) = w_trades Examples.pending_world
  /\ snd (fst (fst result)) = []
  /\ snd (fst result) = None.
Proof.
  apply (@create_trade_order_blocked default_config (MoreExamples.market_env 10)
           (fun _ => true) MoreExamples.guarded_buy [] Examples.pending_world
           Examples.pending_trade).
  - left. reflexivity.
  - reflexivity.
Defined.

End IntakeFacts.

(** ** Subscriptions and snipe allocations in the store *)

Module SubscriptionFacts.
Import Store Intake CopyTrading.

Lemma update_first_found (A : Type) (p : A -> bool) (f : A -> A) (l : list A) :
  snd (update_first p f l) = existsb p l.
Proof.
  induction l as [|x r IH]; simpl; [reflexivity|].
  destruct (p x); [reflexivity|].
  destruct (update_first p f r) as [r' found]. exact IH.
Qed.

Lemma update_first_keeps_matches (A : Type) (p : A -> bool) (f : A -> A) (l : list A) :
  (forall x, p (f x) = p x) ->
  existsb p (fst (update_first p f l)) = existsb p l.
Proof.
  intro Hp. induction l as [|x r IH]; simpl; [reflexivity|].
  destruct (p x) eqn:Hx.
  - simpl. rewrite Hp, Hx. reflexivity.
  - destruct (update_first p f r) as [r' found]. simpl in *. rewrite Hx, IH. reflexivity.
Qed.

Lemma update_first_prefix (A : Type) (p : A -> bool) (f : A -> A) (l r : list A) :
  existsb p l = true ->
  update_first p f (l ++ r) = (fst (update_first p f l) ++ r, true).
Proof.
  induction l as [|x l' IH]; simpl; [discriminate|].
  destruct (p x); [reflexivity|]. simpl. intro Hex.
  rewrite (IH Hex). destruct (update_first p f l') as [l1 found]. reflexivity.
Qed.

Lemma update_first_others (A : Type) (p : A -> bool) (f : A -> A) (l : list A) x :
  (forall y, p (f y) = p y) ->
  p x = false -> (In x (fst (update_first p f l)) <-> In x l).
Proof.
  intros Hp Hx. induction l as [|y r IH]; simpl; [tauto|].
  destruct (p y) eqn:Hy.
  - simpl. split; intros [H|H]; auto.
    + subst x. rewrite Hp in Hx. congruence.
    + subst y. congruence.
  - destruct (update_first p f r) as [r' found]. simpl in *. rewrite IH. tauto.
Qed.

(** The subscription [subscribe_copy_trading] stores when the address is
    valid and the store takes the insert. *)
Lemma subscribe_stores e validate_address user wallet settings w :
  validate_address wallet = true ->
  w_subs (fst (Subscribe.subscribe_copy_trading Subscribe.TradingEngine e validate_address
                 true user wallet settings w))
  = w_subs w ++
    [ {| sub_user_id := user; sub_wallet_address := wallet;
         sub_copy_settings := Some (Subscribe.merge_settings settings);
         sub_created_at := utcnow e (w_clock w); sub_is_active := true |} ].
Proof.
  intro Hva. unfold Subscribe.subscribe_copy_trading,
    Subscribe.store_copy_trading_subscription.
  rewrite Hva, SubscribeFacts.engine_has_no_analyzer. reflexivity.
Qed.

Lemma unsubscribe_subs user wallet w :
  w_subs (fst (unsubscribe_copy_trading user wallet w))
  = fst (update_first (subscription_of user wallet) deactivate (w_subs w))
  /\ fst (snd (unsubscribe_copy_trading user wallet w))
     = existsb (subscription_of user wallet) (w_subs w).
Proof.
  unfold unsubscribe_copy_trading, remove_copy_trading_subscription.
  rewrite <- update_first_found with (f := deactivate).
  destruct (update_first _ _ _) as [subs found]. destruct found; auto.
Qed.

(** X21: [remove_copy_trading_subscription] updates the first
    document of the user and the wallet, active or not.  A user who
    subscribes, unsubscribes and subscribes again has two documents; the
    next unsubscription answers with a success and deactivates the first
    one once more: the second stays active, and the user is still among
    those the relay copies for. *)
Theorem resubscribe_survives_unsubscribe :
  forall e1 e2 validate_address user wallet s1 s2 w,
    validate_address wallet = true ->
    let subscribe e s w :=
      fst (Subscribe.subscribe_copy_trading Subscribe.TradingEngine e validate_address
             true user wallet s w) in
    let w1 := subscribe e1 s1 w in
    let w2 := fst (unsubscribe_copy_trading user wallet w1) in
    let w3 := subscribe e2 s2 w2 in
    let r := unsubscribe_copy_trading user wallet w3 in
    fst (snd r) = true
    /\ exists s, In s (get_copy_trading_users (fst r) wallet)
                 /\ sub_user_id s = user
                 /\ sub_copy_settings s = Some (Subscribe.merge_settings s2).
Proof.
  intros e1 e2 validate_address user wallet s1 s2 w Hva subscribe w1 w2 w3 r.
  set (p := subscription_of user wallet).
  assert (Hmine : forall e s w0, p {| sub_user_id := user; sub_wallet_address := wallet;
                                     sub_copy_settings := Some (Subscribe.merge_settings s);
                                     sub_created_at := utcnow e (w_clock w0);
                                     sub_is_active := true |} = true).
  { intros. unfold p, subscription_of. simpl.
    rewrite Z.eqb_refl, String.eqb_refl. reflexivity. }
  assert (H1 : existsb p (w_subs w1) = true).
  { unfold w1, subscribe. rewrite subscribe_stores by exact Hva.
    rewrite existsb_app. simpl. rewrite Hmine, orb_true_r. reflexivity. }
  assert (H2 : existsb p (w_subs w2) = true).
  { unfold w2. rewrite (proj1 (unsubscribe_subs user wallet w1)).
    fold p. rewrite update_first_keeps_matches; [exact H1|reflexivity]. }
  destruct (unsubscribe_subs user wallet w3) as [Hsubs Hok]. fold r p in Hsubs, Hok.
  assert (H3 : w_subs w3 = w_subs w2 ++
                 [ {| sub_user_id := user; sub_wallet_address := wallet;
                      sub_copy_settings := Some (Subscribe.merge_settings s2);
                      sub_created_at := utcnow e2 (w_clock w2); sub_is_active := true |} ])
    by (unfold w3, subscribe; apply subscribe_stores; exact Hva).
  split.
  - rewrite Hok, H3, existsb_app, H2. reflexivity.
  - exists {| sub_user_id := user; sub_wallet_address := wallet;
              sub_copy_settings := Some (Subscribe.merge_settings s2);
              sub_created_at := utcnow e2 (w_clock w2); sub_is_active := true |}.
    split; [|split; reflexivity].
    unfold get_copy_trading_users. apply filter_In. split.
    + rewrite Hsubs, H3, (@update_first_prefix _ p deactivate (w_subs w2) _ H2). simpl.
      apply in_or_app. right. left. reflexivity.
    + simpl. rewrite String.eqb_refl. reflexivity.
Qed.

Lemma resubscribe_survives_unsubscribe_witness :
  let subscribe e s w :=
    fst (Subscribe.subscribe_copy_trading Subscribe.TradingEngine e (fun _ => true)
           true 42 "Whale" s w) in
  let w1 := subscribe Examples.quiet_env None Examples.empty_world in
  let w2 := fst (unsubscribe_copy_trading 42 "Whale" w1) in
  let w3 := subscribe Examples.quiet_env (Some MoreExamples.keen_settings) w2 in
  let r := unsubscribe_copy_trading 42 "Whale" w3 in
  fst (snd r) = true
  /\ exists s, In s (get_copy_trading_users (fst r) "Whale")
               /\ sub_user_id s = 42%Z
               /\ sub_copy_settings s
                  = Some (Subscribe.merge_settings (Some MoreExamples.keen_settings)).
Proof.
  apply (@resubscribe_survives_unsubscribe Examples.quiet_env Examples.quiet_env
           (fun _ => true) 42%Z "Whale" None (Some MoreExamples.keen_settings)
           Examples.empty_world).
  reflexivity.
Defined.

(** With at most one document of the user and the wallet, none is left
    active after the update of the first. *)
Lemma update_first_single (A : Type) (p : A -> bool) (f : A -> A) (l : list A) x :
  (forall y, p (f y) = p y) ->
  (List.length (filter p l) <= 1)%nat ->
  In x (fst (update_first p f l)) -> p x = true ->
  exists y, In y l /\ p y = true /\ x = f y.
Proof.
  intros Hp. induction l as [|y r IH]; simpl; intros Hlen Hin Hx; [contradiction|].
  destruct (p y) eqn:Hy.
  - simpl in Hlen, Hin. destruct Hin as [Hin|Hin].
    + exists y. auto.
    + exfalso. assert (Hx' : In x (filter p r)) by (apply filter_In; auto).
      destruct (filter p r); [contradiction|simpl in Hlen; lia].
  - destruct (update_first p f r) as [r' found]. simpl in *.
    destruct Hin as [Hin|Hin]; [subst y; congruence|].
    destruct (IH Hlen Hin Hx) as (z & Hz & Hpz & Hxz). exists z. auto.
Qed.

(** X22: when the store holds at most one subscription of the
    user to the wallet, [unsubscribe_copy_trading] answers with a success
    exactly when there is one; the user is then no longer among those the
    relay copies the wallet for, the wallet is no longer among the user's
    subscriptions, and the subscriptions of others, and of the user to
    other wallets, are as before. *)
Theorem unsubscribe_stops_copying :
  forall user wallet w,
    (List.length (filter (subscription_of user wallet) (w_subs w)) <= 1)%nat ->
    let r := unsubscribe_copy_trading user wallet w in
    fst (snd r) = existsb (subscription_of user wallet) (w_subs w)
    /\ (forall s, In s (get_copy_trading_users (fst r) wallet) -> sub_user_id s <> user)
    /\ (forall s, In s (get_user_copy_trading_subscriptions (fst r) user) ->
                  sub_wallet_address s <> wallet)
    /\ (forall s, subscription_of user wallet s = false ->
                  (In s (w_subs (fst r)) <-> In s (w_subs w))).
Proof.
  intros user wallet w Hone r.
  destruct (unsubscribe_subs user wallet w) as [Hsubs Hok]. fold r in Hsubs, Hok.
  assert (Hgone : forall s, In s (w_subs (fst r)) ->
                    subscription_of user wallet s = true -> sub_is_active s = false).
  { intros s Hin Hp. rewrite Hsubs in Hin.
    destruct (@update_first_single _ (subscription_of user wallet) deactivate (w_subs w) s
                (fun _ => eq_refl) Hone Hin Hp) as (y & _ & _ & Hy).
    subst s. reflexivity. }
  split; [exact Hok|]. split; [|split].
  - intros s Hs Hu. unfold get_copy_trading_users in Hs. apply filter_In in Hs.
    destruct Hs as [Hin Hact]. apply andb_true_iff in Hact. destruct Hact as [Hw Ha].
    rewrite (Hgone s Hin) in Ha; [discriminate|].
    unfold subscription_of. rewrite Hu, Z.eqb_refl. exact Hw.
  - intros s Hs Hw. unfold get_user_copy_trading_subscriptions in Hs.
    apply filter_In in Hs.
    destruct Hs as [Hin Hact]. apply andb_true_iff in Hact. destruct Hact as [Hu Ha].
    rewrite (Hgone s Hin) in Ha; [discriminate|].
    unfold subscription_of. rewrite Hu, Hw, String.eqb_refl. reflexivity.
  - intros s Hs. rewrite Hsubs. apply update_first_others; [reflexivity|exact Hs].
Qed.

Lemma unsubscribe_stops_copying_witness :
  let r := unsubscribe_copy_trading 42 "Whale" Examples.copy_world in
  fst (snd r) = existsb (subscription_of 42 "Whale") (w_subs Examples.copy_world)
  /\ (forall s, In s (get_copy_trading_users (fst r) "Whale") -> sub_user_id s <> 42%Z)
  /\ (forall s, In s (get_user_copy_trading_subscriptions (fst r) 42) ->
                sub_wallet_address s <> "Whale"%string)
  /\ (forall s, subscription_of 42 "Whale" s = false ->
                (In s (w_subs (fst r)) <-> In s (w_subs Examples.copy_world))).
Proof.
  apply (@unsubscribe_stops_copying 42%Z "Whale" Examples.copy_world).
  simpl. lia.
Defined.

(** X23: [update_copy_trading_settings] replaces the stored
    settings by the dictionary it is given, nothing is merged.  When that
    dictionary does not enable copying (the key [enabled] is missing or
    false) and the user has one subscription to the wallet, the
    subscription stays listed as active and the relay skips it: no child
    order is submitted for it, whatever the source trade. *)
Theorem settings_update_can_stop_copying :
  forall user wallet settings w,
    (List.length (filter (subscription_of user wallet) (w_subs w)) <= 1)%nat ->
    dflt false (cs_enabled settings) = false ->
    let r := update_copy_trading_settings user wallet settings w in
    fst (snd r) = existsb (subscription_of user wallet) (w_subs w)
    /\ forall s, In s (get_copy_trading_users (fst r) wallet) -> sub_user_id s = user ->
         sub_copy_settings s = Some settings
         /\ forall cfg payment e t ty amount usd tin tout w0,
              copy_for_user cfg payment e wallet t ty amount usd tin tout s w0 = w0.
Proof.
  intros user wallet settings w Hone Hoff r.
  assert (Hr : w_subs (fst r)
               = fst (update_first (subscription_of user wallet) (with_settings settings)
                        (w_subs w))
               /\ fst (snd r) = existsb (subscription_of user wallet) (w_subs w)).
  { unfold r, update_copy_trading_settings, Store.update_copy_trading_settings.
    rewrite <- update_first_found with (f := with_settings settings).
    destruct (update_first _ _ _) as [subs found]. destruct found; auto. }
  destruct Hr as [Hsubs Hok]. split; [exact Hok|].
  intros s Hs Hu. unfold get_copy_trading_users in Hs. apply filter_In in Hs.
  destruct Hs as [Hin Hact]. apply andb_true_iff in Hact. destruct Hact as [Hw Ha].
  rewrite Hsubs in Hin.
  assert (Hp : subscription_of user wallet s = true).
  { unfold subscription_of. rewrite Hu, Z.eqb_refl. exact Hw. }
  destruct (@update_first_single _ (subscription_of user wallet) (with_settings settings)
              (w_subs w) s (fun _ => eq_refl) Hone Hin Hp) as (y & _ & _ & Hy).
  subst s. split; [reflexivity|].
  intros. unfold copy_for_user. simpl. rewrite Hoff. reflexivity.
Qed.

Lemma settings_update_can_stop_copying_witness :
  let r := update_copy_trading_settings 42 "Whale" MoreExamples.keen_settings
             Examples.copy_world in
  fst (snd r) = existsb (subscription_of 42 "Whale") (w_subs Examples.copy_world)
  /\ forall s, In s (get_copy_trading_users (fst r) "Whale") -> sub_user_id s = 42%Z ->
       sub_copy_settings s = Some MoreExamples.keen_settings
       /\ forall cfg payment e t ty amount usd tin tout w0,
            copy_for_user cfg payment e "Whale" t ty amount usd tin tout s w0 = w0.
Proof.
  apply (@settings_update_can_stop_copying 42%Z "Whale" MoreExamples.keen_settings
           Examples.copy_world).
  - simpl. lia.
  - reflexivity.
Defined.

(** X24: [cancel_snipe_order] cancels an allocation only for
    its owner.  With identifiers that are unique, it answers with a success
    exactly when the caller owns an allocation under that identifier,
    whatever its status; that allocation is then not among the active
    ones, and every other allocation, those of other users under any
    identifier included, is as before. *)
Theorem cancel_snipe_order_is_the_owners :
  forall user order_id (s : snipe_store),
    (List.length (filter (snipe_order_of user order_id) s) <= 1)%nat ->
    let r := Intake.cancel_snipe_order user order_id s in
    fst (snd r) = existsb (snipe_order_of user order_id) s
    /\ (forall so, In so (get_active_snipe_orders (fst r)) ->
                   snipe_order_of user order_id so = false)
    /\ (forall so, snipe_order_of user order_id so = false ->
                   (In so (fst r) <-> In so s)).
Proof.
  intros user order_id s Hone r.
  assert (Hr : fst r = fst (update_first (snipe_order_of user order_id)
                              (set_snipe_status "cancelled") s)
               /\ fst (snd r) = existsb (snipe_order_of user order_id) s).
  { unfold r, Intake.cancel_snipe_order, Store.cancel_snipe_order.
    rewrite <- update_first_found with (f := set_snipe_status "cancelled").
    destruct (update_first _ _ _) as [s' found]. destruct found; auto. }
  destruct Hr as [Hs Hok]. split; [exact Hok|]. split.
  - intros so Hin. unfold get_active_snipe_orders in Hin. apply filter_In in Hin.
    destruct Hin as [Hin Hact]. rewrite Hs in Hin.
    destruct (snipe_order_of user order_id so) eqn:Hp; [|reflexivity].
    destruct (@update_first_single _ (snipe_order_of user order_id)
                (set_snipe_status "cancelled") s so (fun _ => eq_refl) Hone Hin Hp)
      as (y & _ & _ & Hy).
    subst so. discriminate.
  - intros so Hp. rewrite Hs. apply update_first_others; [reflexivity|exact Hp].
Qed.

Lemma cancel_snipe_order_is_the_owners_witness :
  let r := Intake.cancel_snipe_order 8 "5f0000000000000000000001" MoreExamples.two_snipes in
  fst (snd r)
  = existsb (snipe_order_of 8 "5f0000000000000000000001") MoreExamples.two_snipes
  /\ (forall so, In so (get_active_snipe_orders (fst r)) ->
                 snipe_order_of 8 "5f0000000000000000000001" so = false)
  /\ (forall so, snipe_order_of 8 "5f0000000000000000000001" so = false ->
                 (In so (fst r) <-> In so MoreExamples.two_snipes)).
Proof.
  apply (@cancel_snipe_order_is_the_owners 8%Z "5f0000000000000000000001"
           MoreExamples.two_snipes).
  simpl. lia.
Defined.

(** User 8 cannot cancel the allocation of user 7. *)
Example cancel_snipe_order_of_another :
  Intake.cancel_snipe_order 8 "5f0000000000000000000001" MoreExamples.two_snipes
  = (MoreExamples.two_snipes, (false, "Failed to cancel snipe order"%string)).
Proof. reflexivity. Qed.

End SubscriptionFacts.

(** ** What the copy-trading monitor is given to watch *)

Module StartupFacts.
Import Startup CopyTrading.

Lemma append_wallet_names user wallet (d : subscriptions) W :
  In W (List.concat (map snd (append_wallet user wallet d)))
  <-> W = wallet \/ In W (List.concat (map snd d)).
Proof.
  induction d as [|[u ws] r IH]; simpl.
  - intuition.
  - destruct (Z.eqb u user); simpl.
    + rewrite !in_app_iff. simpl. intuition.
    + rewrite !in_app_iff, IH. intuition.
Qed.

Lemma loaded_names (l : list subscription_doc) : forall (d : subscriptions) W,
  In W (List.concat (map snd
          (fold_left (fun d sub => append_wallet (sub_user_id sub) (sub_wallet_address sub) d)
                     l d))) ->
  In W (List.concat (map snd d)) \/ exists s, In s l /\ sub_wallet_address s = W.
Proof.
  induction l as [|s r IH]; simpl; intros d W H; [auto|].
  destruct (IH _ _ H) as [Hd|(x & Hx & Hw)].
  - apply append_wallet_names in Hd. destruct Hd as [Hd|Hd]; [|auto].
    right. exists s. auto.
  - right. exists x. auto.
Qed.

Section Elsewhere.

Variable cfg : config.
Variable payment : option string.
Variable e : env.
Variables (W S : string) (U : Z).

Lemma copy_for_user_elsewhere wallet t ty amount usd tin tout sub w :
  wallet <> W ->
  relays W S U (w_trace (copy_for_user cfg payment e wallet t ty amount usd tin tout sub w))
  = relays W S U (w_trace w).
Proof.
  intro Hne.
  destruct (CopyFacts.copy_for_user_trace cfg payment e wallet t ty amount usd tin tout sub w)
    as [_ Htr].
  cbv zeta in Htr. destruct (submits ty amount usd sub); [|rewrite Htr; reflexivity].
  destruct Htr as (amt & _ & s & tok & rest & Htr & Hrest).
  rewrite Htr, CopyFacts.relays_app, CopyFacts.relays_submit.
  destruct (Hrest W S U) as [Hr _]. rewrite Hr. simpl origin_eqb.
  assert (Hw : String.eqb W wallet = false) by (apply String.eqb_neq; congruence).
  rewrite Hw. simpl. lia.
Qed.

Lemma fold_elsewhere (A : Type) (f : world -> A -> world) (l : list A) :
  (forall x, In x l -> forall w, relays W S U (w_trace (f w x)) = relays W S U (w_trace w)) ->
  forall w, relays W S U (w_trace (fold_left f l w)) = relays W S U (w_trace w).
Proof.
  induction l as [|x r IH]; intros Hf w; simpl; [reflexivity|].
  rewrite IH by (intros y Hy; apply Hf; right; exact Hy).
  apply Hf. left. reflexivity.
Qed.

Lemma check_wallet_elsewhere wallet w :
  wallet <> W ->
  relays W S U (w_trace (check_wallet cfg payment e w wallet)) = relays W S U (w_trace w).
Proof.
  intro Hne. unfold check_wallet.
  rewrite fold_elsewhere; [reflexivity|].
  intros t _ w0. unfold check_transaction.
  match goal with |- context [if ?c then w0 else _] => destruct c; [reflexivity|] end.
  match goal with |- context [match ?c with Some _ => _ | None => _ end] =>
    destruct c as [kind|]; [|reflexivity] end.
  unfold _execute_copy_trades.
  destruct (get_copy_trading_users w0 wallet) as [|u us]; [reflexivity|].
  destruct (_ && _); [reflexivity|].
  destruct (_ || _); [reflexivity|].
  rewrite fold_elsewhere; [reflexivity|].
  intros sub _ w1. apply copy_for_user_elsewhere. exact Hne.
Qed.

Lemma monitor_elsewhere subscriptions w :
  ~ In W (List.concat (map snd subscriptions)) ->
  relays W S U (w_trace (_monitor_copy_trading cfg payment e subscriptions w))
  = relays W S U (w_trace w).
Proof.
  intro Hnot. unfold _monitor_copy_trading.
  destruct subscriptions as [|s0 ss]; [reflexivity|].
  apply fold_elsewhere. intros wallet Hin w0. apply check_wallet_elsewhere.
  intro Heq. subst wallet. apply Hnot. apply CopyFacts.set_of_In. exact Hin.
Qed.

End Elsewhere.

(** X25: the wallets the copy-trading monitor watches are those it
    was loaded with, and [_load_copy_trading_subscriptions] loads them from
    the collection [copy_subscriptions], not from the one subscriptions are
    stored in.  For a wallet that no active document of that collection
    names, a round of the monitor submits no child order, whoever is
    subscribed to it in the store and whatever the wallet did. *)
Theorem monitor_watches_only_what_was_loaded :
  forall cfg payment e copy_subscriptions w wallet signature user,
    (forall s, In s copy_subscriptions -> sub_is_active s = true ->
               sub_wallet_address s <> wallet) ->
    relays wallet signature user
      (w_trace (_monitor_copy_trading cfg payment e
                  (_load_copy_trading_subscriptions copy_subscriptions []) w))
    = relays wallet signature user (w_trace w).
Proof.
  intros cfg payment e copy_subscriptions w wallet signature user Hnone.
  apply monitor_elsewhere. intro Hin.
  unfold _load_copy_trading_subscriptions in Hin.
  apply loaded_names in Hin. destruct Hin as [[]|(s & Hs & Hw)].
  apply filter_In in Hs. destruct Hs as [Hs Hact].
  exact (Hnone s Hs Hact Hw).
Qed.

Lemma monitor_watches_only_what_was_loaded_witness :
  relays "Whale" "sig-one" 42
    (w_trace (_monitor_copy_trading default_config Examples.wired Examples.whale_env
                (_load_copy_trading_subscriptions [] []) Examples.copy_world))
  = relays "Whale" "sig-one" 42 (w_trace Examples.copy_world).
Proof.
  apply (@monitor_watches_only_what_was_loaded default_config Examples.wired Examples.whale_env []
           Examples.copy_world "Whale" "sig-one" 42%Z).
  intros s [].
Defined.

End StartupFacts.

(** ** Fees *)

Module FeeFacts.
Import Fees.

Lemma solana_service_has_no_transfer :
  Subscribe.getattr SolanaService "create_transfer_transaction" = None.
Proof. reflexivity. Qed.

(** X26: [process_automatic_fee_deduction] never returns [True] and never
    records a payment: after a transfer that succeeded it calls
    [record_fee_payment] with one argument short, which raises.  With the
    [SolanaService] of the repository it does not get that far: the
    service has no [create_transfer_transaction], so no transfer is ever
    requested. *)
Theorem fee_deduction_never_succeeds :
  forall fc fe solana user transaction_amount transaction_type signature l,
    let r := process_automatic_fee_deduction fc fe solana user transaction_amount
               transaction_type signature l in
    snd r = false
    /\ payments (fst r) = payments l
    /\ (solana = SolanaService -> fst r = l).
Proof.
  intros fc fe solana user transaction_amount transaction_type signature l r.
  unfold r, process_automatic_fee_deduction.
  destruct (primary_wallet fe user) as [address|]; [|auto].
  destruct (Qltb _ _); [auto|].
  unfold _transfer_fee_to_admin.
  destruct (negb (admin_keypair fe)); [auto|].
  destruct (Subscribe.getattr solana "create_transfer_transaction") eqn:Hattr.
  - destruct (transfer_succeeds fe address _); simpl.
    + repeat split. intro Hs. subst solana.
      rewrite solana_service_has_no_transfer in Hattr. discriminate.
    + repeat split. intro Hs. subst solana.
      rewrite solana_service_has_no_transfer in Hattr. discriminate.
  - auto.
Qed.

End FeeFacts.

(** ** The wiring of the services *)

Module WiringFacts.

Lemma main_engine_payment : Wiring.payment_of (Wiring.setup Wiring.new_bot) = None.
Proof. reflexivity. Qed.

(** The payment service of the engine decides the answer of a market
    order, and nothing else: the trace and the trades are the same with
    and without one. *)
Lemma market_buy_whatever_payment cfg e o user token amt w p q :
  w_trace (fst (execute_market_buy cfg p e o user token amt w))
  = w_trace (fst (execute_market_buy cfg q e o user token amt w))
  /\ w_trades (fst (execute_market_buy cfg p e o user token amt w))
     = w_trades (fst (execute_market_buy cfg q e o user token amt w)).
Proof.
  unfold execute_market_buy. cbv zeta.
  destruct (_ || _); [auto|].
  destruct (Qltb _ amt); [auto|].
  destruct (sr_success _); [|auto].
  destruct (store_trade _ _ _) as [w1 b].
  destruct (MarketFacts.deduct_fee_and_answer_world p
              (execute_swap e (w_clock (emit w (ev_submit o Buy user token amt)))
                 SOL_MINT token amt (DEFAULT_SLIPPAGE cfg)) w1) as (H1 & H2 & _).
  destruct (MarketFacts.deduct_fee_and_answer_world q
              (execute_swap e (w_clock (emit w (ev_submit o Buy user token amt)))
                 SOL_MINT token amt (DEFAULT_SLIPPAGE cfg)) w1) as (H3 & H4 & _).
  split; congruence.
Qed.

Lemma market_sell_whatever_payment cfg e o user token amt w p q :
  w_trace (fst (execute_market_sell cfg p e o user token amt w))
  = w_trace (fst (execute_market_sell cfg q e o user token amt w))
  /\ w_trades (fst (execute_market_sell cfg p e o user token amt w))
     = w_trades (fst (execute_market_sell cfg q e o user token amt w)).
Proof.
  unfold execute_market_sell. cbv zeta.
  destruct (sr_success _); [|auto].
  destruct (store_trade _ _ _) as [w1 b].
  destruct (MarketFacts.deduct_fee_and_answer_world p
              (execute_swap e (w_clock (emit w (ev_submit o Sell user token amt)))
                 token SOL_MINT amt (DEFAULT_SLIPPAGE cfg)) w1) as (H1 & H2 & _).
  destruct (MarketFacts.deduct_fee_and_answer_world q
              (execute_swap e (w_clock (emit w (ev_submit o Sell user token amt)))
                 token SOL_MINT amt (DEFAULT_SLIPPAGE cfg)) w1) as (H3 & H4 & _).
  split; congruence.
Qed.

(** Without payment service a market order is answered as failed. *)
Lemma unwired_market_buy cfg e o user token amt w :
  r_success (snd (execute_market_buy cfg None e o user token amt w)) = false.
Proof.
  unfold execute_market_buy. cbv zeta.
  destruct (_ || _); [auto|].
  destruct (Qltb _ amt); [auto|].
  destruct (sr_success _); [|auto].
  destruct (store_trade _ _ _) as [w1 b]. reflexivity.
Qed.

Lemma unwired_market_sell cfg e o user token amt w :
  r_success (snd (execute_market_sell cfg None e o user token amt w)) = false.
Proof.
  destruct (MarketFacts.execute_market_sell_trace cfg None e o user token amt w) as [_ Hok].
  rewrite Hok. apply andb_false_r.
Qed.

(** X27: [setup] of [main.py] constructs the engine before it
    constructs the payment service, so the engine keeps [None] as its
    payment service ([main_testnet.py] constructs them the other way
    round).  With that engine a market order never reports a success: the
    swap is requested and, when the venue executes it, the trade is stored
    as completed, exactly as with a payment service, and then the call of
    the fee deduction raises and the order is answered as failed. *)
Theorem main_wiring_reports_executed_orders_as_failed :
  forall cfg e o user token amt w (buy : bool),
    let payment := Wiring.payment_of (Wiring.setup Wiring.new_bot) in
    let run := fun p => if buy then execute_market_buy cfg p e o user token amt w
                        else execute_market_sell cfg p e o user token amt w in
    payment = None
    /\ Wiring.payment_of (Wiring.setup_testnet Wiring.new_bot) = Some "PaymentService"%string
    /\ r_success (snd (run payment)) = false
    /\ forall service,
         w_trace (fst (run payment)) = w_trace (fst (run (Some service)))
         /\ w_trades (fst (run payment)) = w_trades (fst (run (Some service))).
Proof.
  intros cfg e o user token amt w buy payment run.
  split; [reflexivity|]. split; [reflexivity|].
  unfold run, payment. rewrite main_engine_payment.
  destruct buy.
  - split; [apply unwired_market_buy|]. intro service. apply market_buy_whatever_payment.
  - split; [apply unwired_market_sell|]. intro service. apply market_sell_whatever_payment.
Qed.

Lemma unwired_check_stop_loss cfg e trade w :
  exists extra,
    w_trades (StopLossMonitor._check_stop_loss cfg None e trade w) = w_trades w ++ extra
    /\ Forall (fun d => StopLossMonitor.has_stop_loss d = false) extra.
Proof.
  assert (Hsame : exists extra, w_trades w = w_trades w ++ extra
                    /\ Forall (fun d => StopLossMonitor.has_stop_loss d = false) extra)
    by (exists []; rewrite app_nil_r; auto).
  unfold StopLossMonitor._check_stop_loss.
  destruct (negb _); [exact Hsame|].
  destruct (Qeq_bool _ 0); [exact Hsame|].
  destruct (Qeq_bool _ 0); [exact Hsame|].
  destruct (Qeq_bool _ 0); [exact Hsame|].
  destruct (Binary64.leb _ _); [|exact Hsame].
  unfold StopLossMonitor._execute_stop_loss.
  destruct (Qleb _ 0); [exact Hsame|].
  destruct (t_output_token trade) as [tok|]; [|exact Hsame].
  match goal with |- context [execute_market_sell ?c None ?e ?o ?u ?t ?a ?w] =>
    pose proof (unwired_market_sell c e o u t a w) as Hfail;
    pose proof (MarketMore.execute_market_sell_appends c None e o u t a w) as Happ;
    destruct (execute_market_sell c None e o u t a w) as [w1 result]
  end.
  simpl in Hfail, Happ. rewrite Hfail.
  destruct Happ as [Heq|(x & Heq & _ & _ & Hsl & _)]; rewrite Heq.
  - exact Hsame.
  - exists [x]. split; [reflexivity|]. constructor; [|constructor].
    unfold StopLossMonitor.has_stop_loss. rewrite Hsl. apply andb_false_r.
Qed.

Lemma unwired_rounds cfg es : forall w,
  exists extra,
    w_trades (StopLossMonitor.run_rounds cfg None es w) = w_trades w ++ extra
    /\ Forall (fun d => StopLossMonitor.has_stop_loss d = false) extra.
Proof.
  induction es as [|e rest IH]; intro w; simpl.
  - exists []. rewrite app_nil_r. auto.
  - assert (Hround : exists extra,
              w_trades (StopLossMonitor._monitor_stop_losses cfg None e w) = w_trades w ++ extra
              /\ Forall (fun d => StopLossMonitor.has_stop_loss d = false) extra).
    { unfold StopLossMonitor._monitor_stop_losses.
      change (w_trades w) with (w_trades (step w)). generalize (step w).
      generalize (StopLossMonitor.get_completed_trades_with_stop_loss w).
      intro l. induction l as [|d r IHl]; intro w0; simpl.
      - exists []. rewrite app_nil_r. auto.
      - destruct (unwired_check_stop_loss cfg e d w0) as (x1 & H1 & F1).
        destruct (IHl (StopLossMonitor._check_stop_loss cfg None e d w0)) as (x2 & H2 & F2).
        exists (x1 ++ x2). rewrite H2, H1, <- app_assoc. split; [reflexivity|].
        apply Forall_app. auto. }
    destruct Hround as (x1 & H1 & F1).
    destruct (IH (StopLossMonitor._monitor_stop_losses cfg None e w)) as (x2 & H2 & F2).
    exists (x1 ++ x2). rewrite H2, H1, <- app_assoc. split; [reflexivity|].
    apply Forall_app. auto.
Qed.

(** X28: with the engine [main.py] builds, a stop loss that
    fires is never recorded.  The forced sell is requested, and answered
    as failed even when the venue executed it, so the trade is not flagged
    as triggered: over any number of rounds no stored trade changes, and
    the monitor selects in every round the trades it selected in the
    first, those already sold included. *)
Theorem main_wiring_stop_loss_never_recorded :
  forall cfg es w,
    let w' := StopLossMonitor.run_rounds cfg
                (Wiring.payment_of (Wiring.setup Wiring.new_bot)) es w in
    (exists extra, w_trades w' = w_trades w ++ extra)
    /\ StopLossMonitor.get_completed_trades_with_stop_loss w'
       = StopLossMonitor.get_completed_trades_with_stop_loss w.
Proof.
  intros cfg es w w'. unfold w'. rewrite main_engine_payment.
  destruct (unwired_rounds cfg es w) as (extra & Hts & Hnone).
  split; [exists extra; exact Hts|].
  unfold StopLossMonitor.get_completed_trades_with_stop_loss.
  rewrite Hts, filter_app.
  assert (Hempty : filter (fun d => StopLossMonitor.has_stop_loss d
                                    && negb (t_stop_loss_triggered d)) extra = []).
  { clear Hts. induction extra as [|x r IH]; [reflexivity|].
    inversion Hnone; subst. simpl.
    match goal with H : StopLossMonitor.has_stop_loss x = false |- _ => rewrite H end.
    simpl. apply IH. assumption. }
  rewrite Hempty. apply app_nil_r.
Qed.

(** A position of user 42 entered at 10 with a stop loss of 20%, were one
    stored, and three rounds with the price at 7 and a venue that executes
    every swap: with the engine of [main.py] the position is sold three
    times. *)
Example unrecorded_stop_loss_sells_again :
  StopLossMonitor.executed_sells (t_id Examples.held_trade)
    (w_trace (StopLossMonitor.run_rounds default_config
                (Wiring.payment_of (Wiring.setup Wiring.new_bot))
                [Examples.priced_env 7; Examples.priced_env 7; Examples.priced_env 7]
                Examples.held_world))
  = 3%nat.
Proof. vm_compute. reflexivity. Qed.

End WiringFacts.

(* ================================================================== *)
(** ** The tasks of the event loop *)

Module TasksFacts.
Import Session Tasks.

(** [_execute_market_order] is its two parts, one after the other. *)
Lemma execute_market_order_in_two e order_id order a w :
  _execute_market_order e order_id order a w
  = let '(w1, res) := begin_market_order e order_id order w in
    finish_market_order e order_id order res a w1.
Proof.
  unfold _execute_market_order, begin_market_order, finish_market_order.
  destruct (update_trade_status e w order_id (status_value EXECUTING) no_data) as [w1 b].
  reflexivity.
Qed.

(** A task that nothing interrupts does in a round what [_process_orders]
    does. *)
Lemma settle_round r : forall items s,
  exists n,
    settle r n (fst (advance r items (fst s)), snd s) (snd (advance r items (fst s)))
    = (fold_left (fun s item => OrderLoop.process_order r item s) items s, Loop).
Proof.
  induction items as [|[order_id order] rest IH]; intros [w a].
  - exists 0%nat. reflexivity.
  - cbn [advance fold_left OrderLoop.process_order fst snd].
    destruct (match expires_at order with Some t => _ | None => false end);
      [apply (IH (w, a))|].
    destruct (_ || _); [apply (IH (w, a))|].
    destruct (TradeType_eqb _ SNIPE); [|apply (IH (w, a))].
    unfold OrderLoop._check_snipe_order.
    destruct (opt_string_eqb _ _); [apply (IH (step w, a))|].
    rewrite execute_market_order_in_two.
    destruct (begin_market_order _ order_id order (step w)) as [w1 res].
    cbn [fst snd].
    destruct (finish_market_order (OrderLoop.outside r) order_id order res a w1)
      as [w2 a2] eqn:Hfin.
    destruct (IH (w2, a2)) as [n Hn]. cbn [fst snd] in Hn.
    exists (S n). cbn [settle resume]. rewrite Hfin.
    destruct (advance r rest w2) as [w3 t3]. exact Hn.
Qed.





Lemma still_refl w : still w w.
Proof. apply SessionFacts.calm_refl. Qed.












(** ** What the parts of a task do to the trace *)





(** ** The invariant is kept *)






























(** The run of the witness, evaluated: the snipe and the market buy are
    each swapped once and completed, and no order is left active. *)
Example busy_schedule_swaps_each_once :
  let p := run default_config Examples.unwired MoreExamples.busy_schedule
             (start_monitoring default_config (idle Examples.empty_world)) in
  map (fun d => (py_str (t_id d), t_trade_type d, t_status d)) (w_trades (p_world p))
  = [("5f000000000000000000001"%string, "snipe"%string, "completed"%string);
     ("5f000000000000000000008"%string, "buy"%string, "completed"%string)]
  /\ exec "5f000000000000000000001" (p_world p) = 1%nat
  /\ exec "5f000000000000000000008" (p_world p) = 1%nat
  /\ p_active p = []
  /\ p_tasks p = [Loop; Finished].
Proof. vm_compute. repeat split; reflexivity. Qed.

(** Why the orders are to be created in their time.  [create_trade_order]
    takes as the identifier of its order that of the latest trade of the
    user, and of two trades with the same stamp the lookup returns the
    first.  A market buy created in the instant of an earlier one, which is
    completed, is registered and executed under the name of the earlier:
    its own trade stays pending. *)
Example same_instant_order_runs_under_an_earlier_name :
  let p := run default_config Examples.unwired MoreExamples.same_instant_schedule
             (start_monitoring default_config (idle Examples.empty_world)) in
  forallb (fun rm => steady (snd rm)) MoreExamples.same_instant_schedule = true
  /\ timely default_config Examples.unwired MoreExamples.same_instant_schedule
       (start_monitoring default_config (idle Examples.empty_world)) = false
  /\ map (fun d => (py_str (t_id d), t_status d, t_created_at d)) (w_trades (p_world p))
     = [("5f000000000000000000001"%string, "completed"%string, 0%Z);
        ("5f000000000000000000006"%string, "pending"%string, 0%Z)]
  /\ exec "5f000000000000000000001" (p_world p) = 2%nat
  /\ exec "5f000000000000000000006" (p_world p) = 0%nat.
Proof. vm_compute. repeat split; reflexivity. Qed.


End TasksFacts.

(* ================================================================== *)
(** ** The flag of a stop loss that fired *)

Module StopLossMore.
Import StopLossMonitor.

(** X29: on an engine that has a payment service, the flag
    [stop_loss_triggered] does what it is for.  Over any number of rounds
    of the stop-loss monitor, each run to its end, whatever the prices and
    the answers of the venue, at most one forced sell per trade is
    executed: the trade is flagged when its sell succeeds and is left out
    of every later scan.  A sell that the venue refuses sets no flag, and
    the next round that sees the drawdown submits it again. *)
Theorem wired_stop_loss_executes_once :
  forall cfg service es w,
    well_formed w -> w_trace w = [] ->
    forall i, (executed_sells i (w_trace (run_rounds cfg (Some service) es w)) <= 1)%nat.
Proof.
  intros cfg service es w Hwf Hempty.
  assert (Hacc : sells_accounted w).
  { unfold sells_accounted, executed_sells. rewrite Hempty. simpl.
    split; [intro; lia|]. split; intros; lia. }
  apply (StopLossFacts.rounds_keep_accounts cfg service es Hwf Hacc).
Qed.

Lemma wired_stop_loss_executes_once_witness :
  (executed_sells (t_id Examples.held_trade)
     (w_trace (run_rounds default_config Examples.wired
                 [Examples.refusing_env 7; Examples.priced_env 7; Examples.priced_env 6]
                 Examples.held_world))
   <= 1)%nat.
Proof.
  apply (@wired_stop_loss_executes_once default_config "PaymentService"
           [Examples.refusing_env 7; Examples.priced_env 7; Examples.priced_env 6]
           Examples.held_world).
  - split.
    + repeat constructor. simpl. tauto.
    + intros x [Hx|[]] _. subst x. exists "5f00000000000000000000a1"%string. reflexivity.
  - reflexivity.
Defined.

(** The rounds of the witness, evaluated: the sell the venue refuses is
    submitted again, and the one it executes is the last. *)
Example refused_sell_is_submitted_again :
  let tr := w_trace (run_rounds default_config Examples.wired
                       [Examples.refusing_env 7; Examples.priced_env 7; Examples.priced_env 6]
                       Examples.held_world) in
  forced_sells (t_id Examples.held_trade) tr = 2%nat
  /\ executed_sells (t_id Examples.held_trade) tr = 1%nat.
Proof. vm_compute. split; reflexivity. Qed.

End StopLossMore.
